(** * BIG-IP configuration parser: a shallow embedding of
      [bigip_config_parser.py] and the properties of its grammar pass.

    The Python class [BigIPConfigParser] is translated function by function.
    Python strings are modelled by [string] (code points below 256), lists
    of lines by [list string], Python dictionaries by association lists in
    insertion order, exceptions by a sum type.  The three instance fields of
    the parser are an explicit record that [parse_files] threads through the
    files it reads.  Console output ([print]) is not part of the model: it
    does not influence any returned value.  The recursion of [orchestrate]
    is bounded by the interpreter: [orchestrate_rec] takes the number of
    nested activations that are allowed and raises [RecursionError] beyond
    it; [orchestrate] and [parse_files] are the code when that limit is not
    reached, [parse_files_within] the code under a given limit. *)

From Stdlib Require Import String Ascii List ZArith Lia Bool Arith DecimalString.
Import ListNotations.

#[local] Open Scope list_scope.
#[local] Open Scope string_scope.

(* ================================================================== *)
(** ** Python primitives used by the parser *)
(* ================================================================== *)

Module Py.

(** [str.isspace] on one character, for code points below 256. *)
Definition isspace (c : ascii) : bool :=
  let n := nat_of_ascii c in
  (((9 <=? n) && (n <=? 13)) || ((28 <=? n) && (n <=? 32))
   || (n =? 133) || (n =? 160))%nat.

(** [s.lstrip()] *)
Fixpoint lstrip (s : string) : string :=
  match s with
  | EmptyString => EmptyString
  | String c s' => if isspace c then lstrip s' else s
  end.

(** [s.rstrip()] *)
Fixpoint rstrip (s : string) : string :=
  match s with
  | EmptyString => EmptyString
  | String c s' =>
      match rstrip s' with
      | EmptyString => if isspace c then EmptyString else String c EmptyString
      | r => String c r
      end
  end.

(** [s.strip()] *)
Definition strip (s : string) : string := rstrip (lstrip s).

(** [s.split()]: maximal runs of non-whitespace characters; [tok] is the
    run being read. *)
Fixpoint split_ws_from (tok : string) (s : string) : list string :=
  match s with
  | EmptyString => if (tok =? "")%string then [] else [tok]
  | String c s' =>
      if isspace c
      then (if (tok =? "")%string then split_ws_from "" s'
            else tok :: split_ws_from "" s')
      else split_ws_from (tok ++ String c "") s'
  end.

Definition split_ws (s : string) : list string := split_ws_from "" s.

(** [s.split(sep)] for a one-character separator (the parser only splits
    on an opening brace, a closing brace and a newline).  The result is
    never empty. *)
Fixpoint split (sep : ascii) (s : string) : list string :=
  match s with
  | EmptyString => [EmptyString]
  | String c s' =>
      if (c =? sep)%char then EmptyString :: split sep s'
      else match split sep s' with
           | [] => [String c EmptyString]
           | h :: t => String c h :: t
           end
  end.

(** [sep.join(l)] *)
Definition join (sep : string) (l : list string) : string := String.concat sep l.

(** [s.startswith(p)] *)
Definition startswith (p s : string) : bool := prefix p s.

(** [s.endswith(p)] *)
Definition endswith (p s : string) : bool :=
  (String.length p <=? String.length s)%nat
  && (substring (String.length s - String.length p) (String.length p) s =? p)%string.

(** [sub in s] *)
Fixpoint contains (sub s : string) : bool :=
  prefix sub s
  || match s with
     | EmptyString => false
     | String _ s' => contains sub s'
     end.

(** [s.count(c)] for a one-character [c]. *)
Fixpoint count (c : ascii) (s : string) : nat :=
  match s with
  | EmptyString => 0
  | String a s' => (if (a =? c)%char then 1 else 0) + count c s'
  end.

(** [s.index(sub)]: the first position of [sub]; [None] stands for the
    [ValueError] that Python raises when there is none. *)
Fixpoint find (sub s : string) : option nat :=
  if prefix sub s then Some 0
  else match s with
       | EmptyString => None
       | String _ s' => option_map S (find sub s')
       end.

(** [s[a:b]] for non-negative [a] and [b]. *)
Definition slice (a b : nat) (s : string) : string := substring a (b - a) s.

(** [s[a:]] *)
Definition drop (a : nat) (s : string) : string := substring a (String.length s) s.

(** [s.replace(old, new)] for a non-empty [old]: occurrences are replaced
    from the left and do not overlap; [skip] counts the characters of the
    occurrence just replaced that are still to be passed over. *)
Fixpoint replace_from (old new : string) (skip : nat) (s : string) : string :=
  match s with
  | EmptyString => EmptyString
  | String c s' =>
      match skip with
      | S k => replace_from old new k s'
      | O => if prefix old s
             then new ++ replace_from old new (String.length old - 1) s'
             else String c (replace_from old new 0 s')
      end
  end.

Definition replace (old new s : string) : string := replace_from old new 0 s.

(** [str(n)] for a non-negative integer. *)
Definition str_of_nat (n : nat) : string := NilZero.string_of_uint (Nat.to_uint n).

(** [str(b).lower()] *)
Definition lower_str_of_bool (b : bool) : string := if b then "true" else "false".

(** [l[a:b]] on lists, for non-negative [a] and [b]. *)
Definition lslice {A} (a b : nat) (l : list A) : list A := firstn (b - a) (skipn a l).

(** [enumerate(l, start)] *)
Fixpoint enumerate {A} (start : nat) (l : list A) : list (nat * A) :=
  match l with
  | [] => []
  | x :: l' => (start, x) :: enumerate (S start) l'
  end.

End Py.

(* ================================================================== *)
(** ** The fragment of regular expressions the parser uses *)
(* ================================================================== *)

(** Every pattern of the source is a sequence of one-character classes,
    each taken once, at most once ([?]) or any number of times ([*]), with
    an optional [$] at the end.  Matching is greedy with backtracking, as
    in Python's [re]. *)
Module Re.

Inductive quant := One | Opt | Star.

Record item := Item { cls : ascii -> bool; rep : quant }.

Record pattern := Pattern { items : list item; dollar : bool }.

(** [$] (without MULTILINE): at the end of the string, or just before a
    newline that ends the string. *)
Definition at_end (s : string) : bool :=
  match s with
  | EmptyString => true
  | String c EmptyString => (c =? "010")%char
  | _ => false
  end.

Definition orelse {A} (x y : option A) : option A :=
  match x with Some _ => x | None => y end.

(** [match_here its d s]: the rest of [s] after the first (in backtracking
    order) match of the items at the beginning of [s]. *)
Fixpoint match_here (its : list item) (d : bool) (s : string) {struct its}
  : option string :=
  match its with
  | [] => if d then (if at_end s then Some s else None) else Some s
  | it :: its' =>
      let one (k : string -> option string) (s : string) :=
        match s with
        | String c s' => if cls it c then k s' else None
        | EmptyString => None
        end in
      match rep it with
      | One => one (match_here its' d) s
      | Opt => orelse (one (match_here its' d) s) (match_here its' d s)
      | Star =>
          (fix star (s : string) : option string :=
             orelse (match s with
                     | String c s' => if cls it c then star s' else None
                     | EmptyString => None
                     end)
                    (match_here its' d s)) s
      end
  end.

(** [re.match(p, s)] as a truth value. *)
Definition matches (p : pattern) (s : string) : bool :=
  match match_here (items p) (dollar p) s with Some _ => true | None => false end.

(** [re.sub(p, '', s)] for a pattern that matches no empty string: the
    matches are found from the left and removed; [skip] counts the
    characters of the current match still to be removed. *)
Fixpoint remove_from (p : pattern) (skip : nat) (s : string) : string :=
  match s with
  | EmptyString => EmptyString
  | String c s' =>
      match skip with
      | S k => remove_from p k s'
      | O => match match_here (items p) (dollar p) s with
             | Some r => remove_from p (String.length s - String.length r - 1) s'
             | None => String c (remove_from p 0 s')
             end
      end
  end.

Definition remove (p : pattern) (s : string) : string := remove_from p 0 s.

Definition chr (c : ascii) : ascii -> bool := fun a => (a =? c)%char.
Definition not_chr (c : ascii) : ascii -> bool := fun a => negb (a =? c)%char.
Definition any : ascii -> bool := fun _ => true.

End Re.

(* ================================================================== *)
(** ** Exceptions, values and dictionaries *)
(* ================================================================== *)

(** The exceptions the parser can raise, each with its message. *)
Inductive exn :=
| ValueError (msg : string)
| IndexError (msg : string)
| AttributeError (msg : string)
| RecursionError (msg : string)
| Exception (msg : string).

(** [str(e)] *)
Definition str_exn (e : exn) : string :=
  match e with
  | ValueError m | IndexError m | AttributeError m | RecursionError m
  | Exception m => m
  end.

(** A computation that returns a value or raises. *)
Definition result (A : Type) : Type := (exn + A)%type.

Definition ret {A} (a : A) : result A := inr a.
Definition raise {A} (e : exn) : result A := inl e.
Definition bind {A B} (m : result A) (f : A -> result B) : result B :=
  match m with
  | inl e => inl e
  | inr a => f a
  end.

Notation "x <- m ;; k" := (bind m (fun x => k))
  (at level 61, m at next level, right associativity).

(** The JSON-compatible values the parser builds: a string, a list of
    strings, or a dictionary (keys in insertion order). *)
#[warnings="-register-all"]
Inductive value :=
| Str (s : string)
| Arr (l : list string)
| Obj (d : list (string * value)).

Definition dict : Type := list (string * value).

(** A [Dict[str, str]], as [str_to_obj] and [arr_to_multiline_str] return. *)
Definition sdict : Type := list (string * string).

Section Dict.
Context {V : Type}.

(** [d[k]], [None] when the key is absent. *)
Fixpoint dict_get (k : string) (d : list (string * V)) : option V :=
  match d with
  | [] => None
  | (k', v) :: d' => if (k' =? k)%string then Some v else dict_get k d'
  end.

(** [d[k] = v]: an existing key keeps its place, a new one goes last. *)
Fixpoint dict_set (k : string) (v : V) (d : list (string * V)) : list (string * V) :=
  match d with
  | [] => [(k, v)]
  | (k', v') :: d' =>
      if (k' =? k)%string then (k', v) :: d' else (k', v') :: dict_set k v d'
  end.

(** [d.update(d2)] *)
Definition dict_update (d d2 : list (string * V)) : list (string * V) :=
  fold_left (fun acc kv => dict_set (fst kv) (snd kv) acc) d2 d.
End Dict.

Definition of_sdict (d : sdict) : dict := map (fun kv => (fst kv, Str (snd kv))) d.

(** The double quote and the newline, as one-character strings. *)
Definition dq : string := String "034" "".
Definition nl : string := String "010" "".
Definition cr : string := String "013" "".

(* ================================================================== *)
(** ** The static helpers of [BigIPConfigParser] *)
(* ================================================================== *)

(** The pattern [\s?\{\s?}?$]. *)
Definition title_re : Re.pattern :=
  Re.Pattern [Re.Item Py.isspace Re.Opt; Re.Item (Re.chr "{") Re.One;
              Re.Item Py.isspace Re.Opt; Re.Item (Re.chr "}") Re.Opt] true.

(** The pattern: a backslash followed by a double quote. *)
Definition escaped_quote_re : Re.pattern :=
  Re.Pattern [Re.Item (Re.chr "\") Re.One; Re.Item (Re.chr "034") Re.One] false.

(** The pattern: a double quote, any run of other characters, a double
    quote. *)
Definition quoted_re : Re.pattern :=
  Re.Pattern [Re.Item (Re.chr "034") Re.One; Re.Item (Re.not_chr "034") Re.Star;
              Re.Item (Re.chr "034") Re.One] false.

(** The pattern of [re.match]: a double quote, any characters, a double
    quote, then [$]. *)
Definition quoted_line_re : Re.pattern :=
  Re.Pattern [Re.Item (Re.chr "034") Re.One; Re.Item Re.any Re.Star;
              Re.Item (Re.chr "034") Re.One] true.

Definition unpack_error : exn :=
  ValueError "not enough values to unpack (expected at least 1, got 0)".

Definition index_error : exn := IndexError "list index out of range".

(** [arr_to_multiline_str]: the first line gives the key and, joined again
    with single spaces, the start of the value; the other lines follow
    unchanged. *)
Definition arr_to_multiline_str (arr : list string) : result sdict :=
  match arr with
  | [] => raise index_error
  | arr0 :: others =>
      match Py.split_ws (Py.strip arr0) with
      | [] => raise unpack_error
      | key :: rest => ret [(key, Py.join nl (Py.join " " rest :: others))]
      end
  end.

Definition count_indent (s : string) : nat :=
  String.length s - String.length (Py.lstrip s).

Definition get_title (s : string) : string := Py.strip (Re.remove title_re s).

Definition obj_to_arr (line : string) : result (list string) :=
  match nth_error (Py.split "{" line) 1 with
  | None => raise index_error
  | Some after =>
      match nth_error (Py.split "}" after) 0 with
      | None => raise index_error
      | Some inside => ret (Py.split_ws (Py.strip inside))
      end
  end.

Definition remove_indent (arr : list string) : list string :=
  map (fun line => if (1 <? count_indent line)%nat then Py.drop 4 line else line) arr.

Definition str_to_obj (line : string) : result sdict :=
  match Py.split_ws (Py.strip line) with
  | [] => raise unpack_error
  | key :: rest => ret [(key, Py.join " " rest)]
  end.

(** True if the string contains the header of an ltm/gtm/pem rule. *)
Definition is_rule (s : string) : bool :=
  existsb (fun rule => Py.contains rule s) ["ltm rule"; "gtm rule"; "pem irule"].

(* ================================================================== *)
(** ** [orchestrate]: one root object's lines to a key and its value *)
(* ================================================================== *)

Definition missing_brace_error (line : string) : exn :=
  ValueError ("Missing or mis-indented '}' for line: '" ++ line ++ "'").

Definition unclosed_quote_error (line : string) : exn :=
  ValueError ("Unclosed quote in multiline string starting at: '" ++ line ++ "'").

Definition no_update_error (type_name : string) : exn :=
  AttributeError ("'" ++ type_name ++ "' object has no attribute 'update'").

(** The line holds an odd number of double quotes. *)
Definition odd_quotes (line : string) : bool := Nat.odd (Py.count "034" line).

(** [next((j for j, l in enumerate(arr[i:], start=i) if l == '    }'), None)] *)
Fixpoint next_index (p : string -> bool) (l : list (nat * string)) : option nat :=
  match l with
  | [] => None
  | (j, x) :: l' => if p x then Some j else next_index p l'
  end.

(** The scan for the line that closes a multi-line string: a [for] loop
    over [enumerate(arr[i:])] that sets [c = j + i] at every line [l] with
    an odd number of double quotes.  It starts at the opening line itself
    and has no [break]. *)
Definition quote_scan (arr : list string) (i : nat) (c : option nat) : option nat :=
  fold_left (fun c jl => if odd_quotes (snd jl) then Some (fst jl + i) else c)
            (Py.enumerate 0 (skipn i arr)) c.

(** [obj.setdefault('user-defined', {}).update(d)] *)
Definition update_user_defined (obj : dict) (d : result sdict) : result dict :=
  let current := match dict_get "user-defined" obj with
                 | Some v => v
                 | None => Obj []
                 end in
  match current with
  | Obj sub =>
      d <- d ;; ret (dict_set "user-defined" (Obj (dict_update sub (of_sdict d))) obj)
  | Str _ => raise (no_update_error "str")
  | Arr _ => raise (no_update_error "list")
  end.

Section Body.
(** The recursive call [self.orchestrate], the title of the object being
    built, and its body lines. *)
Variable self_orchestrate : list string -> result dict.
Variable key : string.
Variable arr : list string.

(** One pass of [while i < len(arr)] per unit of [fuel]; [i] grows at every
    pass, so [length arr] passes are enough.  [c] is the local variable
    of that name, [None] as long as it holds no index. *)
Fixpoint body_loop (fuel : nat) (i : nat) (c : option nat) (obj : dict)
  : result dict :=
  match fuel with
  | O => ret obj
  | S fuel' =>
      match nth_error arr i with
      | None => ret obj
      | Some line =>
          (* nested object *)
          if Py.endswith "{" line && negb (length arr =? 1)%nat then
            match next_index (fun l => (l =? "    }")%string)
                             (Py.enumerate i (skipn i arr)) with
            | None => raise (missing_brace_error line)
            | Some c =>
                let sub_obj_arr := remove_indent (Py.lslice i (c + 1) arr) in
                let coerce_arr :=
                  map (fun jl => if (snd jl =? "    {")%string
                                 then Py.str_of_nat (fst jl) ++ " " ++ snd jl
                                 else snd jl)
                      (Py.enumerate 0 sub_obj_arr) in
                d <- self_orchestrate coerce_arr ;;
                body_loop fuel' (c + 1) (Some c) (dict_update obj d)
            end
          (* empty object *)
          else if Py.endswith "{ }" (Py.strip line) then
            body_loop fuel' (i + 1) c
              (dict_set (Py.strip (nth 0 (Py.split "{" line) "")) (Obj []) obj)
          (* pseudo-array *)
          else if Py.contains "{" line && Py.contains "}" line
                  && negb (Py.contains dq line) then
            a <- obj_to_arr line ;;
            body_loop fuel' (i + 1) c
              (dict_set (Py.strip (nth 0 (Py.split "{" line) "")) (Arr a) obj)
          (* single-string property *)
          else if ((Py.count " " (Py.strip line) =? 0)%nat
                   || Re.matches quoted_line_re (Py.strip line))
                  && negb (Py.contains "}" line) then
            body_loop fuel' (i + 1) c (dict_set (Py.strip line) (Str "") obj)
          (* string property on this indentation level *)
          else if (count_indent line =? 4)%nat then
            if odd_quotes line then
              match quote_scan arr i c with
              | None => raise (unclosed_quote_error line)
              | Some c =>
                  let chunk := Py.lslice i (c + 1) arr in
                  d <- arr_to_multiline_str chunk ;;
                  body_loop fuel' (c + 1) (Some c) (dict_update obj (of_sdict d))
              end
            else
              tmp <- str_to_obj (Py.strip line) ;;
              match Py.startswith "gtm monitor external" key,
                    dict_get "user-defined" tmp with
              | true, Some v =>
                  obj <- update_user_defined obj (str_to_obj v) ;;
                  body_loop fuel' (i + 1) c obj
              | _, _ => body_loop fuel' (i + 1) c (dict_update obj (of_sdict tmp))
              end
          (* anything else is printed as unexpected and skipped *)
          else body_loop fuel' (i + 1) c obj
      end
  end.
End Body.

(** The exception of an interpreter that allows no further activation.  The
    text is the one CPython gives when the call of a Python function goes
    beyond the limit; when the limit is met elsewhere CPython appends the
    place to it. *)
Definition recursion_error : exn := RecursionError "maximum recursion depth exceeded".

(** [orchestrate] run by an interpreter that allows [depth] nested
    activations of it: every call takes one, the recursive call of line 114
    is made with those that are left, and a call made when none is left
    raises [RecursionError]. *)
Fixpoint orchestrate_rec (depth : nat) (arr : list string) : result dict :=
  match depth with
  | O => raise recursion_error
  | S depth' =>
      match arr with
      | [] => raise index_error
      | arr0 :: _ =>
          let key := get_title arr0 in
          if (length arr <=? 1)%nat then ret [(key, Obj [])]
          else
            (* remove opening and closing brackets *)
            let arr := Py.lslice 1 (length arr - 1) arr in
            if is_rule key then ret [(key, Str (Py.join nl arr))]
            else if Py.contains "monitor min" key then
              ret [(key, Arr (Py.split_ws (Py.join " " (map Py.strip arr))))]
            else if Py.contains "cli script" key
                    || Py.contains "sys crypto cert-order-manager" key then
              ret [(key, Obj [])]
            else
              obj <- body_loop (orchestrate_rec depth') key arr (length arr) 0 None [] ;;
              ret [(key, Obj obj)]
      end
  end.

(** [orchestrate] when the interpreter's limit is not reached.  A nested
    object is a proper part of its parent's lines, so the nesting of a group
    stays below its length plus one: with that many activations no call is
    refused, and with more the result is the same ([orchestrate_any_depth]).
    Under a smaller limit the code is [orchestrate_rec], which returns what
    [orchestrate] returns or raises [RecursionError]
    ([orchestrate_limit]). *)
Definition orchestrate (arr : list string) : result dict :=
  orchestrate_rec (S (length arr)) arr.

(* ================================================================== *)
(** ** [group_objects]: the lines of each root-level object *)
(* ================================================================== *)

(** What a scanned line adds to [bracket_count]: the braces left once
    escaped quotes and then quoted parts are taken out of the trimmed line. *)
Definition bracket_delta (line : string) : Z :=
  let updated_line := Re.remove escaped_quote_re (Py.strip line) in
  let updated_line := Re.remove quoted_re updated_line in
  (Z.of_nat (Py.count "{" updated_line) - Z.of_nat (Py.count "}" updated_line))%Z.

(** The lines a rule's scan does not count. *)
Definition uncounted (line : string) : bool :=
  Py.startswith "#" (Py.strip line) || Py.startswith "set" (Py.strip line)
  || Py.startswith "STREAM" (Py.strip line).

(** The inner [while bracket_count != 0] loop.  [ahead] holds the lines after
    [arr[i + c]], so that its head is the line the next pass reads after
    [c += 1]; reading past the last line is Python's [IndexError]. *)
Fixpoint close_scan (rule_flag : bool) (ahead : list string)
         (bracket_count : Z) (c : nat) : result nat :=
  match ahead with
  | [] => raise index_error
  | line :: ahead' =>
      let c := c + 1 in
      let bracket_count :=
        if negb (uncounted line && rule_flag)
        then (bracket_count + bracket_delta line)%Z
        else bracket_count in
      (* abort if run into next rule *)
      if is_rule line then ret (c - 1)
      else if (bracket_count =? 0)%Z then ret c
      else close_scan rule_flag ahead' bracket_count c
  end.

(** One pass of [while i < len(arr)] per unit of [fuel]. *)
Fixpoint group_loop (fuel : nat) (arr : list string) (i : nat)
         (group : list (list string)) : result (list (list string)) :=
  match fuel with
  | O => ret group
  | S fuel' =>
      match nth_error arr i with
      | None => ret group
      | Some current_line =>
          (* empty object or pseudo-array *)
          if Py.contains "{" current_line && Py.contains "}" current_line
             && negb (Py.startswith " " current_line) then
            group_loop fuel' arr (i + 1) (group ++ [[current_line]])%list
          else if Py.endswith "{" (Py.strip current_line)
                  && negb (Py.startswith " " current_line) then
            c <- close_scan (is_rule current_line) (skipn (i + 1) arr) 1 0 ;;
            group_loop fuel' arr (i + c + 1)
                       (group ++ [Py.lslice i (i + c + 1) arr])%list
          else group_loop fuel' arr (i + 1) group
      end
  end.

Definition group_objects (arr : list string) : result (list (list string)) :=
  group_loop (length arr) arr 0 [].

(* ================================================================== *)
(** ** [parse_files]: preprocessing and assembly *)
(* ================================================================== *)

(** The instance fields set by [__init__]. *)
Record parser := Parser {
  topology_arr : list string;
  topology_count : nat;
  longest_match_enabled : bool
}.

Definition new_parser : parser := Parser [] 0 false.

Definition set_topology_arr (self : parser) (v : list string) : parser :=
  Parser v (topology_count self) (longest_match_enabled self).
Definition set_topology_count (self : parser) (v : nat) : parser :=
  Parser (topology_arr self) v (longest_match_enabled self).
Definition set_longest_match_enabled (self : parser) (v : bool) : parser :=
  Parser (topology_arr self) (topology_count self) v.

(** The parser object together with the locals of the loop over the lines
    of one file. *)
Record line_state := LineState {
  self_of : parser;
  new_file_arr : list string;
  in_topology : bool;
  irule : Z
}.

(** Comment marking and rule-depth tracking: the line as the rest of the
    pass sees it, and the new [irule]. *)
Definition mark_line (irule : Z) (line : string) : string * Z :=
  if (irule =? 0)%Z then
    if Py.startswith "# " (Py.strip line)
    then (Py.replace "# " "#comment# " (Py.strip line), irule)
    else if is_rule line then (line, (irule + 1)%Z)
    else (line, irule)
  else if negb (Py.startswith "#" (Py.strip line))
  then (line, (irule + (Z.of_nat (Py.count "{" line) - Z.of_nat (Py.count "}" line)))%Z)
  else (line, irule).

Definition substring_not_found : exn := ValueError "substring not found".

(** The body of [for line in file_arr]. *)
Definition read_line (st : line_state) (line : string) : result line_state :=
  let (line, irule) := mark_line (irule st) line in
  let self := self_of st in
  if Py.contains "topology-longest-match" line && Py.contains "yes" line then
    ret (LineState (set_longest_match_enabled self true)
                   (new_file_arr st) (in_topology st) irule)
  else if Py.startswith "gtm topology ldns:" line then
    let self :=
      match topology_arr self with
      | [] => set_topology_arr self
                (topology_arr self
                 ++ ["gtm topology /Common/Shared/topology {"; "    records {"])%list
      | _ => self
      end in
    match Py.find "ldns:" line, Py.find "server:" line, Py.find "{" line with
    | Some ldns_index, Some server_index, Some bracket_index =>
        let ldns := Py.strip (Py.slice (ldns_index + 5) server_index line) in
        let server := Py.strip (Py.slice (server_index + 7) bracket_index line) in
        let self :=
          set_topology_arr self
            (topology_arr self
             ++ [("        topology_" ++ Py.str_of_nat (topology_count self) ++ " {")%string;
                 ("            source " ++ ldns)%string;
                 ("            destination " ++ server)%string])%list in
        let self := set_topology_count self (topology_count self + 1) in
        ret (LineState self (new_file_arr st) true irule)
    | _, _, _ => raise substring_not_found
    end
  else if in_topology st then
    if (line =? "}")%string then
      ret (LineState (set_topology_arr self (topology_arr self ++ ["        }"])%list)
                     (new_file_arr st) false irule)
    else
      ret (LineState (set_topology_arr self (topology_arr self ++ [("        " ++ line)%string])%list)
                     (new_file_arr st) true irule)
  else
    ret (LineState self (new_file_arr st ++ [line])%list (in_topology st) irule).

(** A [for] loop whose body may raise. *)
Fixpoint for_each {S A} (body : S -> A -> result S) (l : list A) (s : S) : result S :=
  match l with
  | [] => ret s
  | x :: l' => s' <- body s x ;; for_each body l' s'
  end.

(** A list comprehension whose element expression may raise. *)
Fixpoint map_result {A B} (f : A -> result B) (l : list A) : result (list B) :=
  match l with
  | [] => ret []
  | x :: l' => y <- f x ;; ys <- map_result f l' ;; ret (y :: ys)
  end.

(** The final filter: no empty line, no marked comment. *)
Definition kept (line : string) : bool :=
  negb (line =? "")%string && negb (Py.startswith "#comment# " (Py.strip line)).

(** Lines 215 to 270 of the source: from the text of one file to the
    filtered lines, the topology block last. *)
Definition preprocess (self : parser) (value : string) : result (parser * list string) :=
  let file_arr := Py.split "010" (Py.replace (cr ++ nl) nl value) in
  let self := set_topology_arr self [] in
  let self := set_topology_count self 0 in
  let self := set_longest_match_enabled self false in
  st <- for_each read_line file_arr (LineState self [] false 0%Z) ;;
  let self := self_of st in
  let self :=
    match topology_arr self with
    | [] => self
    | _ => set_topology_arr self
             (topology_arr self
              ++ [("        longest-match-enabled "
                     ++ Py.lower_str_of_bool (longest_match_enabled self))%string;
                  "    }"; "}"])%list
    end in
  let file_arr := (new_file_arr st ++ topology_arr self)%list in
  ret (self, filter kept file_arr).

(** The dictionary comprehension [{k: v for d in group_arr for k, v in d.items()}]. *)
Definition merge_groups (group_arr : list dict) : dict :=
  fold_left (fun acc d => dict_update acc d) group_arr [].

(** One pass of [for key, value in files.items()] for a file that is not
    skipped: the parser object after it and the root objects of the file. *)
Definition parse_file (self : parser) (value : string) : result (parser * dict) :=
  p <- preprocess self value ;;
  groups <- group_objects (snd p) ;;
  group_arr <- map_result orchestrate groups ;;
  ret (fst p, merge_groups group_arr).

(** Do not parse certs, keys or license. *)
Definition skipped (key : string) : bool :=
  existsb (fun x => Py.contains x key) ["Common_d"; "bigip_script.conf"; ".license"].

(** The loop over [files.items()], a mapping given in iteration order. *)
Fixpoint parse_loop (self : parser) (data : dict) (files : list (string * string))
  : result (parser * dict) :=
  match files with
  | [] => ret (self, data)
  | (key, value) :: files' =>
      if skipped key then parse_loop self data files'
      else
        p <- parse_file self value ;;
        parse_loop (fst p) (dict_update data (snd p)) files'
  end.

Definition error_prefix : string :=
  "Error parsing input file. Error as following error:" ++ nl.

(** [parse_files]: the [try] block, and the [except] clause that wraps any
    exception. *)
Definition parse_files (self : parser) (files : list (string * string)) : result dict :=
  match parse_loop self [] files with
  | inr p => ret (snd p)
  | inl e => raise (Exception (error_prefix ++ str_exn e))
  end.

(* ================================================================== *)
(** ** Notions used in the statements *)
(* ================================================================== *)

(** The text of a file, from its lines. *)
Definition text_of (lines : list string) : string := Py.join nl lines.

(** The root objects one file contributes when a fresh parser reads it. *)
Definition file_objects (value : string) : result dict :=
  p <- parse_file new_parser value ;; ret (snd p).

(** A file goes through the three stages without an exception. *)
Definition file_passes (value : string) : Prop :=
  exists self lines groups group_arr,
    preprocess new_parser value = inr (self, lines)
    /\ group_objects lines = inr groups
    /\ map_result orchestrate groups = inr group_arr.

(** A stage raises on the file: preprocessing, grouping, or the building of
    one of its groups. *)
Definition file_fails (value : string) : Prop :=
  (exists e, preprocess new_parser value = inl e)
  \/ (exists self lines e,
        preprocess new_parser value = inr (self, lines)
        /\ group_objects lines = inl e)
  \/ (exists self lines groups g e,
        preprocess new_parser value = inr (self, lines)
        /\ group_objects lines = inr groups
        /\ In g groups /\ orchestrate g = inl e).

(** The file is skipped, or [parse_file] returns for it. *)
Definition file_accepted (file : string * string) : Prop :=
  skipped (fst file) = true \/ exists d, file_objects (snd file) = inr d.

(** The file is parsed and gives a root object [name], with value [v]. *)
Definition defines (file : string * string) (name : string) (v : value) : Prop :=
  skipped (fst file) = false
  /\ exists d, file_objects (snd file) = inr d /\ dict_get name d = Some v.

(** The file is skipped, or it is parsed and gives no root object [name]. *)
Definition silent_on (name : string) (file : string * string) : Prop :=
  skipped (fst file) = true
  \/ exists d, file_objects (snd file) = inr d /\ dict_get name d = None.

(** The keys of a dictionary. *)
Definition keys {V} (d : list (string * V)) : list string := map fst d.

(** The exceptions that the building of an object raises. *)
Definition builder_error (e : exn) : Prop :=
  (exists line, e = missing_brace_error line)
  \/ e = index_error \/ e = unpack_error
  \/ e = no_update_error "str" \/ e = no_update_error "list".

(** A column-0 object header: a line that does not start with a space and
    either holds both braces or ends, once trimmed, with an opening brace. *)
Definition is_root_header (line : string) : bool :=
  negb (Py.startswith " " line)
  && ((Py.contains "{" line && Py.contains "}" line)
      || Py.endswith "{" (Py.strip line)).

(** The lines after a header that the scan of the grouping reads up to the
    last one, entered at [depth]: [is_rule] holds of no line, no line is a
    column-0 header, and [bracket_count] stays positive on every line but
    the last, where it reaches zero.  This is the scan's own reading of the
    lines; what it means for the text is in [Grammar] below. *)
Fixpoint closes_at_last (depth : Z) (lines : list string) : bool :=
  match lines with
  | [] => false
  | line :: rest =>
      negb (is_rule line) && negb (is_root_header line)
      && match rest with
         | [] => (depth + bracket_delta line =? 0)%Z
         | _ => (0 <? depth + bracket_delta line)%Z
                && closes_at_last (depth + bracket_delta line)%Z rest
         end
  end.

(** The lines that the grouping takes as one group: one line at column 0
    with both braces, or a column-0 header that ends with an opening brace,
    has no closing brace and is no rule for [is_rule], followed by lines
    that the scan reads up to the last one. *)
Definition well_formed_object (block : list string) : bool :=
  match block with
  | [] => false
  | [line] =>
      Py.contains "{" line && Py.contains "}" line && negb (Py.startswith " " line)
  | header :: rest =>
      negb (Py.startswith " " header) && Py.endswith "{" (Py.strip header)
      && negb (Py.contains "}" header) && negb (is_rule header)
      && closes_at_last 1 rest
  end.

(** *** Concrete inputs *)

Definition topology_one_line : list string :=
  ["gtm topology ldns: net1 server: net2 { }";
   "gtm topology ldns: net1 server: net2 { }";
   "topology-longest-match yes"].

(** The same three lines, in their other two orders. *)
Definition topology_one_line_flag_first : list string :=
  ["topology-longest-match yes";
   "gtm topology ldns: net1 server: net2 { }";
   "gtm topology ldns: net1 server: net2 { }"].

Definition topology_one_line_flag_between : list string :=
  ["gtm topology ldns: net1 server: net2 { }";
   "topology-longest-match yes";
   "gtm topology ldns: net1 server: net2 { }"].

Definition topology_closed : list string :=
  ["gtm topology ldns: net1 server: net2 {"; "}";
   "gtm topology ldns: net1 server: net2 {"; "}";
   "topology-longest-match yes"].

Definition topology_document : dict :=
  [("gtm topology /Common/Shared/topology",
    Obj [("records",
          Obj [("topology_0", Obj [("source", Str "net1"); ("destination", Str "net2")]);
               ("topology_1", Obj [("source", Str "net1"); ("destination", Str "net2")]);
               ("longest-match-enabled", Str "true")])])].


Definition two_multiline_strings : list string :=
  ["ltm node n {";
   "    description " ++ dq ++ "first";
   "    part" ++ dq;
   "    comment " ++ dq ++ "second";
   "    part" ++ dq;
   "}"].

Definition never_closed_string : list string :=
  ["ltm node n {";
   "    description " ++ dq ++ "never closed";
   "    address 10.0.0.1";
   "}"].

Definition unclosed_root : list string :=
  ["ltm pool p {"; "    members {"; "    }"].

Definition misindented_close : list string :=
  ["ltm pool p {"; "    members {"; "        /Common/a:80"; "  }"; "}"].

Definition pool_with_array : list string :=
  ["ltm pool p {"; "    foo { a b c }"; "}"].

Definition two_pools : list string :=
  ["ltm pool a {"; "    members {"; "        m1 {"; "            address 1.1.1.1";
   "        }"; "    }"; "}"; "ltm pool b { }"].

Definition first_file : string := text_of ["ltm pool p {"; "    monitor http"; "}"].
Definition second_file : string := text_of ["ltm pool p {"; "    monitor tcp"; "}"].

(** *** Notions for the further properties *)

(** The files that [parse_files] reads. *)
Definition parsed_files (files : list (string * string)) : list (string * string) :=
  filter (fun file => negb (skipped (fst file))) files.

(** A column-0 line that opens an object over several lines: the second
    branch of [group_objects]. *)
Definition opens_object (line : string) : bool :=
  negb (Py.contains "{" line && Py.contains "}" line && negb (Py.startswith " " line))
  && Py.endswith "{" (Py.strip line) && negb (Py.startswith " " line).

(** A line that is no rule header and closes no more braces than it opens. *)
Definition keeps_open (line : string) : bool :=
  negb (is_rule line) && (0 <=? bracket_delta line)%Z.

(** A string without whitespace. *)
Fixpoint solid (s : string) : bool :=
  match s with
  | EmptyString => true
  | String c s' => negb (Py.isspace c) && solid s'
  end.

(** A string of whitespace only. *)
Fixpoint blank (s : string) : bool :=
  match s with
  | EmptyString => true
  | String c s' => Py.isspace c && blank s'
  end.

(** A token: what [split()] returns, not empty and without whitespace. *)
Definition token (s : string) : Prop := solid s = true /\ s <> "".

(** The exceptions of the builder that a caller can meet: the closing line
    of a nested object is missing, or [update] is called on what is not a
    dictionary. *)
Definition structural_error (e : exn) : Prop :=
  (exists line, e = missing_brace_error line)
  \/ e = no_update_error "str" \/ e = no_update_error "list".

(** The exceptions that the parsing of one file can raise: a topology
    directive without [server:] or opening brace, a root object that is not
    closed, or a structural error of the builder. *)
Definition file_error (e : exn) : Prop :=
  e = ValueError "substring not found"
  \/ e = IndexError "list index out of range"
  \/ structural_error e.

(** The lines of a file, as [parse_files] splits its text. *)
Definition file_lines (value : string) : list string :=
  Py.split "010" (Py.replace (cr ++ nl) nl value).

(** A line that is no rule header, no topology directive and does not set
    the longest-match flag. *)
Definition plain_line (line : string) : bool :=
  negb (is_rule line) && negb (Py.startswith "gtm topology ldns:" line)
  && negb (Py.contains "topology-longest-match" line && Py.contains "yes" line).

(** A comment line, as the preprocessing recognises it outside rules. *)
Definition comment_line (line : string) : bool := Py.startswith "# " (Py.strip line).

(** The two lines that open the synthesized topology object and the three
    that close it. *)
Definition topology_opening : list string :=
  ["gtm topology /Common/Shared/topology {"; "    records {"].

Definition topology_closing (flag : bool) : list string :=
  ["        longest-match-enabled " ++ Py.lower_str_of_bool flag; "    }"; "}"].

(** The test by which [BigIPConfigExtractor] chooses the members of the
    archive to extract, and the name each is extracted under: a member
    directly in [config/], with the directory taken off its name, when that
    name ends with [.conf].  (The extraction itself, a write to the disk, is
    not modelled.) *)
Definition extracted_name (member_name : string) : option string :=
  if Py.startswith "config/" member_name
     && negb (Py.contains "/" (Py.drop (String.length "config/") member_name))
  then
    let name := Py.drop (String.length "config/") member_name in
    if Py.endswith ".conf" name then Some name else None
  else None.

(** One more level of indentation. *)
Definition indent (line : string) : string := "    " ++ line.

(** A file with one topology directive, and the parser and lines that its
    preprocessing leaves. *)
Definition one_directive : string :=
  text_of ["gtm topology ldns: net1 server: net2 {"; "}"].

Definition one_directive_parser : parser :=
  Parser (topology_opening
            ++ ["        topology_0 {"; "            source net1";
                "            destination net2"; "        }"]
            ++ topology_closing false)%list 1 false.

(** A simple property line: no brace, no double quote, four columns of
    indentation, and a space inside once trimmed. *)
Definition simple_property (line : string) : bool :=
  negb (Py.contains "{" line) && negb (Py.contains "}" line)
  && negb (Py.contains dq line)
  && (count_indent line =? 4)%nat
  && negb (Py.count " " (Py.strip line) =? 0)%nat.

(** Its key, the first token, and its value, the other tokens joined by
    single spaces. *)
Definition property_key (line : string) : string := hd "" (Py.split_ws line).

Definition property_value (line : string) : string :=
  Py.join " " (tl (Py.split_ws line)).

(** [obj[key] = value] for each of the lines in turn. *)
Definition set_properties (obj : dict) (lines : list string) : dict :=
  fold_left (fun obj line => dict_set (property_key line) (Str (property_value line)) obj)
            lines obj.

(** The lines of an object, one level further in: its header and body
    indented, and the closing brace at that level. *)
Definition nested_lines (header : string) (body : list string) : list string :=
  (indent header :: map indent body ++ ["    }"])%list.

(* ================================================================== *)
(** ** The grammar of the input, in its own terms *)
(* ================================================================== *)

(** What the statements say about the input is written here without the
    functions of the parser: the strings and braces of a line are read
    character by character. *)
Module Grammar.

(** The texts that mark a rule. *)
Definition rule_markers : list string := ["ltm rule"; "gtm rule"; "pem irule"].

(** No rule marker anywhere in the line. *)
Definition marker_free (line : string) : bool :=
  forallb (fun marker => negb (Py.contains marker line)) rule_markers.

(** Reading one character: a double quote opens a string or closes the open
    one; inside a string nothing counts; outside, an opening brace adds one
    to the depth and a closing brace takes one away. *)
Definition step (in_string : bool) (depth : Z) (c : ascii) : bool * Z :=
  if (c =? "034")%char then (negb in_string, depth)
  else if in_string then (true, depth)
  else if (c =? "{")%char then (false, (depth + 1)%Z)
  else if (c =? "}")%char then (false, (depth - 1)%Z)
  else (false, depth).

(** Reading a text from left to right.  A backslash followed by a double
    quote is an escaped quote: it neither opens nor closes a string. *)
Fixpoint scan (in_string : bool) (depth : Z) (s : string) : bool * Z :=
  match s with
  | EmptyString => (in_string, depth)
  | String c s' =>
      match s' with
      | String c' s'' =>
          if (c =? "\")%char && (c' =? "034")%char then scan in_string depth s''
          else scan (fst (step in_string depth c)) (snd (step in_string depth c)) s'
      | EmptyString =>
          scan (fst (step in_string depth c)) (snd (step in_string depth c)) s'
      end
  end.

(** Every string of the line is closed on the line. *)
Definition closed (line : string) : bool := negb (fst (scan false 0 line)).

(** The braces of the line outside its strings, opening minus closing. *)
Definition braces (line : string) : Z := snd (scan false 0 line).

(** The lines after the header of an object entered at [depth], each with
    its strings closed and without rule marker: no line is a column-0
    header, the depth stays positive up to the last line and is zero after
    it. *)
Fixpoint closes (depth : Z) (lines : list string) : bool :=
  match lines with
  | [] => false
  | line :: rest =>
      marker_free line && closed line && negb (is_root_header line)
      && match rest with
         | [] => (depth + braces line =? 0)%Z
         | _ => (0 <? depth + braces line)%Z && closes (depth + braces line)%Z rest
         end
  end.

(** A root object: one column-0 line with both braces, or a column-0 header
    that ends with an opening brace, holds no closing brace and no rule
    marker, followed by the lines that close it. *)
Definition root_object (block : list string) : bool :=
  match block with
  | [] => false
  | [line] =>
      negb (Py.startswith " " line) && Py.contains "{" line && Py.contains "}" line
  | first :: rest =>
      negb (Py.startswith " " first) && Py.endswith "{" (Py.strip first)
      && negb (Py.contains "}" first) && marker_free first
      && closes 1 rest
  end.




End Grammar.

(** The text left when the escaped quotes are taken out, from the left. *)
Fixpoint unescape (s : string) : string :=
  match s with
  | EmptyString => EmptyString
  | String c s' =>
      match s' with
      | String c' s'' =>
          if (c =? "\")%char && (c' =? "034")%char then unescape s''
          else String c (unescape s')
      | EmptyString => String c EmptyString
      end
  end.

(** The text left when the quoted parts are taken out, from the left: a
    double quote starts a quoted part when another one follows; [in_string]
    tells that the characters read belong to a quoted part. *)
Fixpoint unquote (in_string : bool) (s : string) : string :=
  match s with
  | EmptyString => EmptyString
  | String c s' =>
      if in_string then
        if (c =? "034")%char then unquote false s' else unquote true s'
      else if (c =? "034")%char && Py.contains dq s' then unquote true s'
      else String c (unquote false s')
  end.

(** Opening minus closing braces of a text. *)
Definition brace_delta (s : string) : Z :=
  (Z.of_nat (Py.count "{" s) - Z.of_nat (Py.count "}" s))%Z.

(** Reading a text that holds no escaped quote. *)
Fixpoint scan_plain (in_string : bool) (depth : Z) (s : string) : bool * Z :=
  match s with
  | EmptyString => (in_string, depth)
  | String c s' =>
      scan_plain (fst (Grammar.step in_string depth c))
                 (snd (Grammar.step in_string depth c)) s'
  end.

(** *** Objects with a brace or a rule marker inside a string *)



(** Two objects; the first one has braces inside strings that are closed on
    their line, one of them after an escaped quote. *)
Definition pools_with_quoted_braces : list (list string) :=
  [["ltm pool a {";
    "    description " ++ dq ++ "closing } brace" ++ dq;
    "    comment " ++ dq ++ "an escaped \" ++ dq ++ " quote and {" ++ dq;
    "    members {";
    "        /Common/m1:80";
    "    }";
    "}"];
   ["ltm pool b { }"]].

(** *** The document as a sequence of bindings *)

(** The value a name has after a sequence of bindings: the value of the last
    binding of the name. *)
Fixpoint last_binding {V} (name : string) (entries : list (string * V)) : option V :=
  match entries with
  | [] => None
  | (k, v) :: rest =>
      match last_binding name rest with
      | Some v' => Some v'
      | None => if (k =? name)%string then Some v else None
      end
  end.

(** The root objects of a file, one entry (title and value) for each group
    in the order of the groups: preprocessing and grouping return and every
    group is built. *)
Definition file_entries (text : string) (entries : list (string * value)) : Prop :=
  exists self lines groups,
    preprocess new_parser text = inr (self, lines)
    /\ group_objects lines = inr groups
    /\ Forall2 (fun g entry => orchestrate g = inr [entry]) groups entries.

(** The exception of a file: that of its preprocessing, of its grouping, or
    of the first of its groups that cannot be built. *)
Definition file_raises (value : string) (e : exn) : Prop :=
  preprocess new_parser value = inl e
  \/ (exists self lines,
        preprocess new_parser value = inr (self, lines)
        /\ group_objects lines = inl e)
  \/ (exists self lines built g rest entries,
        preprocess new_parser value = inr (self, lines)
        /\ group_objects lines = inr (built ++ g :: rest)%list
        /\ Forall2 (fun g entry => orchestrate g = inr [entry]) built entries
        /\ orchestrate g = inl e).

(** *** The interpreter's recursion limit *)

(** The code run by an interpreter that allows [limit] nested activations of
    [orchestrate]: the list comprehension of line 272 calls
    [orchestrate_rec limit]. *)
Definition parse_file_within (limit : nat) (self : parser) (value : string)
  : result (parser * dict) :=
  p <- preprocess self value ;;
  groups <- group_objects (snd p) ;;
  group_arr <- map_result (orchestrate_rec limit) groups ;;
  ret (fst p, merge_groups group_arr).

Fixpoint parse_loop_within (limit : nat) (self : parser) (data : dict)
         (files : list (string * string)) : result (parser * dict) :=
  match files with
  | [] => ret (self, data)
  | (key, value) :: files' =>
      if skipped key then parse_loop_within limit self data files'
      else
        p <- parse_file_within limit self value ;;
        parse_loop_within limit (fst p) (dict_update data (snd p)) files'
  end.

Definition parse_files_within (limit : nat) (self : parser) (files : list (string * string))
  : result dict :=
  match parse_loop_within limit self [] files with
  | inr p => ret (snd p)
  | inl e => raise (Exception (error_prefix ++ str_exn e))
  end.

(** A batch of three files, the second of which is skipped; the other two
    define the same pool, and the last one a node as well. *)
Definition three_files : list (string * string) :=
  [("bigip_base.conf", first_file);
   ("bigip.license", "not parsed {");
   ("bigip.conf", text_of ["ltm pool p {"; "    monitor tcp"; "}"; "ltm node n { }"])].

(** *** A rule in a file *)













(* ================================================================== *)
(** ** The synthesized topology object (C1) *)
(* ================================================================== *)

(** With both directives written on one line, braces included, no line
    equal to a closing brace ever ends a directive: the two records stay
    open, the grouping scan runs past the last line, and [parse_files]
    raises, wherever the line that sets the flag stands. *)
Lemma topology_one_line_raises :
  parse_files new_parser [("bigip_gtm.conf", text_of topology_one_line)]
  = inl (Exception (error_prefix ++ "list index out of range"))
  /\ parse_files new_parser [("bigip_gtm.conf", text_of topology_one_line_flag_first)]
     = inl (Exception (error_prefix ++ "list index out of range"))
  /\ parse_files new_parser [("bigip_gtm.conf", text_of topology_one_line_flag_between)]
     = inl (Exception (error_prefix ++ "list index out of range")).
Proof. repeat split; vm_compute; reflexivity. Qed.

(** C1, amended: when each of the two directives is a header line ending
    with an opening brace followed by a closing-brace line, and one line
    sets [topology-longest-match yes], the document returned by
    [parse_files], whatever the parser held before, maps
    [gtm topology /Common/Shared/topology] to an object whose [records]
    holds [topology_0] and [topology_1], each with [source net1] and
    [destination net2], and [longest-match-enabled] equal to the string
    [true]. *)
Theorem topology_closed_document (self : parser) :
  parse_files self [("bigip_gtm.conf", text_of topology_closed)]
  = inr topology_document.
Proof. vm_compute. reflexivity. Qed.

(* ================================================================== *)
(** ** Multi-line quoted strings (C4, C5) *)
(* ================================================================== *)

(** C4 at an input with two multi-line strings: the first one is not closed
    by the next line with an odd number of quotes but by the last such line
    of the object, and swallows the second property. *)
Theorem two_multiline_strings_merged :
  orchestrate two_multiline_strings
  = inr [("ltm node n",
          Obj [("description",
                Str (dq ++ "first" ++ nl ++ "    part" ++ dq ++ nl
                     ++ "    comment " ++ dq ++ "second" ++ nl
                     ++ "    part" ++ dq))])].
Proof. vm_compute. reflexivity. Qed.

(** C5 at an input whose string never closes: no exception, the opening
    line alone becomes the value and the parse goes on. *)
Theorem never_closed_string_accepted :
  orchestrate never_closed_string
  = inr [("ltm node n",
          Obj [("description", Str (dq ++ "never closed"));
               ("address", Str "10.0.0.1")])].
Proof. vm_compute. reflexivity. Qed.

(* ================================================================== *)
(** ** Missing closing braces (C6) *)
(* ================================================================== *)

(** C6 at a root object that is never closed: the error that reaches the
    caller is the wrapped [IndexError] of the grouping scan; its message
    does not name the header. *)
Theorem unclosed_root_error :
  parse_files new_parser [("bigip.conf", text_of unclosed_root)]
  = inl (Exception (error_prefix ++ "list index out of range"))
  /\ Py.contains "ltm pool p"
       (str_exn (Exception (error_prefix ++ "list index out of range"))) = false.
Proof. split; vm_compute; reflexivity. Qed.

(* ================================================================== *)
(** ** Pseudo-arrays (C8) *)
(* ================================================================== *)

(** One pass of the loop of [orchestrate], unfolded. *)
Lemma body_loop_pass rec key arr fuel i c obj line :
  nth_error arr i = Some line ->
  body_loop rec key arr (S fuel) i c obj
  = if Py.endswith "{" line && negb (length arr =? 1)%nat then
      match next_index (fun l => (l =? "    }")%string)
                       (Py.enumerate i (skipn i arr)) with
      | None => raise (missing_brace_error line)
      | Some c =>
          let sub_obj_arr := remove_indent (Py.lslice i (c + 1) arr) in
          let coerce_arr :=
            map (fun jl => if (snd jl =? "    {")%string
                           then Py.str_of_nat (fst jl) ++ " " ++ snd jl
                           else snd jl)
                (Py.enumerate 0 sub_obj_arr) in
          d <- rec coerce_arr ;;
          body_loop rec key arr fuel (c + 1) (Some c) (dict_update obj d)
      end
    else if Py.endswith "{ }" (Py.strip line) then
      body_loop rec key arr fuel (i + 1) c
        (dict_set (Py.strip (nth 0 (Py.split "{" line) "")) (Obj []) obj)
    else if Py.contains "{" line && Py.contains "}" line
            && negb (Py.contains dq line) then
      a <- obj_to_arr line ;;
      body_loop rec key arr fuel (i + 1) c
        (dict_set (Py.strip (nth 0 (Py.split "{" line) "")) (Arr a) obj)
    else if ((Py.count " " (Py.strip line) =? 0)%nat
             || Re.matches quoted_line_re (Py.strip line))
            && negb (Py.contains "}" line) then
      body_loop rec key arr fuel (i + 1) c (dict_set (Py.strip line) (Str "") obj)
    else if (count_indent line =? 4)%nat then
      if odd_quotes line then
        match quote_scan arr i c with
        | None => raise (unclosed_quote_error line)
        | Some c =>
            let chunk := Py.lslice i (c + 1) arr in
            d <- arr_to_multiline_str chunk ;;
            body_loop rec key arr fuel (c + 1) (Some c) (dict_update obj (of_sdict d))
        end
      else
        tmp <- str_to_obj (Py.strip line) ;;
        match Py.startswith "gtm monitor external" key,
              dict_get "user-defined" tmp with
        | true, Some v =>
            obj <- update_user_defined obj (str_to_obj v) ;;
            body_loop rec key arr fuel (i + 1) c obj
        | _, _ => body_loop rec key arr fuel (i + 1) c (dict_update obj (of_sdict tmp))
        end
    else body_loop rec key arr fuel (i + 1) c obj.
Proof. intros H. cbn [body_loop]. rewrite H. reflexivity. Qed.

(** At root level the line is a group of its own, and a group of one line
    is given the empty object, under the whole line as its title. *)
Lemma pseudo_array_root_level :
  parse_files new_parser [("bigip.conf", "foo { a b c }")]
  = inr [("foo { a b c }", Obj [])]
  /\ dict_get "foo" [("foo { a b c }", Obj [])] = None.
Proof. split; vm_compute; reflexivity. Qed.

(** C8, amended: as a body line of an object, at any place of any body, the
    line [foo { a b c }] sets the key [foo] to the list of [a], [b], [c] and
    the loop goes on with the next line; as a root-level line it forms a
    group of one line, whose value is the empty object. *)
Theorem pseudo_array_line :
  (forall rec key arr fuel i c obj,
      nth_error arr i = Some "    foo { a b c }" ->
      body_loop rec key arr (S fuel) i c obj
      = body_loop rec key arr fuel (i + 1) c
          (dict_set "foo" (Arr ["a"; "b"; "c"]) obj))
  /\ orchestrate pool_with_array
     = inr [("ltm pool p", Obj [("foo", Arr ["a"; "b"; "c"])])]
  /\ group_objects ["foo { a b c }"] = inr [["foo { a b c }"]]
  /\ orchestrate ["foo { a b c }"] = inr [("foo { a b c }", Obj [])].
Proof.
  split; [| repeat split; vm_compute; reflexivity].
  intros rec key arr fuel i c obj H.
  rewrite (body_loop_pass _ _ _ _ _ _ _ _ H).
  replace (Py.endswith "{" "    foo { a b c }") with false by (vm_compute; reflexivity).
  replace (Py.endswith "{ }" (Py.strip "    foo { a b c }")) with false
    by (vm_compute; reflexivity).
  replace (Py.contains "{" "    foo { a b c }" && Py.contains "}" "    foo { a b c }"
           && negb (Py.contains dq "    foo { a b c }")) with true
    by (vm_compute; reflexivity).
  cbn [andb].
  replace (obj_to_arr "    foo { a b c }") with (@inr exn _ ["a"; "b"; "c"])
    by (vm_compute; reflexivity).
  replace (Py.strip (nth 0 (Py.split "{" "    foo { a b c }") "")) with "foo"
    by (vm_compute; reflexivity).
  reflexivity.
Qed.

Lemma pseudo_array_line_witness :
  body_loop orchestrate "ltm pool p" ["    foo { a b c }"] 1 0 None []
  = body_loop orchestrate "ltm pool p" ["    foo { a b c }"] 0 1 None
      [("foo", Arr ["a"; "b"; "c"])].
Proof.
  exact (proj1 pseudo_array_line orchestrate "ltm pool p" ["    foo { a b c }"]
               0 0 None [] eq_refl).
Defined.

(* ================================================================== *)
(** ** Lines and newlines *)
(* ================================================================== *)

Lemma firstn_length_app {A} (l l' : list A) : firstn (length l) (l ++ l')%list = l.
Proof. induction l as [| x l IH]; simpl; [destruct l' |]; congruence. Qed.

(** [arr[1:-1]] of a header, a body and a last line. *)
Lemma body_of_group (header last : string) (body : list string) :
  Py.lslice 1 (length (header :: body ++ [last])%list - 1)
            (header :: body ++ [last])%list = body.
Proof.
  unfold Py.lslice. simpl. rewrite length_app. simpl.
  replace (length body + 1 - 0 - 1) with (length body) by lia.
  apply firstn_length_app.
Qed.

Lemma contains_char_cons (c a : ascii) (s : string) :
  Py.contains (String c "") (String a s) = (c =? a)%char || Py.contains (String c "") s.
Proof.
  simpl. destruct (ascii_dec c a) as [-> | n].
  - rewrite Ascii.eqb_refl. destruct s; reflexivity.
  - apply Ascii.eqb_neq in n. rewrite n. reflexivity.
Qed.





(* ================================================================== *)
(** ** Dictionaries *)
(* ================================================================== *)

Lemma dict_get_set {V} (k k' : string) (v : V) (d : list (string * V)) :
  dict_get k (dict_set k' v d)
  = if (k' =? k)%string then Some v else dict_get k d.
Proof.
  induction d as [| [k0 v0] d IH]; simpl; [reflexivity |].
  destruct (String.eqb_spec k0 k') as [-> | Hne]; simpl.
  - destruct (k' =? k)%string; reflexivity.
  - rewrite IH. destruct (String.eqb_spec k0 k) as [-> | Hne']; [| reflexivity].
    apply String.eqb_neq in Hne. rewrite String.eqb_sym, Hne. reflexivity.
Qed.

Lemma keys_dict_set {V} (k k' : string) (v : V) (d : list (string * V)) :
  In k (keys (dict_set k' v d)) <-> k = k' \/ In k (keys d).
Proof.
  induction d as [| [k0 v0] d IH]; simpl; [intuition congruence |].
  destruct (String.eqb_spec k0 k') as [-> | Hne]; simpl; [intuition congruence |].
  rewrite IH. intuition congruence.
Qed.

Lemma dict_set_nodup {V} (k : string) (v : V) (d : list (string * V)) :
  NoDup (keys d) -> NoDup (keys (dict_set k v d)).
Proof.
  induction d as [| [k0 v0] d IH]; simpl; intros H.
  - constructor; [intros [] | constructor].
  - inversion H as [| ? ? Hnotin Hd]; subst.
    destruct (String.eqb_spec k0 k) as [-> | Hne]; simpl.
    + constructor; assumption.
    + constructor; [| apply IH; exact Hd].
      intros Hin. apply keys_dict_set in Hin as [-> | Hin]; [congruence | contradiction].
Qed.

Lemma dict_update_nodup {V} (d2 d : list (string * V)) :
  NoDup (keys d) -> NoDup (keys (dict_update d d2)).
Proof.
  revert d. induction d2 as [| [k v] d2 IH]; intros d H; [exact H |].
  apply (IH (dict_set k v d)). apply dict_set_nodup. exact H.
Qed.

Lemma dict_get_absent {V} (k : string) (d : list (string * V)) :
  ~ In k (keys d) -> dict_get k d = None.
Proof.
  induction d as [| [k0 v0] d IH]; simpl; intros H; [reflexivity |].
  destruct (String.eqb_spec k0 k) as [-> | Hne]; [tauto | apply IH; tauto].
Qed.

(** [d.update(d2)] leaves the keys that [d2] does not have. *)
Lemma dict_get_update_other {V} (k : string) (d2 d : list (string * V)) :
  dict_get k d2 = None -> dict_get k (dict_update d d2) = dict_get k d.
Proof.
  revert d. induction d2 as [| [k2 v2] d2 IH]; intros d H; [reflexivity |].
  simpl in H. destruct (String.eqb_spec k2 k) as [-> | Hne]; [discriminate |].
  change (dict_update d ((k2, v2) :: d2)) with (dict_update (dict_set k2 v2 d) d2).
  rewrite (IH _ H), dict_get_set.
  apply String.eqb_neq in Hne. rewrite Hne. reflexivity.
Qed.

(** [d.update(d2)] gives the keys of [d2] the values they have in [d2]. *)
Lemma dict_get_update_new {V} (k : string) (v : V) (d2 d : list (string * V)) :
  NoDup (keys d2) -> dict_get k d2 = Some v ->
  dict_get k (dict_update d d2) = Some v.
Proof.
  revert d. induction d2 as [| [k2 v2] d2 IH]; intros d Hnd H; [discriminate |].
  inversion Hnd as [| ? ? Hnotin Hnd']; subst.
  change (dict_update d ((k2, v2) :: d2)) with (dict_update (dict_set k2 v2 d) d2).
  simpl in H. destruct (String.eqb_spec k2 k) as [-> | Hne].
  - injection H as ->.
    rewrite dict_get_update_other by (apply dict_get_absent; exact Hnotin).
    rewrite dict_get_set, String.eqb_refl. reflexivity.
  - apply IH; assumption.
Qed.

Lemma merge_groups_nodup (group_arr : list dict) : NoDup (keys (merge_groups group_arr)).
Proof.
  unfold merge_groups.
  assert (H : forall acc : dict, NoDup (keys acc) ->
              NoDup (keys (fold_left (fun acc d => dict_update acc d) group_arr acc))).
  { induction group_arr as [| d l IH]; intros acc Hacc; [exact Hacc |].
    simpl. apply IH. apply dict_update_nodup. exact Hacc. }
  apply H. constructor.
Qed.

(* ================================================================== *)
(** ** The per-file state (C10) *)
(* ================================================================== *)

Lemma preprocess_fresh (self : parser) (value : string) :
  preprocess self value = preprocess new_parser value.
Proof. reflexivity. Qed.

Lemma parse_file_fresh (self : parser) (value : string) :
  parse_file self value = parse_file new_parser value.
Proof. reflexivity. Qed.

Lemma parse_loop_app (l1 l2 : list (string * string)) (self : parser) (data : dict) :
  parse_loop self data (l1 ++ l2)%list
  = p <- parse_loop self data l1 ;; parse_loop (fst p) (snd p) l2.
Proof.
  revert self data. induction l1 as [| [key value] l1 IH]; intros self data; simpl.
  - reflexivity.
  - destruct (skipped key); [apply IH |].
    destruct (parse_file self value) as [e | p]; simpl; [reflexivity | apply IH].
Qed.

(** C10: the three fields are set to the empty list, zero and false before
    the first line of a file is read, whatever they held; so what
    preprocessing and parsing make of a file is what a fresh parser makes
    of it, and in the loop over the files the objects that a file adds to
    the document do not depend on the files read before it. *)
Theorem topology_state_reset :
  (forall self,
      set_longest_match_enabled (set_topology_count (set_topology_arr self []) 0) false
      = Parser [] 0 false)
  /\ (forall self value, preprocess self value = preprocess new_parser value)
  /\ (forall self value, parse_file self value = parse_file new_parser value)
  /\ (forall self data files key value,
         parse_loop self data (files ++ [(key, value)])%list
         = p <- parse_loop self data files ;;
           if skipped key then ret p
           else q <- parse_file new_parser value ;;
                ret (fst q, dict_update (snd p) (snd q))).
Proof.
  repeat split; try reflexivity.
  intros self data files key value. rewrite parse_loop_app.
  destruct (parse_loop self data files) as [e | [self' data']]; simpl; [reflexivity |].
  destruct (skipped key); [reflexivity |].
  rewrite (parse_file_fresh self').
  destruct (parse_file new_parser value) as [e | q]; reflexivity.
Qed.

(* ================================================================== *)
(** ** The outcome of the loop over the files *)
(* ================================================================== *)

Lemma file_objects_parse_file (self : parser) (value : string) :
  parse_file self value
  = match preprocess new_parser value with
    | inl e => inl e
    | inr p =>
        match group_objects (snd p) with
        | inl e => inl e
        | inr groups =>
            match map_result orchestrate groups with
            | inl e => inl e
            | inr group_arr => inr (fst p, merge_groups group_arr)
            end
        end
    end.
Proof. reflexivity. Qed.

Lemma map_result_raises {A B} (f : A -> result B) (l : list A) (x : A) (e : exn) :
  In x l -> f x = inl e -> exists e', map_result f l = inl e'.
Proof.
  induction l as [| y l IH]; intros Hin Hx; [destruct Hin |].
  simpl. destruct Hin as [-> | Hin].
  - rewrite Hx. eexists. reflexivity.
  - destruct (f y) as [e1 | b]; simpl; [eexists; reflexivity |].
    destruct (IH Hin Hx) as [e' He']. rewrite He'. eexists. reflexivity.
Qed.

Lemma file_returns_passes (value : string) (d : dict) :
  file_objects value = inr d -> file_passes value.
Proof.
  unfold file_objects, file_passes. rewrite file_objects_parse_file.
  destruct (preprocess new_parser value) as [e | [self lines]]; [discriminate |].
  simpl. destruct (group_objects lines) as [e | groups] eqn:Hg; [discriminate |].
  destruct (map_result orchestrate groups) as [e | group_arr] eqn:Hm; [discriminate |].
  intros _. exists self, lines, groups, group_arr. auto.
Qed.

Lemma file_fails_raises (value : string) :
  file_fails value -> exists e, file_objects value = inl e.
Proof.
  unfold file_objects. rewrite file_objects_parse_file.
  intros [[e He] | [(self & lines & e & Hp & Hg) | (self & lines & groups & g & e & Hp & Hg & Hin & Ho)]].
  - rewrite He. eexists. reflexivity.
  - rewrite Hp. simpl. rewrite Hg. eexists. reflexivity.
  - rewrite Hp. simpl. rewrite Hg.
    destruct (map_result_raises _ _ _ _ Hin Ho) as [e' He']. rewrite He'.
    eexists. reflexivity.
Qed.

(** The loop over the files returns when every file it parses goes through
    the three stages, and otherwise raises what the first failing file
    raised. *)
Lemma parse_loop_outcome (files : list (string * string)) (self : parser) (data : dict) :
  (exists self' doc,
      parse_loop self data files = inr (self', doc)
      /\ Forall (fun file => skipped (fst file) = true \/ file_passes (snd file)) files)
  \/ (exists e key value,
         In (key, value) files /\ skipped key = false
         /\ file_objects value = inl e
         /\ parse_loop self data files = inl e).
Proof.
  revert self data. induction files as [| [key value] files IH]; intros self data.
  - left. exists self, data. split; [reflexivity | constructor].
  - simpl. destruct (skipped key) eqn:Hskip.
    + destruct (IH self data) as [(self' & doc & Hloop & Hall) | (e & k & v & Hin & Hk & Hv & Hloop)].
      * left. exists self', doc. split; [exact Hloop |]. constructor; auto.
      * right. exists e, k, v. auto.
    + rewrite (parse_file_fresh self).
      destruct (parse_file new_parser value) as [e | [self1 d]] eqn:Hfile; simpl.
      * right. exists e, key, value. repeat split; auto.
        unfold file_objects. rewrite Hfile. reflexivity.
      * destruct (IH self1 (dict_update data d))
          as [(self' & doc & Hloop & Hall) | (e & k & v & Hin & Hk & Hv & Hloop)].
        -- left. exists self', doc. split; [exact Hloop |]. constructor; [| exact Hall].
           right. apply (file_returns_passes value d).
           unfold file_objects. rewrite Hfile. reflexivity.
        -- right. exists e, k, v. auto.
Qed.


(* ================================================================== *)
(** ** Files that define the same root object (C9) *)
(* ================================================================== *)

Lemma parse_file_nodup (self self' : parser) (value : string) (d : dict) :
  parse_file self value = inr (self', d) -> NoDup (keys d).
Proof.
  rewrite file_objects_parse_file.
  destruct (preprocess new_parser value) as [e | p]; [discriminate |].
  destruct (group_objects (snd p)) as [e | groups]; [discriminate |].
  destruct (map_result orchestrate groups) as [e | group_arr]; [discriminate |].
  intros H. injection H as _ <-. apply merge_groups_nodup.
Qed.

Lemma file_objects_inv (self : parser) (value : string) (d : dict) :
  file_objects value = inr d ->
  exists self', parse_file self value = inr (self', d).
Proof.
  unfold file_objects. rewrite (parse_file_fresh self).
  destruct (parse_file new_parser value) as [e | [self' d']]; [discriminate |].
  simpl. intros H. injection H as ->. exists self'. reflexivity.
Qed.

(** Files that are all accepted make the loop return; a name on which they
    are all silent keeps the value it had. *)
Lemma parse_loop_accepted (files : list (string * string)) (self : parser) (data : dict) :
  Forall file_accepted files ->
  exists self' doc,
    parse_loop self data files = inr (self', doc)
    /\ forall name, Forall (silent_on name) files -> dict_get name doc = dict_get name data.
Proof.
  revert self data. induction files as [| [key value] files IH]; intros self data Hacc.
  - exists self, data. split; [reflexivity | auto].
  - inversion Hacc as [| ? ? Hfile Hrest]; subst. simpl.
    destruct (skipped key) eqn:Hskip.
    + destruct (IH self data Hrest) as (self' & doc & Hloop & Hget).
      exists self', doc. split; [exact Hloop |].
      intros name Hsilent. inversion Hsilent; subst. auto.
    + destruct Hfile as [Hs | [d Hd]]; [simpl in Hs; congruence |]. simpl in Hd.
      destruct (file_objects_inv self value d Hd) as [self1 Hfile]. rewrite Hfile. simpl.
      destruct (IH self1 (dict_update data d) Hrest) as (self' & doc & Hloop & Hget).
      exists self', doc. split; [exact Hloop |].
      intros name Hsilent. inversion Hsilent as [| ? ? Hhere Hlater]; subst.
      rewrite (Hget name Hlater).
      destruct Hhere as [Hs | (d' & Hd' & Hnone)]; [simpl in Hs; congruence |].
      simpl in Hd'. rewrite Hd in Hd'. injection Hd' as <-.
      apply dict_get_update_other. exact Hnone.
Qed.

(** C9: when two files of the mapping define a root object of the same
    name, the other files are accepted, and no file after the later of the
    two defines that name again, [parse_files] returns a document in which
    the name has the value parsed from the later file.  (A file counts when
    it is parsed: a skipped file defines nothing.) *)
Theorem later_file_wins (self : parser)
        (before between after : list (string * string))
        (earlier later : string * string) (name : string) (v1 v2 : value) :
  defines earlier name v1 ->
  defines later name v2 ->
  Forall file_accepted (before ++ between ++ after)%list ->
  Forall (silent_on name) after ->
  exists doc,
    parse_files self (before ++ earlier :: between ++ later :: after)%list = inr doc
    /\ dict_get name doc = Some v2.
Proof.
  intros (Hs1 & d1 & Hd1 & _) (Hs2 & d2 & Hd2 & Hget2) Hacc Hsilent.
  apply Forall_app in Hacc as [Hbefore Hacc]. apply Forall_app in Hacc as [Hbetween Hafter].
  assert (Hfirst : Forall file_accepted (before ++ earlier :: between)%list).
  { apply Forall_app. split; [exact Hbefore |]. constructor; [| exact Hbetween].
    right. exists d1. exact Hd1. }
  unfold parse_files.
  replace (before ++ earlier :: between ++ later :: after)%list
    with ((before ++ earlier :: between) ++ later :: after)%list
    by (rewrite <- app_assoc; reflexivity).
  rewrite parse_loop_app.
  destruct (parse_loop_accepted _ self [] Hfirst) as (self1 & doc1 & Hloop1 & _).
  rewrite Hloop1. destruct later as [key2 value2]. simpl in *. rewrite Hs2.
  destruct (file_objects_inv self1 value2 d2 Hd2) as [self2 Hfile]. rewrite Hfile. simpl.
  destruct (parse_loop_accepted _ self2 (dict_update doc1 d2) Hafter)
    as (self3 & doc & Hloop & Hget).
  rewrite Hloop. exists doc. split; [reflexivity |].
  rewrite (Hget name Hsilent).
  apply dict_get_update_new; [| exact Hget2].
  apply (parse_file_nodup _ _ _ _ Hfile).
Qed.

Lemma later_file_wins_witness :
  exists doc,
    parse_files new_parser
      ([] ++ ("bigip_base.conf", first_file)
          :: [] ++ ("bigip.conf", second_file) :: [])%list = inr doc
    /\ dict_get "ltm pool p" doc = Some (Obj [("monitor", Str "tcp")]).
Proof.
  apply (later_file_wins new_parser [] [] []
           ("bigip_base.conf", first_file) ("bigip.conf", second_file)
           "ltm pool p" (Obj [("monitor", Str "http")]) (Obj [("monitor", Str "tcp")])).
  - split; [reflexivity |]. eexists. split; vm_compute; reflexivity.
  - split; [reflexivity |]. eexists. split; vm_compute; reflexivity.
  - constructor.
  - constructor.
Defined.

(* ================================================================== *)
(** ** Strings and braces of a line *)
(* ================================================================== *)

Lemma length_append (a b : string) :
  String.length (a ++ b) = String.length a + String.length b.
Proof. induction a as [| c a IH]; simpl; [reflexivity | rewrite IH; reflexivity]. Qed.

Lemma string_ind2 (P : string -> Prop) :
  P "" -> (forall c, P (String c "")) ->
  (forall c c' s, P s -> P (String c' s) -> P (String c (String c' s))) ->
  forall s, P s.
Proof.
  intros H0 H1 H2 s.
  assert (H : P s /\ forall c, P (String c s)).
  { induction s as [| a s [IH1 IH2]]; split; auto. }
  exact (proj1 H).
Qed.

Lemma remove_from_step (p : Re.pattern) (c : ascii) (s : string) :
  Re.remove_from p 0 (String c s)
  = match Re.match_here (Re.items p) (Re.dollar p) (String c s) with
    | Some r => Re.remove_from p (String.length (String c s) - String.length r - 1) s
    | None => String c (Re.remove_from p 0 s)
    end.
Proof. reflexivity. Qed.

Lemma remove_from_skip (p : Re.pattern) (k : nat) (c : ascii) (s : string) :
  Re.remove_from p (S k) (String c s) = Re.remove_from p k s.
Proof. reflexivity. Qed.

Lemma match_escaped (c c' : ascii) (s : string) :
  Re.match_here (Re.items escaped_quote_re) (Re.dollar escaped_quote_re)
                (String c (String c' s))
  = if (c =? "\")%char && (c' =? "034")%char then Some s else None.
Proof.
  cbn. unfold Re.chr. destruct (c =? "\")%char, (c' =? "034")%char; reflexivity.
Qed.

Lemma remove_escaped (s : string) : Re.remove escaped_quote_re s = unescape s.
Proof.
  unfold Re.remove. induction s as [| c | c c' s IH1 IH2] using string_ind2.
  - reflexivity.
  - simpl. destruct (Re.chr "\" c); reflexivity.
  - rewrite remove_from_step, match_escaped. cbn [unescape].
    destruct ((c =? "\")%char && (c' =? "034")%char).
    + cbn [String.length].
      replace (S (S (String.length s)) - String.length s - 1) with 1 by lia.
      rewrite remove_from_skip. exact IH1.
    + rewrite IH2. reflexivity.
Qed.

(** Matching the rest of a quoted part, after its first double quote. *)
Lemma quoted_rest_step (c : ascii) (s : string) :
  Re.match_here [Re.Item (Re.not_chr "034") Re.Star; Re.Item (Re.chr "034") Re.One] false
                (String c s)
  = Re.orelse
      (if Re.not_chr "034" c
       then Re.match_here [Re.Item (Re.not_chr "034") Re.Star; Re.Item (Re.chr "034") Re.One]
                          false s
       else None)
      (if Re.chr "034" c then Some s else None).
Proof. reflexivity. Qed.

Lemma match_quoted_star (body r : string) :
  Py.contains dq body = false ->
  Re.match_here [Re.Item (Re.not_chr "034") Re.Star; Re.Item (Re.chr "034") Re.One] false
                (body ++ String "034" r)
  = Some r.
Proof.
  unfold dq. intros Hbody. induction body as [| c body IH].
  - reflexivity.
  - rewrite contains_char_cons in Hbody. apply orb_false_iff in Hbody as [Hc Hb].
    change (String c body ++ String "034" r) with (String c (body ++ String "034" r)).
    rewrite quoted_rest_step, (IH Hb). unfold Re.not_chr.
    rewrite Ascii.eqb_sym, Hc. reflexivity.
Qed.

Lemma match_quoted_none (s : string) :
  Py.contains dq s = false ->
  Re.match_here [Re.Item (Re.not_chr "034") Re.Star; Re.Item (Re.chr "034") Re.One] false s
  = None.
Proof.
  unfold dq. intros Hs. induction s as [| c s IH].
  - reflexivity.
  - rewrite contains_char_cons in Hs. apply orb_false_iff in Hs as [Hc Hb].
    rewrite quoted_rest_step, (IH Hb). unfold Re.not_chr, Re.chr.
    rewrite Ascii.eqb_sym, Hc. reflexivity.
Qed.

Lemma match_quoted (c : ascii) (s : string) :
  Re.match_here (Re.items quoted_re) (Re.dollar quoted_re) (String c s)
  = if (c =? "034")%char
    then Re.match_here [Re.Item (Re.not_chr "034") Re.Star; Re.Item (Re.chr "034") Re.One]
                       false s
    else None.
Proof. cbn. unfold Re.chr at 1. destruct (c =? "034")%char; reflexivity. Qed.

(** A text with a double quote, cut at the first one. *)
Lemma first_quote (s : string) :
  Py.contains dq s = true ->
  exists body r, s = body ++ String "034" r /\ Py.contains dq body = false.
Proof.
  unfold dq. induction s as [| c s IH]; intros H; [discriminate |].
  rewrite contains_char_cons in H.
  destruct ("034" =? c)%char eqn:Ec.
  - apply Ascii.eqb_eq in Ec. subst c. exists "", s. split; reflexivity.
  - simpl in H. destruct (IH H) as (body & r & -> & Hb).
    exists (String c body), r. split; [reflexivity |].
    rewrite contains_char_cons, Ec, Hb. reflexivity.
Qed.

Lemma remove_from_body (p : Re.pattern) (body r : string) :
  Re.remove_from p (S (String.length body)) (body ++ String "034" r) = Re.remove_from p 0 r.
Proof. induction body as [| c body IH]; [reflexivity | exact IH]. Qed.

Lemma unquote_body (body r : string) :
  Py.contains dq body = false ->
  unquote true (body ++ String "034" r) = unquote false r.
Proof.
  unfold dq. induction body as [| c body IH]; intros H; [reflexivity |].
  rewrite contains_char_cons in H. apply orb_false_iff in H as [Hc Hb].
  simpl. rewrite Ascii.eqb_sym, Hc. exact (IH Hb).
Qed.

Lemma remove_quoted_length (n : nat) :
  forall s, String.length s <= n -> Re.remove quoted_re s = unquote false s.
Proof.
  unfold Re.remove. induction n as [| n IH]; intros s Hlen.
  - destruct s; [reflexivity | simpl in Hlen; lia].
  - destruct s as [| c s]; [reflexivity |].
    simpl in Hlen. rewrite remove_from_step, match_quoted. cbn [unquote].
    destruct (c =? "034")%char eqn:Ec; cbn [andb].
    + destruct (Py.contains dq s) eqn:Hq.
      * destruct (first_quote s Hq) as (body & r & -> & Hb).
        rewrite (match_quoted_star body r Hb), (unquote_body body r Hb).
        cbn [String.length]. rewrite length_append. cbn [String.length].
        replace (S (String.length body + S (String.length r)) - String.length r - 1)
          with (S (String.length body)) by lia.
        rewrite remove_from_body. apply IH.
        rewrite length_append in Hlen. simpl in Hlen. lia.
      * rewrite (match_quoted_none s Hq). f_equal. apply IH. lia.
    + f_equal. apply IH. lia.
Qed.

Lemma remove_quoted (s : string) : Re.remove quoted_re s = unquote false s.
Proof. apply (remove_quoted_length (String.length s)). lia. Qed.

Lemma scan_cons2 (b : bool) (d : Z) (c c' : ascii) (s : string) :
  Grammar.scan b d (String c (String c' s))
  = if (c =? "\")%char && (c' =? "034")%char then Grammar.scan b d s
    else Grammar.scan (fst (Grammar.step b d c)) (snd (Grammar.step b d c)) (String c' s).
Proof. reflexivity. Qed.

Lemma unescape_cons2 (c c' : ascii) (s : string) :
  unescape (String c (String c' s))
  = if (c =? "\")%char && (c' =? "034")%char then unescape s
    else String c (unescape (String c' s)).
Proof. reflexivity. Qed.

Lemma scan_unescape (s : string) :
  forall b d, Grammar.scan b d s = scan_plain b d (unescape s).
Proof.
  induction s as [| c | c c' s IH1 IH2] using string_ind2; intros b d.
  - reflexivity.
  - reflexivity.
  - rewrite scan_cons2, unescape_cons2.
    destruct ((c =? "\")%char && (c' =? "034")%char).
    + apply IH1.
    + rewrite IH2. reflexivity.
Qed.

Lemma scan_plain_open (t : string) (d : Z) :
  Py.contains dq t = false -> scan_plain true d t = (true, d).
Proof.
  unfold dq. induction t as [| c t IH]; intros H; [reflexivity |].
  rewrite contains_char_cons in H. apply orb_false_iff in H as [Hc Ht].
  cbn [scan_plain]. unfold Grammar.step. rewrite Ascii.eqb_sym, Hc. exact (IH Ht).
Qed.

Lemma brace_delta_cons (c : ascii) (s : string) :
  brace_delta (String c s)
  = ((if (c =? "{")%char then 1 else 0) - (if (c =? "}")%char then 1 else 0)
     + brace_delta s)%Z.
Proof.
  unfold brace_delta. cbn [Py.count].
  destruct (c =? "{")%char, (c =? "}")%char; lia.
Qed.

(** The depth read outside strings is the brace count of what is left once
    the quoted parts are taken out, when no string stays open. *)
Lemma scan_plain_unquote (t : string) :
  forall b d d',
    scan_plain b d t = (false, d') -> d' = (d + brace_delta (unquote b t))%Z.
Proof.
  induction t as [| c t IH]; intros b d d' H.
  - simpl in H. inversion H. unfold brace_delta. simpl. lia.
  - cbn [scan_plain] in H. cbn [unquote]. unfold Grammar.step in H.
    destruct b.
    + destruct (c =? "034")%char; simpl in H; exact (IH _ _ _ H).
    + destruct (c =? "034")%char eqn:Eq; simpl in H.
      * destruct (Py.contains dq t) eqn:Hq.
        -- exact (IH _ _ _ H).
        -- rewrite (scan_plain_open t d Hq) in H. discriminate.
      * cbn [andb]. rewrite brace_delta_cons.
        destruct (c =? "{")%char eqn:Eo; simpl in H.
        -- assert (Ec : (c =? "}")%char = false)
             by (apply Ascii.eqb_eq in Eo; subst c; reflexivity).
           rewrite Ec. rewrite (IH _ _ _ H). lia.
        -- destruct (c =? "}")%char; simpl in H; rewrite (IH _ _ _ H); lia.
Qed.

(** White space is read without effect. *)
Lemma step_space (b : bool) (d : Z) (c : ascii) :
  Py.isspace c = true -> (c =? "\")%char = false /\ Grammar.step b d c = (b, d).
Proof.
  intros Hc.
  assert (Hne : forall a, Py.isspace a = false -> (c =? a)%char = false).
  { intros a Ha. destruct (c =? a)%char eqn:E; [| reflexivity].
    apply Ascii.eqb_eq in E. congruence. }
  split; [apply Hne; reflexivity |].
  unfold Grammar.step.
  rewrite !Hne by reflexivity. destruct b; reflexivity.
Qed.

Lemma scan_blank (w : string) :
  blank w = true -> forall b d, Grammar.scan b d w = (b, d).
Proof.
  induction w as [| c w IH]; intros Hw b d; [reflexivity |].
  simpl in Hw. apply andb_true_iff in Hw as [Hc Hw].
  destruct (step_space b d c Hc) as [Hbs Hst].
  cbn [Grammar.scan]. rewrite Hbs, Hst. cbn [andb fst snd].
  destruct w; apply IH; exact Hw.
Qed.

Lemma scan_lstrip (s : string) (d : Z) :
  Grammar.scan false d (Py.lstrip s) = Grammar.scan false d s.
Proof.
  induction s as [| c s IH]; [reflexivity |].
  cbn [Py.lstrip]. destruct (Py.isspace c) eqn:Hc; [| reflexivity].
  destruct (step_space false d c Hc) as [Hbs Hst].
  rewrite IH. cbn [Grammar.scan]. rewrite Hbs, Hst. cbn [andb fst snd].
  destruct s; reflexivity.
Qed.

Lemma scan_app_blank (w : string) :
  blank w = true ->
  forall u b d, Grammar.scan b d (u ++ w) = Grammar.scan b d u.
Proof.
  intros Hw u.
  induction u as [| c | c c' u IH1 IH2] using string_ind2; intros b d.
  - simpl. apply scan_blank. exact Hw.
  - change (String c "" ++ w) with (String c w).
    destruct w as [| c' w]; [reflexivity |].
    assert (Hw' := Hw). simpl in Hw'. apply andb_true_iff in Hw' as [Hc' _].
    rewrite scan_cons2.
    replace ((c =? "\")%char && (c' =? "034")%char) with false.
    + apply (scan_blank (String c' w) Hw).
    + symmetry. apply andb_false_iff. right.
      destruct (c' =? "034")%char eqn:E; [| reflexivity].
      apply Ascii.eqb_eq in E. subst c'. discriminate.
  - change (String c (String c' u) ++ w) with (String c (String c' (u ++ w))).
    cbn [Grammar.scan].
    destruct ((c =? "\")%char && (c' =? "034")%char).
    + apply IH1.
    + apply (IH2 (fst (Grammar.step b d c)) (snd (Grammar.step b d c))).
Qed.

Lemma rstrip_split (s : string) :
  exists w, blank w = true /\ s = Py.rstrip s ++ w.
Proof.
  induction s as [| c s (w & Hw & Hs)].
  - exists "". split; reflexivity.
  - cbn [Py.rstrip]. destruct (Py.rstrip s) as [| a r] eqn:Hr.
    + simpl in Hs. subst s. destruct (Py.isspace c) eqn:Hc.
      * exists (String c w). split; [simpl; rewrite Hc; exact Hw | reflexivity].
      * exists w. split; [exact Hw | reflexivity].
    + exists w. split; [exact Hw |]. simpl. f_equal. exact Hs.
Qed.

Lemma scan_strip (s : string) (d : Z) :
  Grammar.scan false d (Py.strip s) = Grammar.scan false d s.
Proof.
  unfold Py.strip.
  destruct (rstrip_split (Py.lstrip s)) as (w & Hw & Hs).
  rewrite <- (scan_lstrip s d). rewrite Hs at 2.
  symmetry. apply scan_app_blank. exact Hw.
Qed.

(** On a line whose strings are closed, the counter of the grouping counts
    the braces that stand outside the strings. *)
Lemma bracket_delta_braces (line : string) :
  Grammar.closed line = true -> bracket_delta line = Grammar.braces line.
Proof.
  unfold Grammar.closed, Grammar.braces, bracket_delta. intros Hclosed.
  rewrite remove_escaped, remove_quoted.
  rewrite <- (scan_strip line 0) in Hclosed |- *.
  rewrite scan_unescape in Hclosed |- *.
  destruct (scan_plain false 0 (unescape (Py.strip line))) as [b d] eqn:Hscan.
  simpl in Hclosed. destruct b; [discriminate |].
  rewrite (scan_plain_unquote _ _ _ _ Hscan). unfold brace_delta. simpl. lia.
Qed.

(** X23: on a line whose double-quoted strings are all closed, what the
    grouping adds to [bracket_count] is the number of opening braces minus
    the number of closing braces that stand outside the strings, a backslash
    followed by a double quote being no quote; the white space around the
    line does not count. *)
Theorem bracket_count_outside_strings (line : string) :
  Grammar.closed line = true -> bracket_delta line = Grammar.braces line.
Proof. exact (bracket_delta_braces line). Qed.

Lemma bracket_count_outside_strings_witness :
  bracket_delta ("    when " ++ dq ++ "a } \" ++ dq ++ " }" ++ dq ++ " {  ") = 1%Z.
Proof.
  exact (bracket_count_outside_strings
           ("    when " ++ dq ++ "a } \" ++ dq ++ " }" ++ dq ++ " {  ") eq_refl).
Defined.

(* ================================================================== *)
(** ** Grouping of well-formed root objects (C2) *)
(* ================================================================== *)

Lemma nth_error_after {A} (pre post : list A) (x : A) :
  nth_error (pre ++ x :: post)%list (length pre) = Some x.
Proof. induction pre; simpl; auto. Qed.

Lemma nth_error_at_end {A} (pre : list A) : nth_error pre (length pre) = None.
Proof. induction pre; simpl; auto. Qed.

Lemma skipn_after {A} (pre post : list A) : skipn (length pre) (pre ++ post)%list = post.
Proof. induction pre; simpl; auto. Qed.

(** On the lines that close a balanced object the scan stops at the last of
    them, whatever follows. *)
Lemma close_scan_balanced (rest post : list string) (depth : Z) (c : nat) :
  closes_at_last depth rest = true ->
  close_scan false (rest ++ post)%list depth c = inr (c + length rest).
Proof.
  revert depth c. induction rest as [| line rest IH]; intros depth c H; [discriminate |].
  cbn [closes_at_last] in H.
  apply andb_true_iff in H as [H Hrest]. apply andb_true_iff in H as [Hrule _].
  apply negb_true_iff in Hrule.
  cbn [close_scan app]. rewrite andb_false_r, Hrule. cbn [negb].
  destruct rest as [| line' rest'].
  - rewrite Hrest. reflexivity.
  - apply andb_true_iff in Hrest as [Hpos Hrest].
    apply Z.ltb_lt in Hpos.
    replace (depth + bracket_delta line =? 0)%Z with false
      by (symmetry; apply Z.eqb_neq; lia).
    rewrite (IH _ _ Hrest). simpl. f_equal. lia.
Qed.




(** One pass of the grouping loop over a well-formed object takes exactly
    its lines. *)
Lemma group_loop_object (block pre post : list string) (fuel : nat)
      (group : list (list string)) :
  well_formed_object block = true ->
  group_loop (S fuel) (pre ++ block ++ post)%list (length pre) group
  = group_loop fuel (pre ++ block ++ post)%list (length pre + length block)
               (group ++ [block])%list.
Proof.
  destruct block as [| header rest]; [discriminate |].
  intros H. cbn [group_loop].
  change (pre ++ (header :: rest) ++ post)%list
    with (pre ++ header :: (rest ++ post))%list.
  rewrite nth_error_after.
  destruct rest as [| line rest].
  - cbn [well_formed_object] in H. rewrite H. reflexivity.
  - cbn [well_formed_object] in H.
    apply andb_true_iff in H as [H Hrest]. apply andb_true_iff in H as [H Hrule].
    apply andb_true_iff in H as [H Hclose]. apply andb_true_iff in H as [Hcol Hopen].
    apply negb_true_iff in Hrule, Hclose.
    rewrite Hclose, andb_false_r, Hopen, Hcol, Hrule. cbn [andb andb negb].
    replace (skipn (length pre + 1) (pre ++ header :: (line :: rest) ++ post)%list)
      with ((line :: rest) ++ post)%list.
    2:{ replace (length pre + 1) with (length (pre ++ [header])%list)
          by (rewrite length_app; reflexivity).
        replace (pre ++ header :: (line :: rest) ++ post)%list
          with ((pre ++ [header]) ++ (line :: rest) ++ post)%list
          by (rewrite <- app_assoc; reflexivity).
        rewrite skipn_after. reflexivity. }
    rewrite (close_scan_balanced _ _ _ _ Hrest). cbn [bind].
    replace (Py.lslice (length pre) (length pre + (0 + length (line :: rest)) + 1)
                       (pre ++ header :: (line :: rest) ++ post)%list)
      with (header :: line :: rest).
    2:{ unfold Py.lslice. rewrite skipn_after.
        replace (length pre + (0 + length (line :: rest)) + 1 - length pre)
          with (length (header :: line :: rest)) by (simpl; lia).
        change (header :: (line :: rest) ++ post)%list
          with ((header :: line :: rest) ++ post)%list.
        rewrite firstn_length_app. reflexivity. }
    f_equal. simpl. lia.
Qed.


Lemma marker_free_is_rule (line : string) :
  Grammar.marker_free line = negb (is_rule line).
Proof.
  unfold Grammar.marker_free, is_rule, Grammar.rule_markers. simpl.
  destruct (Py.contains "ltm rule" line), (Py.contains "gtm rule" line),
    (Py.contains "pem irule" line); reflexivity.
Qed.

Lemma closes_at_last_closes (rest : list string) :
  forall depth, Grammar.closes depth rest = true -> closes_at_last depth rest = true.
Proof.
  induction rest as [| line rest IH]; intros depth H; [discriminate |].
  cbn [Grammar.closes] in H. cbn [closes_at_last].
  apply andb_true_iff in H as [H Hdepth].
  apply andb_true_iff in H as [H Hheader].
  apply andb_true_iff in H as [Hmarker Hclosed].
  rewrite marker_free_is_rule in Hmarker.
  rewrite (bracket_delta_braces line Hclosed), Hmarker, Hheader. cbn [andb].
  destruct rest as [| line' rest']; [exact Hdepth |].
  apply andb_true_iff in Hdepth as [Hpos Hrest].
  rewrite Hpos. exact (IH _ Hrest).
Qed.

(** An object that is closed when its strings and braces are read line by
    line is one for the counter of the grouping. *)
Lemma root_object_well_formed (block : list string) :
  Grammar.root_object block = true -> well_formed_object block = true.
Proof.
  destruct block as [| first rest]; [discriminate |].
  destruct rest as [| line rest]; intros H.
  - cbn [Grammar.root_object] in H. cbn [well_formed_object].
    apply andb_true_iff in H as [H Hclose]. apply andb_true_iff in H as [Hcol Hopen].
    rewrite Hcol, Hopen, Hclose. reflexivity.
  - cbn [Grammar.root_object] in H. cbn [well_formed_object].
    apply andb_true_iff in H as [H Hcloses].
    apply andb_true_iff in H as [H Hmarker].
    rewrite marker_free_is_rule in Hmarker.
    rewrite H, Hmarker. apply closes_at_last_closes. exact Hcloses.
Qed.




(* ================================================================== *)
(** ** The loops run to their end *)
(* ================================================================== *)

Lemma length_enumerate {A} (l : list A) (start : nat) :
  length (Py.enumerate start l) = length l.
Proof. revert start. induction l; intros start; simpl; auto. Qed.

Lemma length_lslice {A} (l : list A) (a b : nat) : length (Py.lslice a b l) <= length l.
Proof.
  unfold Py.lslice. rewrite length_firstn, length_skipn. lia.
Qed.

Lemma next_index_from (p : string -> bool) (l : list string) (start c : nat) :
  next_index p (Py.enumerate start l) = Some c -> start <= c.
Proof.
  revert start. induction l as [| x l IH]; intros start H; [discriminate |].
  simpl in H. destruct (p x).
  - injection H as <-. apply Nat.le_refl.
  - apply IH in H. lia.
Qed.

Lemma skipn_nth_error {A} (l : list A) (i : nat) (x : A) :
  nth_error l i = Some x -> exists rest, skipn i l = x :: rest.
Proof.
  revert i. induction l as [| y l IH]; intros [| i] H; try discriminate.
  - injection H as ->. eexists. reflexivity.
  - apply IH. exact H.
Qed.

Lemma quote_scan_keeps (i : nat) (l : list string) (start c0 : nat) :
  i <= c0 ->
  exists c, fold_left (fun c jl => if odd_quotes (snd jl) then Some (fst jl + i) else c)
                      (Py.enumerate start l) (Some c0) = Some c
            /\ i <= c.
Proof.
  revert start c0. induction l as [| x l IH]; intros start c0 H.
  - exists c0. auto.
  - simpl. destruct (odd_quotes x); apply IH; lia.
Qed.

(** The scan for the closing line starts at the opening line, which has an
    odd number of quotes: it always yields an index, at or after that
    line. *)
Lemma quote_scan_found (arr : list string) (i : nat) (c : option nat) (line : string) :
  nth_error arr i = Some line -> odd_quotes line = true ->
  exists c', quote_scan arr i c = Some c' /\ i <= c'.
Proof.
  intros Hline Hodd. destruct (skipn_nth_error _ _ _ Hline) as [rest Hrest].
  unfold quote_scan. rewrite Hrest. simpl. rewrite Hodd.
  apply quote_scan_keeps. apply Nat.le_refl.
Qed.

(** The loop of [orchestrate] does not depend on its fuel once the fuel
    covers the lines still to be read, and it uses the recursive call only
    on lists that are not longer than the body. *)
Lemma body_loop_ext (rec1 rec2 : list string -> result dict) (key : string)
      (arr : list string) :
  (forall l, length l <= length arr -> rec1 l = rec2 l) ->
  forall fuel1 fuel2 i c obj,
    length arr - i <= fuel1 -> length arr - i <= fuel2 ->
    body_loop rec1 key arr fuel1 i c obj = body_loop rec2 key arr fuel2 i c obj.
Proof.
  intros Hrec. induction fuel1 as [| fuel1 IH]; intros fuel2 i c obj H1 H2.
  - assert (Hend : nth_error arr i = None) by (apply nth_error_None; lia).
    destruct fuel2; simpl; [| rewrite Hend]; reflexivity.
  - destruct (nth_error arr i) as [line |] eqn:Hline.
    2:{ destruct fuel2; simpl; rewrite ?Hline; reflexivity. }
    assert (Hi : i < length arr) by (apply nth_error_Some; congruence).
    destruct fuel2 as [| fuel2]; [lia |].
    rewrite !(body_loop_pass _ _ _ _ _ _ _ _ Hline).
    destruct (Py.endswith "{" line && negb (length arr =? 1)%nat).
    { destruct (next_index _ _) as [c' |] eqn:Hnext; [| reflexivity].
      apply next_index_from in Hnext. cbv zeta.
      rewrite Hrec
        by (rewrite length_map, length_enumerate; unfold remove_indent;
            rewrite length_map; apply length_lslice).
      destruct (rec2 _) as [e | d]; [reflexivity |]. apply IH; lia. }
    destruct (Py.endswith "{ }" (Py.strip line)); [apply IH; lia |].
    destruct (Py.contains "{" line && Py.contains "}" line && negb (Py.contains dq line)).
    { destruct (obj_to_arr line) as [e | a]; [reflexivity |]. apply IH; lia. }
    destruct (((Py.count " " (Py.strip line) =? 0)%nat
               || Re.matches quoted_line_re (Py.strip line))
              && negb (Py.contains "}" line)); [apply IH; lia |].
    destruct (count_indent line =? 4)%nat; [| apply IH; lia].
    destruct (odd_quotes line) eqn:Hodd.
    { destruct (quote_scan_found arr i c line Hline Hodd) as (c' & -> & Hc').
      cbv zeta. destruct (arr_to_multiline_str _) as [e | d]; [reflexivity |].
      apply IH; lia. }
    destruct (str_to_obj (Py.strip line)) as [e | tmp]; [reflexivity |]. cbn [bind].
    destruct (Py.startswith "gtm monitor external" key);
      [destruct (dict_get "user-defined" tmp) as [v |] |]; try (apply IH; lia).
    destruct (update_user_defined obj (str_to_obj v)) as [e | obj']; [reflexivity |].
    apply IH; lia.
Qed.

(** The result of [orchestrate_rec] does not depend on the depth once the
    depth exceeds the number of lines. *)
Lemma orchestrate_rec_depth (depth1 : nat) :
  forall depth2 arr, length arr < depth1 -> length arr < depth2 ->
                     orchestrate_rec depth1 arr = orchestrate_rec depth2 arr.
Proof.
  induction depth1 as [| depth1 IH]; intros depth2 arr H1 H2; [lia |].
  destruct depth2 as [| depth2]; [lia |].
  cbn [orchestrate_rec]. destruct arr as [| arr0 rest]; [reflexivity |].
  destruct (length (arr0 :: rest) <=? 1)%nat eqn:Hlen; [reflexivity |].
  apply Nat.leb_gt in Hlen.
  destruct (is_rule _); [reflexivity |].
  destruct (Py.contains "monitor min" _); [reflexivity |].
  destruct (_ || _); [reflexivity |].
  set (body := Py.lslice 1 (length (arr0 :: rest) - 1) (arr0 :: rest)).
  assert (Hbody : length body < length (arr0 :: rest) - 1).
  { unfold body, Py.lslice. rewrite length_firstn, length_skipn. simpl in *. lia. }
  assert (Hext : forall l, length l <= length body ->
                           orchestrate_rec depth1 l = orchestrate_rec depth2 l)
    by (intros l Hl; apply IH; simpl in *; lia).
  rewrite (body_loop_ext _ _ (get_title arr0) body Hext
             (length body) (length body) 0 None []) by lia.
  reflexivity.
Qed.

(** [orchestrate] is [orchestrate_rec] at any depth above the number of
    lines: the bound on the nesting is never what ends the recursion. *)
Lemma orchestrate_any_depth (arr : list string) (depth : nat) :
  length arr < depth -> orchestrate_rec depth arr = orchestrate arr.
Proof. intros H. apply orchestrate_rec_depth; [exact H | lia]. Qed.

(** The grouping loop does not depend on its fuel once the fuel covers the
    lines still to be read. *)
Lemma group_loop_fuel (arr : list string) :
  forall fuel1 fuel2 i group,
    length arr - i <= fuel1 -> length arr - i <= fuel2 ->
    group_loop fuel1 arr i group = group_loop fuel2 arr i group.
Proof.
  induction fuel1 as [| fuel1 IH]; intros fuel2 i group H1 H2.
  - assert (Hend : nth_error arr i = None) by (apply nth_error_None; lia).
    destruct fuel2; simpl; [| rewrite Hend]; reflexivity.
  - destruct (nth_error arr i) as [line |] eqn:Hline.
    2:{ destruct fuel2; simpl; rewrite ?Hline; reflexivity. }
    assert (Hi : i < length arr) by (apply nth_error_Some; congruence).
    destruct fuel2 as [| fuel2]; [lia |].
    cbn [group_loop]. rewrite Hline.
    destruct (_ && _ && _); [apply IH; lia |].
    destruct (_ && _); [| apply IH; lia].
    destruct (close_scan _ _ _ _) as [e | c]; [reflexivity |].
    cbn [bind]. apply IH; lia.
Qed.

(* ================================================================== *)
(** ** Which exceptions the stages raise *)
(* ================================================================== *)

Lemma arr_to_multiline_str_raises (arr : list string) (e : exn) :
  arr_to_multiline_str arr = inl e -> builder_error e.
Proof.
  unfold arr_to_multiline_str, builder_error. destruct arr as [| arr0 others].
  - intros H. injection H as <-. auto.
  - destruct (Py.split_ws _); intros H; [| discriminate]. injection H as <-. auto.
Qed.

Lemma str_to_obj_raises (line : string) (e : exn) :
  str_to_obj line = inl e -> builder_error e.
Proof.
  unfold str_to_obj, builder_error.
  destruct (Py.split_ws _); intros H; [| discriminate]. injection H as <-. auto.
Qed.

Lemma obj_to_arr_raises (line : string) (e : exn) :
  obj_to_arr line = inl e -> builder_error e.
Proof.
  unfold obj_to_arr, builder_error.
  destruct (nth_error _ 1); [destruct (nth_error _ 0) |]; intros H;
    try discriminate; injection H as <-; auto.
Qed.

Lemma update_user_defined_raises (obj : dict) (d : result sdict) (e : exn) :
  (forall e', d = inl e' -> builder_error e') ->
  update_user_defined obj d = inl e -> builder_error e.
Proof.
  intros Hd. unfold update_user_defined.
  destruct (match dict_get "user-defined" obj with Some v => v | None => Obj [] end).
  - intros H. injection H as <-. unfold builder_error. auto.
  - intros H. injection H as <-. unfold builder_error. auto 6.
  - destruct d as [e' | d']; simpl; intros H; [| discriminate].
    injection H as <-. apply Hd. reflexivity.
Qed.

(** An exception of the loop of [orchestrate] comes from a recursive call on
    a list no longer than the body, or is one of the builder's own.  The
    exception for an unclosed quote is not among them: its [raise] is never
    reached. *)
Lemma body_loop_raises (rec : list string -> result dict) (key : string)
      (arr : list string) (e : exn) :
  forall fuel i c obj,
    body_loop rec key arr fuel i c obj = inl e ->
    (exists l, length l <= length arr /\ rec l = inl e) \/ builder_error e.
Proof.
  induction fuel as [| fuel IH]; intros i c obj H; [discriminate |].
  destruct (nth_error arr i) as [line |] eqn:Hline.
  2:{ simpl in H. rewrite Hline in H. discriminate. }
  rewrite (body_loop_pass _ _ _ _ _ _ _ _ Hline) in H.
  destruct (Py.endswith "{" line && negb (length arr =? 1)%nat).
  { destruct (next_index _ _) as [c' |].
    - cbv zeta in H.
      match type of H with
      | bind (rec ?l) _ = _ =>
          assert (Hlen : length l <= length arr)
            by (rewrite length_map, length_enumerate; unfold remove_indent;
                rewrite length_map; apply length_lslice);
          destruct (rec l) as [e' | d] eqn:Hrec
      end.
      + injection H as <-. left. eexists. split; [exact Hlen | exact Hrec].
      + apply (IH _ _ _ H).
    - injection H as <-. right. left. eexists. reflexivity. }
  destruct (Py.endswith "{ }" (Py.strip line)); [apply (IH _ _ _ H) |].
  destruct (Py.contains "{" line && Py.contains "}" line && negb (Py.contains dq line)).
  { destruct (obj_to_arr line) as [e' | a] eqn:Harr.
    - injection H as <-. right. apply (obj_to_arr_raises _ _ Harr).
    - apply (IH _ _ _ H). }
  destruct (((Py.count " " (Py.strip line) =? 0)%nat
             || Re.matches quoted_line_re (Py.strip line))
            && negb (Py.contains "}" line)); [apply (IH _ _ _ H) |].
  destruct (count_indent line =? 4)%nat; [| apply (IH _ _ _ H)].
  destruct (odd_quotes line) eqn:Hodd.
  { destruct (quote_scan_found arr i c line Hline Hodd) as (c' & Hscan & _).
    rewrite Hscan in H. cbv zeta in H.
    destruct (arr_to_multiline_str _) as [e' | d] eqn:Hstr.
    - injection H as <-. right. apply (arr_to_multiline_str_raises _ _ Hstr).
    - apply (IH _ _ _ H). }
  destruct (str_to_obj (Py.strip line)) as [e' | tmp] eqn:Htmp.
  { injection H as <-. right. apply (str_to_obj_raises _ _ Htmp). }
  cbn [bind] in H.
  destruct (Py.startswith "gtm monitor external" key);
    [destruct (dict_get "user-defined" tmp) as [v |] |]; try apply (IH _ _ _ H).
  destruct (update_user_defined obj (str_to_obj v)) as [e' | obj'] eqn:Hupd.
  - injection H as <-. right.
    apply (update_user_defined_raises _ _ _ (str_to_obj_raises v) Hupd).
  - apply (IH _ _ _ H).
Qed.

Lemma orchestrate_rec_raises (depth : nat) :
  forall arr e, length arr < depth -> orchestrate_rec depth arr = inl e -> builder_error e.
Proof.
  induction depth as [| depth IH]; intros arr e Hlen H; [lia |].
  cbn [orchestrate_rec] in H. destruct arr as [| arr0 rest].
  { injection H as <-. unfold builder_error. auto. }
  destruct (length (arr0 :: rest) <=? 1)%nat eqn:Hle; [discriminate |].
  apply Nat.leb_gt in Hle.
  destruct (is_rule _); [discriminate |].
  destruct (Py.contains "monitor min" _); [discriminate |].
  destruct (_ || _); [discriminate |].
  set (body := Py.lslice 1 (length (arr0 :: rest) - 1) (arr0 :: rest)) in *.
  assert (Hbody : length body < length (arr0 :: rest) - 1).
  { unfold body, Py.lslice. rewrite length_firstn, length_skipn. simpl in *. lia. }
  destruct (body_loop _ _ body _ _ _ _) as [e' | obj] eqn:Hloop; [| discriminate].
  injection H as <-.
  destruct (body_loop_raises _ _ _ _ _ _ _ _ Hloop) as [(l & Hl & Hrec) | Hown].
  - apply (IH l e'); [simpl in *; lia | exact Hrec].
  - exact Hown.
Qed.

(** The exceptions of [orchestrate]: never the one for an unclosed quote,
    and never the bound on the nesting. *)
Lemma orchestrate_raises (arr : list string) (e : exn) :
  orchestrate arr = inl e -> builder_error e.
Proof. apply orchestrate_rec_raises. lia. Qed.

Lemma unclosed_quote_never_raised (arr : list string) (line : string) :
  orchestrate arr <> inl (unclosed_quote_error line).
Proof.
  intros H. apply orchestrate_raises in H.
  destruct H as [[line' H] | [H | [H | [H | H]]]]; discriminate H.
Qed.

(** The scan for the closing line ends on the last line, from the opening
    line on, that has an odd number of quotes. *)
Lemma quote_scan_last (arr : list string) (i : nat) (c : option nat)
      (upto after : list string) (closing : string) :
  skipn i arr = (upto ++ closing :: after)%list ->
  odd_quotes closing = true ->
  Forall (fun l => odd_quotes l = false) after ->
  quote_scan arr i c = Some (length upto + i).
Proof.
  intros Hskip Hodd Hafter. unfold quote_scan. rewrite Hskip. clear Hskip.
  assert (Hgen : forall start c,
             fold_left (fun c jl => if odd_quotes (snd jl) then Some (fst jl + i) else c)
                       (Py.enumerate start (upto ++ closing :: after)%list) c
             = Some (start + length upto + i)).
  { induction upto as [| x upto IH]; intros start c0; simpl.
    - rewrite Hodd. clear Hodd. replace (start + 0 + i) with (start + i) by lia.
      generalize (S start).
      induction Hafter as [| y after Hy _ IHafter]; intros n; simpl; [reflexivity |].
      rewrite Hy. apply IHafter.
    - rewrite IH. f_equal. lia. }
  apply Hgen.
Qed.

(** The grouping raises nothing but the [IndexError] of a scan that runs
    past the last line. *)
Lemma close_scan_raises (rule_flag : bool) (ahead : list string) :
  forall bracket_count c e,
    close_scan rule_flag ahead bracket_count c = inl e -> e = index_error.
Proof.
  induction ahead as [| line ahead IH]; intros bracket_count c e H.
  - injection H as <-. reflexivity.
  - cbn [close_scan] in H. destruct (is_rule line); [discriminate |].
    destruct (_ =? 0)%Z; [discriminate |]. apply (IH _ _ _ H).
Qed.

Lemma group_objects_raises (arr : list string) (e : exn) :
  group_objects arr = inl e -> e = index_error.
Proof.
  unfold group_objects. generalize (length arr) at 1. intros fuel.
  generalize 0 as i. generalize (@nil (list string)) as group.
  induction fuel as [| fuel IH]; intros group i H; [discriminate |].
  cbn [group_loop] in H. destruct (nth_error arr i) as [line |]; [| discriminate].
  destruct (_ && _ && _); [apply (IH _ _ H) |].
  destruct (_ && _); [| apply (IH _ _ H)].
  destruct (close_scan _ _ _ _) as [e' | c] eqn:Hscan.
  - injection H as <-. apply (close_scan_raises _ _ _ _ _ Hscan).
  - apply (IH _ _ H).
Qed.

Lemma next_index_none (p : string -> bool) (l : list string) (start : nat) :
  Forall (fun x => p x = false) l -> next_index p (Py.enumerate start l) = None.
Proof.
  intros H. revert start. induction H as [| x l Hx _ IH]; intros start; simpl.
  - reflexivity.
  - rewrite Hx. apply IH.
Qed.

(** The scan of a nested object does name the line it could not close. *)
Lemma nested_brace_missing (rec : list string -> result dict) (key : string)
      (arr : list string) (fuel i : nat) (c : option nat) (obj : dict) (line : string) :
  nth_error arr i = Some line ->
  Py.endswith "{" line = true ->
  length arr <> 1 ->
  Forall (fun l => (l =? "    }")%string = false) (skipn i arr) ->
  body_loop rec key arr (S fuel) i c obj = inl (missing_brace_error line).
Proof.
  intros Hline Hopen Hlen Hnone.
  rewrite (body_loop_pass _ _ _ _ _ _ _ _ Hline), Hopen.
  apply Nat.eqb_neq in Hlen. rewrite Hlen. cbn [negb andb].
  rewrite (next_index_none _ _ _ Hnone). reflexivity.
Qed.

Lemma misindented_close_named :
  parse_files new_parser [("bigip.conf", text_of misindented_close)]
  = inl (Exception (error_prefix
                      ++ "Missing or mis-indented '}' for line: '    members {'")).
Proof. vm_compute. reflexivity. Qed.

(* ================================================================== *)
(** ** Further properties: the loop over the files *)
(* ================================================================== *)

Lemma parse_loop_parsed_files (files : list (string * string)) (self : parser) (data : dict) :
  parse_loop self data files = parse_loop self data (parsed_files files).
Proof.
  revert self data. induction files as [| [key value] files IH]; intros self data.
  - reflexivity.
  - unfold parsed_files. cbn [filter parse_loop fst]. destruct (skipped key) eqn:Hskip.
    + cbn [negb]. apply IH.
    + cbn [negb parse_loop]. rewrite Hskip.
      destruct (parse_file self value) as [e | p]; [reflexivity | apply IH].
Qed.

(** X1: the files whose name holds [Common_d], [bigip_script.conf] or
    [.license] contribute nothing: [parse_files] returns (or raises) what it
    does on the mapping without them, whatever their text. *)
Theorem skipped_files_ignored (self : parser) (files : list (string * string)) :
  parse_files self files = parse_files self (parsed_files files).
Proof. unfold parse_files. rewrite parse_loop_parsed_files. reflexivity. Qed.

(* ================================================================== *)
(** ** Further properties: grouping *)
(* ================================================================== *)

Lemma nth_error_shift {A} (pre l : list A) (i : nat) :
  nth_error (pre ++ l)%list (length pre + i) = nth_error l i.
Proof. induction pre; simpl; auto. Qed.

Lemma skipn_shift {A} (pre l : list A) (i : nat) :
  skipn (length pre + i) (pre ++ l)%list = skipn i l.
Proof. induction pre; simpl; auto. Qed.

(** The grouping loop looks at the lines from [i] on only: lines before
    them change nothing but the indices. *)
Lemma group_loop_shift (pre arr : list string) :
  forall fuel i group group',
    group_loop fuel (pre ++ arr)%list (length pre + i) (group ++ group')%list
    = gs <- group_loop fuel arr i group' ;; ret (group ++ gs)%list.
Proof.
  induction fuel as [| fuel IH]; intros i group group'; [reflexivity |].
  cbn [group_loop]. rewrite nth_error_shift.
  destruct (nth_error arr i) as [line |]; [| reflexivity].
  destruct (_ && _ && _).
  { rewrite <- app_assoc, <- Nat.add_assoc. apply IH. }
  destruct (_ && _).
  2:{ rewrite <- Nat.add_assoc. apply IH. }
  replace (skipn (length pre + i + 1) (pre ++ arr)%list) with (skipn (i + 1) arr)
    by (rewrite <- Nat.add_assoc; symmetry; apply skipn_shift).
  destruct (close_scan _ _ _ _) as [e | c]; [reflexivity |]. cbn [bind].
  replace (Py.lslice (length pre + i) (length pre + i + c + 1) (pre ++ arr)%list)
    with (Py.lslice i (i + c + 1) arr).
  2:{ unfold Py.lslice. rewrite skipn_shift. f_equal. lia. }
  rewrite <- app_assoc.
  replace (length pre + i + c + 1) with (length pre + (i + c + 1)) by lia.
  apply IH.
Qed.

(** What the grouping makes of the lines after a prefix it has dealt with. *)
Lemma group_loop_rest (pre rest : list string) (fuel : nat) (group : list (list string)) :
  length rest <= fuel ->
  group_loop fuel (pre ++ rest)%list (length pre) group
  = gs <- group_objects rest ;; ret (group ++ gs)%list.
Proof.
  intros Hfuel.
  replace (length pre) with (length pre + 0) by lia.
  replace group with (group ++ [])%list at 1 by apply app_nil_r.
  rewrite group_loop_shift. unfold group_objects.
  rewrite (group_loop_fuel rest fuel (length rest) 0 []) by lia. reflexivity.
Qed.

Lemma root_header_branches (line : string) :
  is_root_header line = false ->
  Py.contains "{" line && Py.contains "}" line && negb (Py.startswith " " line) = false
  /\ Py.endswith "{" (Py.strip line) && negb (Py.startswith " " line) = false.
Proof.
  unfold is_root_header.
  destruct (Py.startswith " " line); simpl; [rewrite !andb_false_r; auto |].
  rewrite !andb_true_r. apply orb_false_iff.
Qed.

(** X2: a line that is no column-0 object header and stands where a root
    object could start (an indented line, a stray closing brace, plain text)
    is passed over without a group and without an error. *)
Theorem stray_line_skipped (line : string) (rest : list string) :
  is_root_header line = false ->
  group_objects (line :: rest) = group_objects rest.
Proof.
  intros H. apply root_header_branches in H as [H1 H2].
  unfold group_objects at 1. cbn [length group_loop nth_error]. rewrite H1, H2.
  change (group_loop (length rest) ([line] ++ rest)%list (length [line]) []
          = group_objects rest).
  rewrite (group_loop_rest [line] rest (length rest) [] (Nat.le_refl _)).
  destruct (group_objects rest); reflexivity.
Qed.

Lemma stray_line_skipped_witness :
  group_objects ("}" :: ["ltm pool b { }"]) = group_objects ["ltm pool b { }"].
Proof. apply stray_line_skipped. reflexivity. Defined.

(** X3: a root object at the head of the lines, without rule marker, with
    its strings closed on their line, and closed when the braces outside the
    strings are counted line by line, is split off as one group, whatever
    follows it: the rest is grouped on its own, and an error in the rest is
    the error of the whole. *)
Theorem head_object_split_off (block rest : list string) :
  Grammar.root_object block = true ->
  group_objects (block ++ rest)%list
  = gs <- group_objects rest ;; ret (block :: gs).
Proof.
  intros Hobject. assert (Hwf := root_object_well_formed block Hobject).
  unfold group_objects at 1.
  assert (Hlen : 1 <= length block) by (destruct block; [discriminate | simpl; lia]).
  rewrite length_app. destruct (length block + length rest) as [| fuel] eqn:Hfuel; [lia |].
  change (group_loop (S fuel) (block ++ rest)%list 0 [])
    with (group_loop (S fuel) ([] ++ block ++ rest)%list (length (@nil string)) []).
  rewrite (group_loop_object block [] rest fuel [] Hwf).
  change ([] ++ block ++ rest)%list with (block ++ rest)%list.
  change (length (@nil string) + length block) with (length block).
  rewrite group_loop_rest by lia. reflexivity.
Qed.

Lemma head_object_split_off_witness :
  group_objects (hd [] pools_with_quoted_braces ++ unclosed_root)%list
  = gs <- group_objects unclosed_root ;; ret (hd [] pools_with_quoted_braces :: gs).
Proof. apply head_object_split_off. reflexivity. Defined.

Lemma group_loop_groups (arr : list string) (P : list string -> Prop) :
  (forall i n line rest,
      skipn i arr = line :: rest -> is_root_header line = true ->
      P (line :: firstn n rest)) ->
  forall fuel i group groups,
    Forall P group ->
    group_loop fuel arr i group = inr groups -> Forall P groups.
Proof.
  intros HP. induction fuel as [| fuel IH]; intros i group groups Hgroup H.
  - injection H as <-. exact Hgroup.
  - cbn [group_loop] in H.
    destruct (nth_error arr i) as [line |] eqn:Hline.
    2:{ injection H as <-. exact Hgroup. }
    destruct (skipn_nth_error _ _ _ Hline) as [rest Hrest].
    destruct (Py.contains "{" line && Py.contains "}" line
              && negb (Py.startswith " " line)) eqn:Hone.
    { apply (IH _ _ _) in H; [exact H |].
      apply Forall_app. split; [exact Hgroup |]. constructor; [| constructor].
      apply (HP i 0 line rest Hrest). unfold is_root_header.
      apply andb_true_iff in Hone as [Hone Hcol]. rewrite Hcol, Hone. reflexivity. }
    destruct (Py.endswith "{" (Py.strip line) && negb (Py.startswith " " line))
      eqn:Htwo; [| apply (IH _ _ _ Hgroup H)].
    destruct (close_scan _ _ _ _) as [e | c]; [discriminate |]. cbn [bind] in H.
    apply (IH _ _ _) in H; [exact H |].
    apply Forall_app. split; [exact Hgroup |]. constructor; [| constructor].
    unfold Py.lslice. rewrite Hrest.
    replace (i + c + 1 - i) with (S c) by lia. cbn [firstn].
    apply (HP i c line rest Hrest). unfold is_root_header.
    apply andb_true_iff in Htwo as [Hopen Hcol]. rewrite Hcol, Hopen, orb_true_r.
    reflexivity.
Qed.

Lemma groups_not_empty (arr : list string) (groups : list (list string)) :
  group_objects arr = inr groups ->
  Forall (fun g => exists header tail, g = header :: tail) groups.
Proof.
  intros H. unfold group_objects in H.
  refine (group_loop_groups arr _ _ _ _ _ _ (Forall_nil _) H).
  intros i n line rest _ _. eexists _, _. reflexivity.
Qed.

(** X4: every group that [group_objects] returns is a run of consecutive
    lines of the input and starts with a column-0 object header; so no
    group is empty, and the builder always finds the first line it takes
    the title from. *)
Theorem groups_are_headed_runs (arr : list string) (groups : list (list string)) :
  group_objects arr = inr groups ->
  Forall (fun g => exists header tail before after,
              g = header :: tail /\ is_root_header header = true
              /\ arr = (before ++ g ++ after)%list) groups.
Proof.
  intros H. unfold group_objects in H.
  refine (group_loop_groups arr _ _ _ _ _ _ (Forall_nil _) H).
  intros i n line rest Hrest Hheader.
  exists line, (firstn n rest), (firstn i arr), (skipn n rest).
  repeat split; [exact Hheader |].
  change ((line :: firstn n rest) ++ skipn n rest)%list
    with (line :: (firstn n rest ++ skipn n rest))%list.
  rewrite firstn_skipn, <- Hrest, firstn_skipn. reflexivity.
Qed.

Lemma groups_are_headed_runs_witness :
  Forall (fun g => exists header tail before after,
              g = header :: tail /\ is_root_header header = true
              /\ two_pools = (before ++ g ++ after)%list)
         [firstn 7 two_pools; skipn 7 two_pools].
Proof. apply groups_are_headed_runs. reflexivity. Defined.

Lemma close_scan_next_rule (rule_flag : bool) (body rest : list string) (next : string) :
  forallb keeps_open body = true -> is_rule next = true ->
  forall depth c,
    (1 <= depth)%Z ->
    close_scan rule_flag (body ++ next :: rest)%list depth c = inr (c + length body).
Proof.
  intros Hbody Hnext. induction body as [| line body IH]; intros depth c Hdepth.
  - cbn [close_scan app]. rewrite Hnext. unfold ret. f_equal. cbn [length]. lia.
  - cbn [forallb] in Hbody. apply andb_true_iff in Hbody as [Hline Hbody].
    unfold keeps_open in Hline. apply andb_true_iff in Hline as [Hrule Hdelta].
    apply negb_true_iff in Hrule. apply Z.leb_le in Hdelta.
    cbn [close_scan app]. rewrite Hrule.
    destruct (negb (uncounted line && rule_flag)).
    + replace (depth + bracket_delta line =? 0)%Z with false
        by (symmetry; apply Z.eqb_neq; lia).
      rewrite (IH Hbody) by lia. f_equal. cbn [length]. lia.
    + replace (depth =? 0)%Z with false by (symmetry; apply Z.eqb_neq; lia).
      rewrite (IH Hbody) by lia. f_equal. cbn [length]. lia.
Qed.

(** X5: when the object opened by a column-0 header is still open, no line
    of it being a rule header or closing more braces than it opens, and a
    rule header comes, the scan stops before that header: the open object
    becomes a group of the lines read so far and the rule is grouped with
    what follows it. *)
Theorem next_rule_ends_group (header next : string) (body rest : list string) :
  opens_object header = true ->
  forallb keeps_open body = true ->
  is_rule next = true ->
  group_objects ((header :: body) ++ next :: rest)%list
  = gs <- group_objects (next :: rest) ;; ret ((header :: body) :: gs).
Proof.
  intros Hheader Hbody Hnext. unfold opens_object in Hheader.
  apply andb_true_iff in Hheader as [Hheader Hcol].
  apply andb_true_iff in Hheader as [Hone Hopen]. apply negb_true_iff in Hone.
  unfold group_objects at 1.
  change ((header :: body) ++ next :: rest)%list
    with (header :: (body ++ next :: rest))%list.
  cbn [length group_loop nth_error]. rewrite Hone, Hopen, Hcol. cbn [andb].
  change (skipn (0 + 1) (header :: (body ++ next :: rest))%list)
    with (body ++ next :: rest)%list.
  rewrite (close_scan_next_rule _ _ _ _ Hbody Hnext) by lia. cbn [bind].
  replace (Py.lslice 0 (0 + (0 + length body) + 1) (header :: (body ++ next :: rest))%list)
    with (header :: body).
  2:{ unfold Py.lslice. cbn [skipn].
      replace (0 + (0 + length body) + 1 - 0) with (S (length body)) by lia.
      cbn [firstn]. rewrite firstn_length_app. reflexivity. }
  change (header :: (body ++ next :: rest))%list
    with ((header :: body) ++ next :: rest)%list.
  replace (0 + (0 + length body) + 1) with (length (header :: body)) by (simpl; lia).
  apply group_loop_rest. rewrite length_app. simpl. lia.
Qed.

Lemma next_rule_ends_group_witness :
  group_objects (("ltm rule a {" :: ["when HTTP_REQUEST {"; "    log local0. hello"])
                   ++ "ltm rule b {" :: ["}"])%list
  = gs <- group_objects ("ltm rule b {" :: ["}"]) ;;
    ret (("ltm rule a {" :: ["when HTTP_REQUEST {"; "    log local0. hello"]) :: gs).
Proof. apply next_rule_ends_group; reflexivity. Defined.

(** X6: the grouping raises nothing but the [IndexError] of the scan that
    has read past the last line; no error of [group_objects] names a
    line. *)
Theorem grouping_error_is_index_error (arr : list string) (e : exn) :
  group_objects arr = inl e -> e = IndexError "list index out of range".
Proof. apply group_objects_raises. Qed.

Lemma grouping_error_is_index_error_witness :
  group_objects unclosed_root = inl index_error
  /\ index_error = IndexError "list index out of range".
Proof.
  split; [reflexivity |].
  apply (grouping_error_is_index_error unclosed_root). reflexivity.
Defined.

(* ================================================================== *)
(** ** Further properties: tokens *)
(* ================================================================== *)

Lemma split_ws_lstrip (s : string) : Py.split_ws (Py.lstrip s) = Py.split_ws s.
Proof.
  unfold Py.split_ws. induction s as [| c s IH]; [reflexivity |].
  cbn [Py.lstrip Py.split_ws_from]. destruct (Py.isspace c) eqn:Hc.
  - exact IH.
  - cbn [Py.split_ws_from]. rewrite Hc. reflexivity.
Qed.

Lemma split_ws_from_cons (tok : string) (c : ascii) (s : string) :
  Py.split_ws_from tok (String c s)
  = if Py.isspace c
    then (if (tok =? "")%string then Py.split_ws_from "" s
          else tok :: Py.split_ws_from "" s)
    else Py.split_ws_from (tok ++ String c "") s.
Proof. reflexivity. Qed.

Lemma split_ws_from_rstrip (s : string) :
  forall tok, Py.split_ws_from tok (Py.rstrip s) = Py.split_ws_from tok s.
Proof.
  induction s as [| c s IH]; intros tok; [reflexivity |].
  rewrite (split_ws_from_cons tok c s), <- !IH. cbn [Py.rstrip].
  destruct (Py.isspace c) eqn:Hc; destruct (Py.rstrip s) as [| c' r];
    rewrite ?split_ws_from_cons, ?Hc; reflexivity.
Qed.

(** Trimming a line does not change its tokens. *)
Lemma split_ws_strip (s : string) : Py.split_ws (Py.strip s) = Py.split_ws s.
Proof.
  unfold Py.strip, Py.split_ws at 1. rewrite split_ws_from_rstrip.
  apply split_ws_lstrip.
Qed.

Lemma split_ws_from_space (a b : string) :
  forall tok,
    Py.split_ws_from tok (a ++ String " " b)
    = (Py.split_ws_from tok a ++ Py.split_ws b)%list.
Proof.
  induction a as [| c a IH]; intros tok.
  - cbn [append Py.split_ws_from]. change (Py.isspace " ") with true. cbn iota.
    destruct (tok =? "")%string; reflexivity.
  - cbn [append Py.split_ws_from]. destruct (Py.isspace c).
    + destruct (tok =? "")%string; rewrite IH; reflexivity.
    + apply IH.
Qed.

(** The tokens of lines joined with single spaces are the tokens of the
    lines, in order. *)
Lemma split_ws_join (lines : list string) :
  Py.split_ws (Py.join " " lines) = List.concat (map Py.split_ws lines).
Proof.
  induction lines as [| x lines IH]; [reflexivity |].
  destruct lines as [| y lines].
  - simpl. rewrite app_nil_r. reflexivity.
  - change (Py.join " " (x :: y :: lines))
      with (x ++ String " " (Py.join " " (y :: lines))).
    unfold Py.split_ws at 1. rewrite split_ws_from_space, IH. reflexivity.
Qed.

Lemma solid_app (a b : string) : solid (a ++ b) = solid a && solid b.
Proof.
  induction a as [| c a IH]; [reflexivity |].
  simpl. rewrite IH, andb_assoc. reflexivity.
Qed.

Lemma append_empty (a b : string) : a ++ b = "" -> a = "" /\ b = "".
Proof. destruct a; simpl; [auto | discriminate]. Qed.

Lemma append_empty_r (a : string) : a ++ "" = a.
Proof. induction a; simpl; congruence. Qed.

Lemma append_assoc (a b c : string) : (a ++ b) ++ c = a ++ b ++ c.
Proof. induction a; simpl; congruence. Qed.

Lemma eqb_empty_false (s : string) : s <> "" -> (s =? "")%string = false.
Proof. intros H. apply String.eqb_neq. exact H. Qed.

Lemma split_ws_from_tokens (s : string) :
  forall tok, solid tok = true -> Forall token (Py.split_ws_from tok s).
Proof.
  induction s as [| c s IH]; intros tok Htok; cbn [Py.split_ws_from].
  - destruct (String.eqb_spec tok ""); constructor; [split; assumption | constructor].
  - destruct (Py.isspace c) eqn:Hc.
    + destruct (String.eqb_spec tok "").
      * apply IH. reflexivity.
      * constructor; [split; assumption | apply IH; reflexivity].
    + apply IH. rewrite solid_app, Htok. simpl. rewrite Hc. reflexivity.
Qed.

(** What [split()] returns are tokens. *)
Lemma split_ws_tokens (s : string) : Forall token (Py.split_ws s).
Proof. apply split_ws_from_tokens. reflexivity. Qed.

Lemma split_ws_from_solid (t : string) :
  forall tok, solid t = true -> tok ++ t <> "" -> Py.split_ws_from tok t = [tok ++ t].
Proof.
  induction t as [| c t IH]; intros tok Ht Hne; cbn [Py.split_ws_from].
  - rewrite append_empty_r in *. rewrite eqb_empty_false by exact Hne. reflexivity.
  - simpl in Ht. apply andb_true_iff in Ht as [Hc Ht]. apply negb_true_iff in Hc.
    rewrite Hc, IH; [| exact Ht |].
    + rewrite append_assoc. reflexivity.
    + rewrite append_assoc. exact Hne.
Qed.

(** A token is its own and only token. *)
Lemma split_ws_token (t : string) : token t -> Py.split_ws t = [t].
Proof. intros [Hsolid Hne]. apply (split_ws_from_solid t "" Hsolid Hne). Qed.

(** Joining tokens with single spaces and splitting again gives them back. *)
Lemma split_ws_join_tokens (tokens : list string) :
  Forall token tokens -> Py.split_ws (Py.join " " tokens) = tokens.
Proof.
  intros H. rewrite split_ws_join.
  induction H as [| t tokens Ht _ IH]; [reflexivity |].
  simpl. rewrite (split_ws_token t Ht), IH. reflexivity.
Qed.

(** X7: [str_to_obj] keeps the tokens of its line: the key is the first
    token, the value is the other tokens joined by single spaces (whatever
    whitespace separated them), and only a line without any token raises,
    the [ValueError] of the unpacking. *)
Theorem str_to_obj_tokens (line : string) :
  match str_to_obj line with
  | inl e => e = unpack_error /\ Py.split_ws line = []
  | inr d =>
      exists key value,
        d = [(key, value)]
        /\ Py.split_ws line = key :: Py.split_ws value
        /\ value = Py.join " " (Py.split_ws value)
  end.
Proof.
  unfold str_to_obj. rewrite split_ws_strip.
  pose proof (split_ws_tokens line) as Htokens.
  destruct (Py.split_ws line) as [| key rest]; [simpl; auto |].
  apply Forall_inv_tail in Htokens. simpl.
  exists key, (Py.join " " rest).
  rewrite (split_ws_join_tokens rest Htokens). auto.
Qed.

(* ================================================================== *)
(** ** Further properties: the builder *)
(* ================================================================== *)

(** X8: for a group of a header, body lines and a last line whose title
    holds [monitor min] and no rule marker, the value is the list of all
    the tokens of the body lines, in order: a list wrapped over several
    lines is flattened, and the last line of the group does not count. *)
Theorem monitor_min_tokens (header last : string) (body : list string) :
  is_rule (get_title header) = false ->
  Py.contains "monitor min" (get_title header) = true ->
  orchestrate (header :: body ++ [last])%list
  = inr [(get_title header, Arr (List.concat (map Py.split_ws body)))].
Proof.
  intros Hrule Hmin. unfold orchestrate. cbn [orchestrate_rec].
  replace (length (header :: body ++ [last])%list <=? 1)%nat with false
    by (symmetry; apply Nat.leb_gt; simpl; rewrite length_app; simpl; lia).
  rewrite body_of_group, Hrule, Hmin, split_ws_join, map_map.
  rewrite (map_ext _ _ split_ws_strip). reflexivity.
Qed.

Lemma monitor_min_tokens_witness :
  orchestrate ("monitor min 1 of {" :: ["    /Common/http"; "    /Common/tcp"]
                 ++ ["}"])%list
  = inr [(get_title "monitor min 1 of {",
          Arr (List.concat (map Py.split_ws ["    /Common/http"; "    /Common/tcp"])))].
Proof. apply monitor_min_tokens; reflexivity. Defined.

Lemma orchestrate_singleton (arr : list string) (d : dict) :
  orchestrate arr = inr d ->
  exists header tail v, arr = header :: tail /\ d = [(get_title header, v)].
Proof.
  unfold orchestrate. cbn [orchestrate_rec].
  destruct arr as [| header tail]; [discriminate |].
  intros H. exists header, tail.
  destruct (length (header :: tail) <=? 1)%nat;
    [injection H as <-; eexists; split; reflexivity |].
  destruct (is_rule _); [injection H as <-; eexists; split; reflexivity |].
  destruct (Py.contains "monitor min" _);
    [injection H as <-; eexists; split; reflexivity |].
  destruct (_ || _); [injection H as <-; eexists; split; reflexivity |].
  destruct (body_loop _ _ _ _ _ _ _) as [e | obj]; [discriminate |].
  injection H as <-. eexists. split; reflexivity.
Qed.

(** X9: [orchestrate] returns a dictionary of exactly one key, the title of
    the first line of the group, whichever rule gives the value. *)
Theorem orchestrate_one_key (arr : list string) (d : dict) :
  orchestrate arr = inr d ->
  exists header tail v, arr = header :: tail /\ d = [(get_title header, v)].
Proof. apply orchestrate_singleton. Qed.

Lemma orchestrate_one_key_witness :
  exists header tail v,
    pool_with_array = header :: tail
    /\ [("ltm pool p", Obj [("foo", Arr ["a"; "b"; "c"])])] = [(get_title header, v)].
Proof. apply orchestrate_one_key. reflexivity. Defined.

(* ================================================================== *)
(** ** Further properties: the exceptions a caller can meet *)
(* ================================================================== *)

Lemma split_length (c : ascii) (s : string) : 1 <= length (Py.split c s).
Proof.
  induction s as [| a s IH]; simpl; [lia |].
  destruct (a =? c)%char; [simpl; lia |].
  destruct (Py.split c s); simpl in *; lia.
Qed.

Lemma split_length_sep (c : ascii) (s : string) :
  Py.contains (String c "") s = true -> 2 <= length (Py.split c s).
Proof.
  induction s as [| a s IH]; intros H; [discriminate |].
  rewrite contains_char_cons in H. cbn [Py.split].
  destruct (Ascii.eqb_spec a c) as [-> | Hne].
  - pose proof (split_length c s). simpl. lia.
  - apply Ascii.eqb_neq in Hne. rewrite Ascii.eqb_sym, Hne in H. simpl in H.
    specialize (IH H). destruct (Py.split c s); simpl in *; lia.
Qed.

(** A line with an opening brace always has a part after it. *)
Lemma obj_to_arr_returns (line : string) :
  Py.contains "{" line = true -> exists a, obj_to_arr line = inr a.
Proof.
  intros H. apply split_length_sep in H. unfold obj_to_arr.
  destruct (nth_error (Py.split "{" line) 1) as [after |] eqn:Hafter.
  2:{ apply nth_error_None in Hafter. lia. }
  destruct (nth_error (Py.split "}" after) 0) as [inside |] eqn:Hinside.
  2:{ apply nth_error_None in Hinside. pose proof (split_length "}" after). lia. }
  eexists. reflexivity.
Qed.

Lemma split_ws_from_pending (s : string) :
  forall tok, tok <> "" -> Py.split_ws_from tok s <> [].
Proof.
  induction s as [| c s IH]; intros tok Htok; cbn [Py.split_ws_from].
  - rewrite eqb_empty_false by exact Htok. discriminate.
  - destruct (Py.isspace c).
    + rewrite eqb_empty_false by exact Htok. discriminate.
    + apply IH. intros H. apply append_empty in H as [_ H]. discriminate.
Qed.

(** A line that is not blank has a token. *)
Lemma split_ws_not_blank (s : string) : blank s = false -> Py.split_ws s <> [].
Proof.
  unfold Py.split_ws. induction s as [| c s IH]; intros H; [discriminate |].
  cbn [Py.split_ws_from]. simpl in H. destruct (Py.isspace c).
  - apply IH. exact H.
  - apply split_ws_from_pending. discriminate.
Qed.

Lemma blank_count (c : ascii) (s : string) :
  Py.isspace c = false -> blank s = true -> Py.count c s = 0.
Proof.
  intros Hc. induction s as [| a s IH]; intros H; [reflexivity |].
  simpl in H. apply andb_true_iff in H as [Ha Hs]. simpl.
  destruct (Ascii.eqb_spec a c) as [-> | _]; [congruence |]. rewrite (IH Hs). reflexivity.
Qed.

Lemma blank_contains (c : ascii) (s : string) :
  Py.isspace c = false -> blank s = true -> Py.contains (String c "") s = false.
Proof.
  intros Hc. induction s as [| a s IH]; intros H; [reflexivity |].
  simpl in H. apply andb_true_iff in H as [Ha Hs].
  rewrite contains_char_cons, (IH Hs), orb_false_r.
  destruct (Ascii.eqb_spec c a) as [-> | _]; [congruence | reflexivity].
Qed.

Lemma lstrip_blank (s : string) : blank s = true -> Py.lstrip s = "".
Proof.
  induction s as [| c s IH]; intros H; [reflexivity |].
  simpl in H. apply andb_true_iff in H as [Hc Hs]. simpl. rewrite Hc. apply IH, Hs.
Qed.

Lemma strip_blank (s : string) : blank s = true -> Py.strip s = "".
Proof. intros H. unfold Py.strip. rewrite (lstrip_blank s H). reflexivity. Qed.

Lemma rstrip_blank (s : string) : blank s = true -> Py.rstrip s = "".
Proof.
  induction s as [| c s IH]; intros H; [reflexivity |].
  simpl in H. apply andb_true_iff in H as [Hc Hs]. simpl.
  rewrite (IH Hs), Hc. reflexivity.
Qed.

Lemma split_ws_from_blank (s : string) :
  Py.split_ws_from "" s = [] -> blank s = true.
Proof.
  intros H. destruct (blank s) eqn:Hb; [reflexivity |].
  apply split_ws_not_blank in Hb. contradiction.
Qed.

Lemma contains_char_app (c : ascii) (a b : string) :
  Py.contains (String c "") (a ++ b)
  = Py.contains (String c "") a || Py.contains (String c "") b.
Proof.
  induction a as [| x a IH]; [reflexivity |].
  change (String x a ++ b) with (String x (a ++ b)).
  rewrite !contains_char_cons, IH, orb_assoc. reflexivity.
Qed.

Lemma count_app (c : ascii) (a b : string) :
  Py.count c (a ++ b) = Py.count c a + Py.count c b.
Proof. induction a as [| x a IH]; simpl; [reflexivity | rewrite IH; lia]. Qed.

Lemma solid_count_space (s : string) : solid s = true -> Py.count " " s = 0.
Proof.
  induction s as [| a s IH]; intros H; [reflexivity |].
  simpl in H. apply andb_true_iff in H as [Ha Hs]. apply negb_true_iff in Ha.
  simpl. rewrite (IH Hs). destruct (Ascii.eqb_spec a " ") as [-> | _]; [discriminate | reflexivity].
Qed.

(** A pending token and the line after it give one token only when the rest
    of that token is followed by nothing but blanks. *)
Lemma split_ws_from_single_pending (s : string) :
  forall tok t,
    tok <> "" -> Py.split_ws_from tok s = [t] ->
    exists a b, s = a ++ b /\ solid a = true /\ blank b = true /\ t = tok ++ a.
Proof.
  induction s as [| c s IH]; intros tok t Htok H.
  - cbn [Py.split_ws_from] in H. rewrite eqb_empty_false in H by exact Htok.
    injection H as <-. exists "", "". repeat split. symmetry. apply append_empty_r.
  - rewrite split_ws_from_cons in H. destruct (Py.isspace c) eqn:Hc.
    + rewrite eqb_empty_false in H by exact Htok. injection H as <- H.
      apply split_ws_from_blank in H.
      exists "", (String c s). simpl. rewrite Hc, H. repeat split.
      symmetry. apply append_empty_r.
    + apply IH in H.
      2:{ intros H'. apply append_empty in H' as [_ H']. discriminate. }
      destruct H as (a & b & -> & Ha & Hb & ->).
      exists (String c a), b. simpl. rewrite Hc, Ha, append_assoc. auto.
Qed.

(** A line with exactly one token is that token between blanks. *)
Lemma split_ws_single (s t : string) :
  Py.split_ws s = [t] ->
  exists w b, s = w ++ t ++ b /\ blank w = true /\ blank b = true /\ token t.
Proof.
  unfold Py.split_ws. induction s as [| c s IH]; intros H; [discriminate |].
  rewrite split_ws_from_cons in H. destruct (Py.isspace c) eqn:Hc.
  - cbn in H. destruct (IH H) as (w & b & -> & Hw & Hb & Ht).
    exists (String c w), b. simpl. rewrite Hc, Hw. auto.
  - apply split_ws_from_single_pending in H; [| discriminate].
    destruct H as (a & b & -> & Ha & Hb & ->).
    exists "", b. split; [reflexivity |]. split; [reflexivity |]. split; [exact Hb |].
    split; [simpl; rewrite Hc, Ha; reflexivity | discriminate].
Qed.

Lemma lstrip_app_blank (w s : string) : blank w = true -> Py.lstrip (w ++ s) = Py.lstrip s.
Proof.
  induction w as [| c w IH]; intros H; [reflexivity |].
  simpl in H. apply andb_true_iff in H as [Hc Hw]. simpl. rewrite Hc. apply IH, Hw.
Qed.

Lemma rstrip_token_blank (t b : string) :
  token t -> blank b = true -> Py.rstrip (t ++ b) = t.
Proof.
  intros [Hsolid Hne] Hb. induction t as [| c t IH]; [congruence |].
  simpl in Hsolid. apply andb_true_iff in Hsolid as [Hc Ht]. apply negb_true_iff in Hc.
  change (String c t ++ b) with (String c (t ++ b)). cbn [Py.rstrip].
  destruct t as [| c' t'].
  - simpl. rewrite (rstrip_blank b Hb), Hc. reflexivity.
  - rewrite IH by (assumption || discriminate). reflexivity.
Qed.

Lemma strip_single (w t b : string) :
  blank w = true -> token t -> blank b = true -> Py.strip (w ++ t ++ b) = t.
Proof.
  intros Hw Ht Hb. unfold Py.strip. rewrite lstrip_app_blank by exact Hw.
  assert (Hl : Py.lstrip (t ++ b) = t ++ b).
  { destruct Ht as [Hsolid Hne]. destruct t as [| c t]; [congruence |].
    simpl in Hsolid. apply andb_true_iff in Hsolid as [Hc _].
    apply negb_true_iff in Hc. simpl. rewrite Hc. reflexivity. }
  rewrite Hl. apply rstrip_token_blank; assumption.
Qed.

(** A line that is the single token [user-defined] is taken by the rule for
    single-string properties. *)
Lemma single_token_is_flag (line t : string) :
  Py.split_ws line = [t] -> Py.contains "}" t = false ->
  ((Py.count " " (Py.strip line) =? 0)%nat
   || Re.matches quoted_line_re (Py.strip line))
  && negb (Py.contains "}" line) = true.
Proof.
  intros Hsplit Hbrace.
  destruct (split_ws_single _ _ Hsplit) as (w & b & -> & Hw & Hb & Ht).
  rewrite (strip_single w t b Hw Ht Hb), (solid_count_space t (proj1 Ht)).
  rewrite !contains_char_app, Hbrace.
  rewrite (blank_contains "}" w eq_refl Hw), (blank_contains "}" b eq_refl Hb).
  reflexivity.
Qed.

Lemma blank_is_flag (line : string) :
  blank line = true ->
  ((Py.count " " (Py.strip line) =? 0)%nat
   || Re.matches quoted_line_re (Py.strip line))
  && negb (Py.contains "}" line) = true.
Proof.
  intros H. rewrite (strip_blank line H), (blank_contains "}" line eq_refl H).
  reflexivity.
Qed.

Lemma odd_quotes_not_blank (line : string) : odd_quotes line = true -> blank line = false.
Proof.
  unfold odd_quotes. intros H. destruct (blank line) eqn:Hb; [| reflexivity].
  rewrite (blank_count "034" line eq_refl Hb) in H. discriminate.
Qed.

Lemma lslice_from {A} (l : list A) (i c : nat) (x : A) :
  nth_error l i = Some x -> i <= c ->
  exists others, Py.lslice i (c + 1) l = x :: others.
Proof.
  intros Hx Hc. destruct (skipn_nth_error _ _ _ Hx) as [rest Hrest].
  unfold Py.lslice. rewrite Hrest. replace (c + 1 - i) with (S (c - i)) by lia.
  eexists. reflexivity.
Qed.

(** An exception of the loop of [orchestrate] comes from a recursive call
    or is a structural one: no unpacking, no indexing ever fails in it. *)
Lemma body_loop_raises_structural (rec : list string -> result dict) (key : string)
      (arr : list string) (e : exn) :
  forall fuel i c obj,
    body_loop rec key arr fuel i c obj = inl e ->
    (exists l, l <> [] /\ length l <= length arr /\ rec l = inl e)
    \/ structural_error e.
Proof.
  induction fuel as [| fuel IH]; intros i c obj H; [discriminate |].
  destruct (nth_error arr i) as [line |] eqn:Hline.
  2:{ simpl in H. rewrite Hline in H. discriminate. }
  rewrite (body_loop_pass _ _ _ _ _ _ _ _ Hline) in H.
  destruct (Py.endswith "{" line && negb (length arr =? 1)%nat).
  { destruct (next_index _ _) as [c' |] eqn:Hnext.
    - apply next_index_from in Hnext. cbv zeta in H.
      destruct (lslice_from arr i c' line Hline Hnext) as [others Hslice].
      match type of H with
      | bind (rec ?l) _ = _ =>
          assert (Hlen : length l <= length arr)
            by (rewrite length_map, length_enumerate; unfold remove_indent;
                rewrite length_map; apply length_lslice);
          assert (Hne : l <> [])
            by (rewrite Hslice; discriminate);
          destruct (rec l) as [e' | d] eqn:Hrec
      end.
      + injection H as <-. left. eexists. split; [exact Hne |]. split; [exact Hlen | exact Hrec].
      + apply (IH _ _ _ H).
    - injection H as <-. right. left. eexists. reflexivity. }
  destruct (Py.endswith "{ }" (Py.strip line)); [apply (IH _ _ _ H) |].
  destruct (Py.contains "{" line && Py.contains "}" line && negb (Py.contains dq line))
    eqn:Harray.
  { apply andb_true_iff in Harray as [Harray _].
    apply andb_true_iff in Harray as [Hopen _].
    destruct (obj_to_arr_returns line Hopen) as [a Ha]. rewrite Ha in H.
    apply (IH _ _ _ H). }
  destruct (((Py.count " " (Py.strip line) =? 0)%nat
             || Re.matches quoted_line_re (Py.strip line))
            && negb (Py.contains "}" line)) eqn:Hflag; [apply (IH _ _ _ H) |].
  destruct (count_indent line =? 4)%nat; [| apply (IH _ _ _ H)].
  assert (Hblank : blank line = false).
  { destruct (blank line) eqn:Hb; [| reflexivity].
    rewrite (blank_is_flag line Hb) in Hflag. discriminate. }
  destruct (odd_quotes line) eqn:Hodd.
  { destruct (quote_scan_found arr i c line Hline Hodd) as (c' & Hscan & Hc').
    rewrite Hscan in H. cbv zeta in H.
    destruct (lslice_from arr i c' line Hline Hc') as [others Hslice].
    rewrite Hslice in H. unfold arr_to_multiline_str in H.
    rewrite split_ws_strip in H. pose proof (split_ws_not_blank line Hblank) as Htok.
    destruct (Py.split_ws line) as [| k rest]; [congruence |]. apply (IH _ _ _ H). }
  unfold str_to_obj in H at 1. rewrite !split_ws_strip in H.
  pose proof (split_ws_not_blank line Hblank) as Htok.
  pose proof (split_ws_tokens line) as Htokens.
  destruct (Py.split_ws line) as [| k rest] eqn:Hsplit; [congruence |].
  cbn [bind ret] in H.
  destruct (Py.startswith "gtm monitor external" key); [| apply (IH _ _ _ H)].
  cbn [dict_get] in H. destruct (String.eqb_spec k "user-defined") as [-> | _];
    [| apply (IH _ _ _ H)].
  assert (Hrest : rest <> []).
  { intros ->. rewrite (single_token_is_flag line "user-defined" Hsplit eq_refl) in Hflag.
    discriminate. }
  apply Forall_inv_tail in Htokens.
  assert (Hvalue : exists d, str_to_obj (Py.join " " rest) = inr d).
  { unfold str_to_obj. rewrite split_ws_strip, (split_ws_join_tokens rest Htokens).
    destruct rest; [congruence | eexists; reflexivity]. }
  destruct Hvalue as [d Hd]. rewrite Hd in H.
  unfold update_user_defined in H.
  destruct (match dict_get "user-defined" obj with Some v => v | None => Obj [] end).
  - injection H as <-. right. right. left. reflexivity.
  - injection H as <-. right. right. right. reflexivity.
  - cbn [bind ret] in H. apply (IH _ _ _ H).
Qed.

Lemma orchestrate_rec_raises_structural (depth : nat) :
  forall arr e, arr <> [] -> length arr < depth ->
                orchestrate_rec depth arr = inl e -> structural_error e.
Proof.
  induction depth as [| depth IH]; intros arr e Hne Hlen H; [lia |].
  cbn [orchestrate_rec] in H. destruct arr as [| arr0 rest]; [congruence |].
  destruct (length (arr0 :: rest) <=? 1)%nat eqn:Hle; [discriminate |].
  apply Nat.leb_gt in Hle.
  destruct (is_rule _); [discriminate |].
  destruct (Py.contains "monitor min" _); [discriminate |].
  destruct (_ || _); [discriminate |].
  set (body := Py.lslice 1 (length (arr0 :: rest) - 1) (arr0 :: rest)) in *.
  assert (Hbody : length body < length (arr0 :: rest) - 1).
  { unfold body, Py.lslice. rewrite length_firstn, length_skipn. simpl in *. lia. }
  destruct (body_loop _ _ body _ _ _ _) as [e' | obj] eqn:Hloop; [| discriminate].
  injection H as <-.
  destruct (body_loop_raises_structural _ _ _ _ _ _ _ _ Hloop)
    as [(l & Hl & Hlen' & Hrec) | Hown].
  - apply (IH l e' Hl); [simpl in *; lia | exact Hrec].
  - exact Hown.
Qed.

Lemma bind_limit {A B} (m : result A) (k1 k2 : A -> result B) :
  (forall a, k1 a = k2 a \/ k1 a = inl recursion_error) ->
  (x <- m ;; k1 x) = (x <- m ;; k2 x) \/ (x <- m ;; k1 x) = inl recursion_error.
Proof. destruct m; simpl; auto. Qed.

Lemma bind_limit_same {A B} (m1 m2 : result A) (k : A -> result B) :
  m1 = m2 \/ m1 = inl recursion_error ->
  (x <- m1 ;; k x) = (x <- m2 ;; k x) \/ (x <- m1 ;; k x) = inl recursion_error.
Proof. intros [-> | ->]; [left | right]; reflexivity. Qed.

(** The walk over the body lines with a recursive call that may run out of
    activations: the same result, or the [RecursionError]. *)
Lemma body_loop_limit (rec1 rec2 : list string -> result dict) (key : string)
      (arr : list string) :
  (forall l, rec1 l = rec2 l \/ rec1 l = inl recursion_error) ->
  forall fuel i c obj,
    body_loop rec1 key arr fuel i c obj = body_loop rec2 key arr fuel i c obj
    \/ body_loop rec1 key arr fuel i c obj = inl recursion_error.
Proof.
  intros Hrec. induction fuel as [| fuel IH]; intros i c obj; [left; reflexivity |].
  destruct (nth_error arr i) as [line |] eqn:Hline.
  2: { left. simpl. rewrite Hline. reflexivity. }
  rewrite !(body_loop_pass _ _ _ _ _ _ _ _ Hline).
  destruct (Py.endswith "{" line && negb (length arr =? 1)%nat).
  { destruct (next_index _ _) as [c' |]; [| left; reflexivity]. cbv zeta.
    destruct (Hrec (map (fun jl => if (snd jl =? "    {")%string
                                   then Py.str_of_nat (fst jl) ++ " " ++ snd jl
                                   else snd jl)
                        (Py.enumerate 0 (remove_indent (Py.lslice i (c' + 1) arr)))))
      as [E | E]; rewrite E.
    - apply bind_limit. intros d. apply IH.
    - right. reflexivity. }
  destruct (Py.endswith "{ }" (Py.strip line)); [apply IH |].
  destruct (Py.contains "{" line && Py.contains "}" line && negb (Py.contains dq line)).
  { apply bind_limit. intros a. apply IH. }
  destruct (((Py.count " " (Py.strip line) =? 0)%nat
             || Re.matches quoted_line_re (Py.strip line))
            && negb (Py.contains "}" line)); [apply IH |].
  destruct (count_indent line =? 4)%nat; [| apply IH].
  destruct (odd_quotes line).
  { destruct (quote_scan arr i c) as [c' |]; [| left; reflexivity]. cbv zeta.
    apply bind_limit. intros d. apply IH. }
  apply bind_limit. intros tmp.
  destruct (Py.startswith "gtm monitor external" key); [| apply IH].
  destruct (dict_get "user-defined" tmp); [| apply IH].
  apply bind_limit. intros obj'. apply IH.
Qed.

(** With fewer activations allowed, [orchestrate] gives the same result or
    raises the [RecursionError]. *)
Lemma orchestrate_rec_limit (depth1 : nat) :
  forall depth2 arr,
    depth1 <= depth2 ->
    orchestrate_rec depth1 arr = orchestrate_rec depth2 arr
    \/ orchestrate_rec depth1 arr = inl recursion_error.
Proof.
  induction depth1 as [| depth1 IH]; intros depth2 arr Hle; [right; reflexivity |].
  destruct depth2 as [| depth2]; [lia |].
  cbn [orchestrate_rec]. destruct arr as [| arr0 tail]; [left; reflexivity |].
  destruct (length (arr0 :: tail) <=? 1)%nat; [left; reflexivity |].
  destruct (is_rule (get_title arr0)); [left; reflexivity |].
  destruct (Py.contains "monitor min" (get_title arr0)); [left; reflexivity |].
  destruct (Py.contains "cli script" (get_title arr0)
            || Py.contains "sys crypto cert-order-manager" (get_title arr0));
    [left; reflexivity |].
  apply bind_limit_same.
  apply body_loop_limit. intros l. apply IH. lia.
Qed.

(** Under any limit [orchestrate] gives the result it gives when the limit
    is not reached, or raises the [RecursionError]. *)
Lemma orchestrate_limit (limit : nat) (arr : list string) :
  orchestrate_rec limit arr = orchestrate arr
  \/ orchestrate_rec limit arr = inl recursion_error.
Proof.
  destruct (orchestrate_rec_limit limit (Nat.max limit (S (length arr))) arr
              (Nat.le_max_l _ _)) as [E | E]; [| right; exact E].
  left. rewrite E. apply orchestrate_any_depth. lia.
Qed.

Lemma map_result_limit (limit : nat) (groups : list (list string)) :
  map_result (orchestrate_rec limit) groups = map_result orchestrate groups
  \/ map_result (orchestrate_rec limit) groups = inl recursion_error.
Proof.
  induction groups as [| g groups IH]; [left; reflexivity |].
  cbn [map_result]. destruct (orchestrate_limit limit g) as [E | E]; rewrite E.
  - apply bind_limit. intros d. apply bind_limit_same. exact IH.
  - right. reflexivity.
Qed.

Lemma parse_file_limit (limit : nat) (self : parser) (value : string) :
  parse_file_within limit self value = parse_file self value
  \/ parse_file_within limit self value = inl recursion_error.
Proof.
  unfold parse_file_within, parse_file.
  apply bind_limit. intros p. apply bind_limit. intros groups.
  apply bind_limit_same. apply map_result_limit.
Qed.

Lemma parse_loop_limit (limit : nat) (files : list (string * string)) :
  forall self data,
    parse_loop_within limit self data files = parse_loop self data files
    \/ parse_loop_within limit self data files = inl recursion_error.
Proof.
  induction files as [| [key value] files IH]; intros self data; [left; reflexivity |].
  cbn [parse_loop_within parse_loop]. destruct (skipped key); [apply IH |].
  destruct (parse_file_limit limit self value) as [E | E]; rewrite E.
  - apply bind_limit. intros p. apply IH.
  - right. reflexivity.
Qed.

(** Under any limit [parse_files] does what it does when the limit is not
    reached, or raises the wrapped [RecursionError]. *)
Lemma parse_files_limit (limit : nat) (self : parser) (files : list (string * string)) :
  parse_files_within limit self files = parse_files self files
  \/ parse_files_within limit self files
     = inl (Exception (error_prefix ++ str_exn recursion_error)).
Proof.
  unfold parse_files_within, parse_files.
  destruct (parse_loop_limit limit files self []) as [E | E]; rewrite E; auto.
Qed.

(** X22: the limit that the interpreter puts on nested calls changes a
    result in one way only.  Under any limit [orchestrate] returns or
    raises what it does when the limit is not reached, or raises
    [RecursionError]; a limit above the number of lines of the group is not
    reached.  [parse_files] likewise does what it does when the limit is not
    reached, or raises the [RecursionError] wrapped like any other
    exception. *)
Theorem recursion_limit_only_raises (limit : nat) (self : parser)
        (files : list (string * string)) (arr : list string) :
  (orchestrate_rec limit arr = orchestrate arr
   \/ orchestrate_rec limit arr = inl recursion_error)
  /\ (length arr < limit -> orchestrate_rec limit arr = orchestrate arr)
  /\ (parse_files_within limit self files = parse_files self files
      \/ parse_files_within limit self files
         = inl (Exception (error_prefix ++ str_exn recursion_error))).
Proof.
  split; [apply orchestrate_limit |].
  split; [apply orchestrate_any_depth | apply parse_files_limit].
Qed.

Lemma recursion_limit_only_raises_witness :
  orchestrate_rec 8 (firstn 7 two_pools) = orchestrate (firstn 7 two_pools)
  /\ orchestrate_rec 2 (firstn 7 two_pools) = inl recursion_error.
Proof.
  split.
  - apply (proj1 (proj2 (recursion_limit_only_raises 8 new_parser []
                           (firstn 7 two_pools)))).
    simpl. lia.
  - reflexivity.
Defined.

(** X10: on a group that is not empty, whatever the number of nested
    activations the interpreter allows, [orchestrate] raises nothing but
    the [ValueError] that names a nested object's header without closing
    line, the [AttributeError] of an [update] on a [user-defined] value that
    is a string or a list, and the interpreter's [RecursionError]; the last
    one only when the limit is not above the number of lines of the group.
    Neither the unpacking of a line's tokens, nor an index, nor the scan for
    a closing quote ever raises. *)
Theorem orchestrate_raises_structural (limit : nat) (arr : list string) (e : exn) :
  arr <> [] -> orchestrate_rec limit arr = inl e ->
  (structural_error e \/ exists msg, e = RecursionError msg)
  /\ (length arr < limit -> structural_error e).
Proof.
  intros Hne Hraise. split.
  - destruct (orchestrate_limit limit arr) as [E | E]; rewrite E in Hraise.
    + left. apply (orchestrate_rec_raises_structural (S (length arr)) arr);
        [exact Hne | lia | exact Hraise].
    + right. injection Hraise as <-. eexists. reflexivity.
  - intros Hlimit.
    apply (orchestrate_rec_raises_structural limit arr); assumption.
Qed.

Lemma orchestrate_raises_structural_witness :
  ((structural_error (missing_brace_error "    members {")
    \/ exists msg, missing_brace_error "    members {" = RecursionError msg)
   /\ (length misindented_close < 6 -> structural_error (missing_brace_error "    members {")))
  /\ ((structural_error recursion_error \/ exists msg, recursion_error = RecursionError msg)
      /\ (length (hd [] pools_with_quoted_braces) < 1 -> structural_error recursion_error)).
Proof.
  split.
  - apply (orchestrate_raises_structural 6 misindented_close);
      [discriminate | reflexivity].
  - apply (orchestrate_raises_structural 1 (hd [] pools_with_quoted_braces));
      [discriminate | reflexivity].
Defined.

Lemma read_line_raises (st : line_state) (line : string) (e : exn) :
  read_line st line = inl e -> e = substring_not_found.
Proof.
  unfold read_line. destruct (mark_line (irule st) line) as [line' irule'].
  destruct (_ && _); [discriminate |].
  destruct (Py.startswith "gtm topology ldns:" line').
  - destruct (Py.find "ldns:" line'); [| intros H; injection H as <-; reflexivity].
    destruct (Py.find "server:" line'); [| intros H; injection H as <-; reflexivity].
    destruct (Py.find "{" line'); [discriminate | intros H; injection H as <-; reflexivity].
  - destruct (in_topology st); [destruct (line' =? "}")%string |]; discriminate.
Qed.

Lemma for_each_raises {S A} (body : S -> A -> result S) (P : exn -> Prop) :
  (forall s x e, body s x = inl e -> P e) ->
  forall l s e, for_each body l s = inl e -> P e.
Proof.
  intros Hbody. induction l as [| x l IH]; intros s e H; [discriminate |].
  simpl in H. destruct (body s x) as [e' | s'] eqn:Hx.
  - injection H as <-. apply (Hbody _ _ _ Hx).
  - apply (IH _ _ H).
Qed.

Lemma preprocess_raises (self : parser) (value : string) (e : exn) :
  preprocess self value = inl e -> e = substring_not_found.
Proof.
  unfold preprocess.
  destruct (for_each read_line _ _) as [e' | st] eqn:Hloop; [| discriminate].
  intros H. injection H as <-.
  apply (for_each_raises read_line _ read_line_raises _ _ _ Hloop).
Qed.

Lemma map_result_raises_inv {A B} (f : A -> result B) (l : list A) (e : exn) :
  map_result f l = inl e -> exists x, In x l /\ f x = inl e.
Proof.
  induction l as [| y l IH]; intros H; [discriminate |].
  simpl in H. destruct (f y) as [e' | b] eqn:Hy.
  - injection H as <-. exists y. split; [left; reflexivity | exact Hy].
  - simpl in H. destruct (map_result f l) as [e' | bs]; [| discriminate].
    injection H as <-. destruct (IH eq_refl) as (x & Hin & Hx).
    exists x. split; [right; exact Hin | exact Hx].
Qed.

Lemma file_objects_raises (value : string) (e : exn) :
  file_objects value = inl e -> file_error e.
Proof.
  unfold file_objects. rewrite file_objects_parse_file.
  destruct (preprocess new_parser value) as [e' | p] eqn:Hp.
  { intros H. injection H as <-. left. apply (preprocess_raises _ _ _ Hp). }
  destruct (group_objects (snd p)) as [e' | groups] eqn:Hg.
  { intros H. injection H as <-. right. left. apply (group_objects_raises _ _ Hg). }
  destruct (map_result orchestrate groups) as [e' | group_arr] eqn:Hm; [| discriminate].
  intros H. injection H as <-. right. right.
  destruct (map_result_raises_inv _ _ _ Hm) as (g & Hin & Hbuild).
  apply (orchestrate_rec_raises_structural (S (length g)) g);
    [| apply Nat.lt_succ_diag_r | exact Hbuild].
  pose proof (groups_not_empty (snd p) groups Hg) as Hheaded.
  rewrite Forall_forall in Hheaded. destruct (Hheaded g Hin) as (h & t & ->).
  discriminate.
Qed.

Lemma parse_files_raises (self : parser) (files : list (string * string)) (e : exn) :
  parse_files self files = inl e ->
  exists cause, e = Exception (error_prefix ++ str_exn cause) /\ file_error cause.
Proof.
  unfold parse_files.
  destruct (parse_loop_outcome files self [])
    as [(self' & doc & Hloop & _) | (cause & k & v & _ & _ & Hcause & Hloop)];
    rewrite Hloop; [discriminate |].
  intros H. injection H as <-. exists cause. split; [reflexivity |].
  apply (file_objects_raises v cause Hcause).
Qed.

(** X11: every failure of [parse_files] is one [Exception] whose message is
    the fixed prefix followed by one of five messages: [substring not found]
    (a topology directive without [server:] or opening brace),
    [list index out of range] (a root object that is not closed), the
    message that names the header of a nested object without closing line,
    the message of an [update] on a string or a list, or the interpreter's
    message that starts with [maximum recursion depth exceeded] (objects
    nested deeper than the interpreter allows).  When the limit is not
    reached, it is one of the first four. *)
Theorem parse_files_error_messages (limit : nat) (self : parser)
        (files : list (string * string)) (e : exn) :
  (parse_files_within limit self files = inl e ->
   exists cause,
     e = Exception (error_prefix ++ str_exn cause)
     /\ (file_error cause
         \/ exists msg, cause = RecursionError msg
                        /\ Py.startswith "maximum recursion depth exceeded" msg = true))
  /\ (parse_files self files = inl e ->
      exists cause, e = Exception (error_prefix ++ str_exn cause) /\ file_error cause).
Proof.
  split; [| apply parse_files_raises].
  destruct (parse_files_limit limit self files) as [E | E]; rewrite E; intros H.
  - destruct (parse_files_raises self files e H) as (cause & He & Hcause).
    exists cause. auto.
  - injection H as <-. exists recursion_error. split; [reflexivity |].
    right. eexists. split; reflexivity.
Qed.

Lemma parse_files_error_messages_witness :
  (exists cause,
      Exception (error_prefix ++ "maximum recursion depth exceeded")
      = Exception (error_prefix ++ str_exn cause)
      /\ (file_error cause
          \/ exists msg, cause = RecursionError msg
                         /\ Py.startswith "maximum recursion depth exceeded" msg = true))
  /\ (exists cause,
         Exception (error_prefix ++ "Missing or mis-indented '}' for line: '    members {'")
         = Exception (error_prefix ++ str_exn cause)
         /\ file_error cause).
Proof.
  split.
  - apply (proj1 (parse_files_error_messages 2 new_parser
                    [("bigip.conf", text_of two_pools)] _)).
    vm_compute. reflexivity.
  - apply (proj2 (parse_files_error_messages 0 new_parser
                    [("bigip.conf", text_of misindented_close)] _)).
    vm_compute. reflexivity.
Defined.

(* ================================================================== *)
(** ** All or nothing (C7) *)
(* ================================================================== *)

Lemma last_binding_app {V} (name : string) (l1 l2 : list (string * V)) :
  last_binding name (l1 ++ l2)%list
  = match last_binding name l2 with
    | Some v => Some v
    | None => last_binding name l1
    end.
Proof.
  induction l1 as [| [k v] l1 IH]; simpl.
  - destruct (last_binding name l2); reflexivity.
  - rewrite IH. destruct (last_binding name l2); reflexivity.
Qed.

(** After [d.update(d2)] a name has its last binding in [d2], or else the
    value it had in [d]. *)
Lemma dict_get_update {V} (name : string) (d2 d : list (string * V)) :
  dict_get name (dict_update d d2)
  = match last_binding name d2 with
    | Some v => Some v
    | None => dict_get name d
    end.
Proof.
  unfold dict_update. revert d. induction d2 as [| [k v] d2 IH]; intros d; [reflexivity |].
  cbn [fold_left fst snd last_binding]. rewrite IH.
  destruct (last_binding name d2); [reflexivity |].
  rewrite dict_get_set. destruct (k =? name)%string; reflexivity.
Qed.

Lemma last_binding_absent {V} (name : string) (d : list (string * V)) :
  ~ In name (keys d) -> last_binding name d = None.
Proof.
  induction d as [| [k v] d IH]; intros Hnot; [reflexivity |].
  simpl in *. rewrite IH by tauto.
  destruct (k =? name)%string eqn:E; [| reflexivity].
  apply String.eqb_eq in E. tauto.
Qed.

(** In a dictionary, whose keys are distinct, the last binding of a name is
    its only one. *)
Lemma last_binding_nodup {V} (name : string) (d : list (string * V)) :
  NoDup (keys d) -> last_binding name d = dict_get name d.
Proof.
  induction d as [| [k v] d IH]; intros Hnd; [reflexivity |].
  simpl in *. inversion Hnd as [| ? ? Hnot Hrest]; subst.
  destruct (k =? name)%string eqn:E.
  - apply String.eqb_eq in E. subst k. rewrite (last_binding_absent name d Hnot). reflexivity.
  - rewrite (IH Hrest). destruct (dict_get name d); reflexivity.
Qed.

Lemma merge_from_get (name : string) (ds : list dict) :
  forall acc : dict,
    dict_get name (fold_left (fun acc d => dict_update acc d) ds acc)
    = match last_binding name (List.concat ds) with
      | Some v => Some v
      | None => dict_get name acc
      end.
Proof.
  induction ds as [| d ds IH]; intros acc; [reflexivity |].
  cbn [fold_left List.concat]. rewrite IH, last_binding_app, dict_get_update.
  destruct (last_binding name (List.concat ds)); reflexivity.
Qed.

Lemma merge_groups_get (name : string) (group_arr : list dict) :
  dict_get name (merge_groups group_arr) = last_binding name (List.concat group_arr).
Proof.
  unfold merge_groups. rewrite merge_from_get.
  destruct (last_binding name (List.concat group_arr)); reflexivity.
Qed.

(** A list comprehension returns the results of all its elements, or raises
    what its first failing element raises. *)
Lemma map_result_outcome {A B} (f : A -> result B) (l : list A) :
  (exists ys, map_result f l = inr ys /\ Forall2 (fun x y => f x = inr y) l ys)
  \/ (exists done x rest ys e,
         l = (done ++ x :: rest)%list
         /\ Forall2 (fun x y => f x = inr y) done ys
         /\ f x = inl e /\ map_result f l = inl e).
Proof.
  induction l as [| x l IH].
  - left. exists []. split; [reflexivity | constructor].
  - simpl. destruct (f x) as [e | y] eqn:Hx.
    + right. exists [], x, l, [], e. repeat split; auto.
    + destruct IH as [(ys & Hm & Hall) | (done & x' & rest & ys & e & -> & Hall & Hx' & Hm)].
      * left. exists (y :: ys). rewrite Hm. split; [reflexivity |]. constructor; auto.
      * right. exists (x :: done), x', rest, (y :: ys), e. rewrite Hm.
        repeat split; auto.
Qed.

(** The dictionaries of groups that are built hold one entry each. *)
Lemma built_entries (groups : list (list string)) (ds : list dict) :
  Forall2 (fun g d => orchestrate g = inr d) groups ds ->
  exists entries,
    Forall2 (fun g entry => orchestrate g = inr [entry]) groups entries
    /\ List.concat ds = entries.
Proof.
  induction 1 as [| g d groups ds Hg _ (entries & Hall & Hcat)].
  - exists []. split; [constructor | reflexivity].
  - destruct (orchestrate_singleton g d Hg) as (header & tail & v & _ & ->).
    exists ((get_title header, v) :: entries). split; [constructor; auto |].
    simpl. rewrite Hcat. reflexivity.
Qed.

(** One file: its entries and the dictionary merged from them, or its
    exception. *)
Lemma parse_file_outcome (self : parser) (value : string) :
  (exists self' d entries,
      parse_file self value = inr (self', d)
      /\ file_entries value entries
      /\ NoDup (keys d)
      /\ forall name, dict_get name d = last_binding name entries)
  \/ (exists e, parse_file self value = inl e /\ file_raises value e).
Proof.
  rewrite file_objects_parse_file. unfold file_entries, file_raises.
  destruct (preprocess new_parser value) as [e | [self' lines]] eqn:Hp.
  { right. exists e. auto. }
  cbn [fst snd]. destruct (group_objects lines) as [e | groups] eqn:Hg.
  { right. exists e. split; [reflexivity |]. right. left. exists self', lines. auto. }
  destruct (map_result_outcome orchestrate groups)
    as [(ds & Hm & Hall) | (done & g & rest & ds & e & -> & Hall & Hx & Hm)]; rewrite Hm.
  - left. destruct (built_entries groups ds Hall) as (entries & Hentries & Hcat).
    exists self', (merge_groups ds), entries. split; [reflexivity |].
    split; [exists self', lines, groups; auto |].
    split; [apply merge_groups_nodup |].
    intros name. rewrite merge_groups_get, Hcat. reflexivity.
  - right. exists e. split; [reflexivity |]. right. right.
    destruct (built_entries done ds Hall) as (entries & Hentries & _).
    exists self', lines, done, g, rest, entries. auto.
Qed.

(** The loop over the files: every file read gives its entries and the
    document binds each name to its last entry, or the loop raises the
    exception of the first file that has one. *)
Lemma parse_loop_complete (files : list (string * string)) :
  forall (self : parser) (data : dict),
    (exists self' doc entries,
        parse_loop self data files = inr (self', doc)
        /\ Forall2 (fun file es => file_entries (snd file) es) (parsed_files files) entries
        /\ (NoDup (keys data) -> NoDup (keys doc))
        /\ forall name,
            dict_get name doc
            = match last_binding name (List.concat entries) with
              | Some v => Some v
              | None => dict_get name data
              end)
    \/ (exists e before key value after,
           files = (before ++ (key, value) :: after)%list
           /\ Forall (fun file => skipped (fst file) = true
                                  \/ exists es, file_entries (snd file) es) before
           /\ skipped key = false
           /\ file_raises value e
           /\ parse_loop self data files = inl e).
Proof.
  induction files as [| [key value] files IH]; intros self data.
  - left. exists self, data, []. repeat split; auto.
  - cbn [parse_loop parsed_files filter fst]. destruct (skipped key) eqn:Hskip; cbn [negb].
    + destruct (IH self data)
        as [(self' & doc & entries & Hloop & Hall & Hnd & Hget)
           | (e & before & k & v & after & -> & Hbefore & Hk & Hv & Hloop)].
      * left. exists self', doc, entries. auto.
      * right. exists e, ((key, value) :: before), k, v, after.
        repeat split; auto.
    + destruct (parse_file_outcome self value)
        as [(self1 & d & es & Hfile & Hes & Hnd & Hget) | (e & Hfile & He)];
        rewrite Hfile; cbn [bind fst snd].
      * destruct (IH self1 (dict_update data d))
          as [(self' & doc & entries & Hloop & Hall & Hnd' & Hget')
             | (e & before & k & v & after & -> & Hbefore & Hk & Hv & Hloop)].
        -- left. exists self', doc, (es :: entries). split; [exact Hloop |].
           split; [constructor; auto |].
           split; [intros Hdata; apply Hnd', dict_update_nodup; exact Hdata |].
           intros name. rewrite Hget'. cbn [List.concat].
           rewrite last_binding_app, dict_get_update.
           rewrite (last_binding_nodup name d Hnd), Hget.
           destruct (last_binding name (List.concat entries)); reflexivity.
        -- right. exists e, ((key, value) :: before), k, v, after.
           repeat split; auto. constructor; [| exact Hbefore].
           right. exists es. exact Hes.
      * right. exists e, [], key, value, files. repeat split; auto.
Qed.

(** C7: [parse_files] returns a document that is complete, or raises one
    exception and returns nothing.  Complete: every file that is not skipped
    went through preprocessing, grouping and building, the keys of the
    document are distinct, and each name is bound to the value of the last
    root object of that name, in the order of the files and of the groups
    of each file.  Otherwise the message of the exception is the fixed
    prefix followed by the message of the exception that the first failing
    file raised, in preprocessing, in grouping, or in building its first
    group that cannot be built.  When a stage raises on some file that is
    not skipped, it is this exception that comes out and no document is
    returned.  An interpreter that limits the nesting changes nothing to
    this: the outcome is the same, or the wrapped [RecursionError]. *)
Theorem parse_files_all_or_nothing (self : parser) (files : list (string * string)) :
  ((exists doc entries,
       parse_files self files = inr doc
       /\ Forall2 (fun file es => file_entries (snd file) es) (parsed_files files) entries
       /\ NoDup (keys doc)
       /\ forall name, dict_get name doc = last_binding name (List.concat entries))
   \/ (exists e before key value after,
          files = (before ++ (key, value) :: after)%list
          /\ Forall (fun file => skipped (fst file) = true
                                 \/ exists es, file_entries (snd file) es) before
          /\ skipped key = false
          /\ file_raises value e
          /\ parse_files self files = inl (Exception (error_prefix ++ str_exn e))))
  /\ (forall key value e,
         In (key, value) files -> skipped key = false -> file_raises value e ->
         exists e' before key' value' after,
           files = (before ++ (key', value') :: after)%list
           /\ Forall (fun file => skipped (fst file) = true
                                  \/ exists es, file_entries (snd file) es) before
           /\ skipped key' = false
           /\ file_raises value' e'
           /\ parse_files self files = inl (Exception (error_prefix ++ str_exn e')))
  /\ (forall limit,
         parse_files_within limit self files = parse_files self files
         \/ parse_files_within limit self files
            = inl (Exception (error_prefix ++ str_exn recursion_error))).
Proof.
  split; [| split; [| intros limit; apply parse_files_limit]].
  - unfold parse_files.
    destruct (parse_loop_complete files self [])
      as [(self' & doc & entries & Hloop & Hall & Hnd & Hget)
         | (e & before & k & v & after & Hfiles & Hbefore & Hk & Hv & Hloop)];
      rewrite Hloop.
    + left. exists doc, entries. split; [reflexivity |]. split; [exact Hall |].
      split; [apply Hnd; constructor |].
      intros name. rewrite (Hget name).
      destruct (last_binding name (List.concat entries)); reflexivity.
    + right. exists e, before, k, v, after. auto.
  - intros key value e Hin Hskip Hraises.
    destruct (file_fails_raises value) as [e0 He0].
    { destruct Hraises as [Hp | [(s & lines & Hp & Hg)
                                | (s & lines & built & g & rest & es & Hp & Hg & _ & Ho)]].
      - left. exists e. exact Hp.
      - right. left. exists s, lines, e. auto.
      - right. right. exists s, lines, (built ++ g :: rest)%list, g, e.
        repeat split; auto. apply in_elt. }
    unfold parse_files.
    destruct (parse_loop_complete files self [])
      as [(self' & doc & entries & Hloop & _)
         | (e' & before & k & v & after & Hfiles & Hbefore & Hk & Hv & Hloop)].
    + exfalso.
      destruct (parse_loop_outcome files self [])
        as [(self1 & doc1 & _ & Hall) | (e' & k & v & _ & _ & _ & Hloop')];
        [| congruence].
      rewrite Forall_forall in Hall.
      destruct (Hall _ Hin) as [Hs | Hp]; simpl in *; [congruence |].
      destruct Hp as (s & lines & groups & group_arr & Hp & Hg & Hm).
      unfold file_objects in He0. rewrite file_objects_parse_file, Hp in He0.
      simpl in He0. rewrite Hg, Hm in He0. discriminate.
    + rewrite Hloop. exists e', before, k, v, after. auto.
Qed.

Lemma parse_files_all_or_nothing_witness :
  (exists doc,
      parse_files new_parser three_files = inr doc
      /\ keys doc = ["ltm pool p"; "ltm node n"]
      /\ dict_get "ltm pool p" doc = Some (Obj [("monitor", Str "tcp")]))
  /\ (exists e,
         parse_files new_parser [("bigip.conf", text_of unclosed_root)]
         = inl (Exception (error_prefix ++ str_exn e))).
Proof.
  split.
  - destruct (proj1 (parse_files_all_or_nothing new_parser three_files))
      as [(doc & entries & Hdoc & Hentries & _ & Hget)
         | (e & _ & _ & _ & _ & _ & _ & _ & _ & Hraise)];
      [| vm_compute in Hraise; discriminate].
    exists doc. split; [exact Hdoc |].
    split; [vm_compute in Hdoc; injection Hdoc as <-; reflexivity |].
    rewrite Hget.
    inversion Hentries as [| ? es1 ? rest1 H1 Hrest1]; subst.
    inversion Hrest1 as [| ? es2 ? rest2 H2 Hrest2]; subst.
    inversion Hrest2; subst.
    destruct H1 as (s1 & lines1 & groups1 & Hp1 & Hg1 & Hb1).
    destruct H2 as (s2 & lines2 & groups2 & Hp2 & Hg2 & Hb2).
    vm_compute in Hp1. injection Hp1 as <- <-.
    vm_compute in Hg1. injection Hg1 as <-.
    vm_compute in Hp2. injection Hp2 as <- <-.
    vm_compute in Hg2. injection Hg2 as <-.
    inversion Hb1 as [| ? x1 ? r1 Hx1 Hr1]; subst. inversion Hr1; subst.
    inversion Hb2 as [| ? x2 ? r2 Hx2 Hr2]; subst.
    inversion Hr2 as [| ? x3 ? r3 Hx3 Hr3]; subst. inversion Hr3; subst.
    vm_compute in Hx1. injection Hx1 as <-.
    vm_compute in Hx2. injection Hx2 as <-.
    vm_compute in Hx3. injection Hx3 as <-.
    reflexivity.
  - destruct (proj1 (proj2 (parse_files_all_or_nothing new_parser
                              [("bigip.conf", text_of unclosed_root)]))
                "bigip.conf" (text_of unclosed_root) index_error)
      as (e & _ & _ & _ & _ & _ & _ & _ & _ & Hraise).
    + left. reflexivity.
    + reflexivity.
    + right. left. exists new_parser, unclosed_root. split; reflexivity.
    + exists e. exact Hraise.
Defined.

(* ================================================================== *)
(** ** Further properties: how the objects are merged *)
(* ================================================================== *)

Lemma map_result_app {A B} (f : A -> result B) (l1 l2 : list A) (ys : list B) :
  map_result f (l1 ++ l2)%list = inr ys ->
  exists ys1 ys2, ys = (ys1 ++ ys2)%list
                  /\ map_result f l1 = inr ys1 /\ map_result f l2 = inr ys2.
Proof.
  revert ys. induction l1 as [| x l1 IH]; intros ys H.
  - exists [], ys. auto.
  - simpl in H. destruct (f x) as [e | y] eqn:Hx; [discriminate |]. simpl in H.
    destruct (map_result f (l1 ++ l2)%list) as [e | ys'] eqn:Hrest; [discriminate |].
    injection H as <-. destruct (IH ys' eq_refl) as (ys1 & ys2 & -> & H1 & H2).
    exists (y :: ys1), ys2. simpl. rewrite Hx, H1. auto.
Qed.

Lemma merge_from_get_other (name : string) (ds : list dict) :
  Forall (fun d => dict_get name d = None) ds ->
  forall acc : dict,
    dict_get name (fold_left (fun acc d => dict_update acc d) ds acc) = dict_get name acc.
Proof.
  induction 1 as [| d ds Hd _ IH]; intros acc; [reflexivity |].
  simpl. rewrite IH. apply dict_get_update_other. exact Hd.
Qed.

Lemma later_titles_silent (name : string) (groups : list (list string)) (ds : list dict) :
  map_result orchestrate groups = inr ds ->
  Forall (fun g => get_title (hd "" g) <> name) groups ->
  Forall (fun d => dict_get name d = None) ds.
Proof.
  revert ds. induction groups as [| g groups IH]; intros ds H Hall.
  - injection H as <-. constructor.
  - simpl in H. destruct (orchestrate g) as [e | d] eqn:Hg; [discriminate |]. simpl in H.
    destruct (map_result orchestrate groups) as [e | ds'] eqn:Hrest; [discriminate |].
    injection H as <-. inversion Hall as [| ? ? Hne Hall']; subst.
    constructor; [| apply IH; auto].
    destruct (orchestrate_singleton g d Hg) as (header & tail & v & -> & ->).
    simpl in *. apply String.eqb_neq in Hne. rewrite Hne. reflexivity.
Qed.

(** X12: within one file, the value of a root object is the one built from
    the last group with its title: a group that returns the value [v] for
    [name] and is followed by no group of that title decides what the
    file's dictionary holds for [name], whatever came before it. *)
Theorem last_group_wins (before after : list (list string)) (g : list string)
        (group_arr : list dict) (name : string) (v : value) :
  map_result orchestrate (before ++ g :: after)%list = inr group_arr ->
  orchestrate g = inr [(name, v)] ->
  Forall (fun g' => get_title (hd "" g') <> name) after ->
  dict_get name (merge_groups group_arr) = Some v.
Proof.
  intros Hmap Hg Hafter.
  destruct (map_result_app _ _ _ _ Hmap) as (ds1 & ds2 & -> & _ & H2).
  simpl in H2. rewrite Hg in H2. simpl in H2.
  destruct (map_result orchestrate after) as [e | ds_after] eqn:Hrest; [discriminate |].
  injection H2 as <-.
  unfold merge_groups. rewrite fold_left_app. cbn [fold_left].
  rewrite (merge_from_get_other name ds_after (later_titles_silent _ _ _ Hrest Hafter)).
  apply dict_get_update_new.
  - constructor; [intros [] | constructor].
  - simpl. rewrite String.eqb_refl. reflexivity.
Qed.

Lemma last_group_wins_witness :
  dict_get "ltm pool p"
    (merge_groups [[("ltm pool p", Obj [("monitor", Str "http")])];
                   [("ltm pool p", Obj [("monitor", Str "tcp")])]])
  = Some (Obj [("monitor", Str "tcp")]).
Proof.
  apply (last_group_wins [["ltm pool p {"; "    monitor http"; "}"]] []
           ["ltm pool p {"; "    monitor tcp"; "}"]).
  - reflexivity.
  - reflexivity.
  - constructor.
Defined.

Lemma parse_loop_documents (files : list (string * string)) :
  forall (docs : list dict) (self : parser) (data : dict),
    Forall2 (fun file d => file_objects (snd file) = inr d) (parsed_files files) docs ->
    exists self',
      parse_loop self data files
      = inr (self', fold_left (fun acc d => dict_update acc d) docs data).
Proof.
  induction files as [| [key value] files IH]; intros docs self data H.
  - inversion H; subst. exists self. reflexivity.
  - unfold parsed_files in H. cbn [filter fst] in H. cbn [parse_loop].
    destruct (skipped key); cbn [negb] in H.
    + apply (IH docs self data H).
    + inversion H as [| ? d ? docs' Hd Hrest]; subst. simpl in Hd.
      destruct (file_objects_inv self value d Hd) as [self1 Hfile]. rewrite Hfile.
      cbn [bind fst snd fold_left]. apply (IH docs' self1 _ Hrest).
Qed.

(** X13: when every file that is read goes through, the document is the
    empty dictionary updated with the dictionary of each of these files in
    turn, in the order of the mapping. *)
Theorem document_is_successive_update (self : parser) (files : list (string * string))
        (docs : list dict) :
  Forall2 (fun file d => file_objects (snd file) = inr d) (parsed_files files) docs ->
  parse_files self files = inr (fold_left (fun acc d => dict_update acc d) docs []).
Proof.
  intros H. unfold parse_files.
  destruct (parse_loop_documents files docs self [] H) as [self' ->]. reflexivity.
Qed.

Lemma document_is_successive_update_witness :
  parse_files new_parser
    [("bigip_base.conf", first_file); ("x.license", "ignored"); ("bigip.conf", second_file)]
  = inr (fold_left (fun acc d => dict_update acc d)
                   [[("ltm pool p", Obj [("monitor", Str "http")])];
                    [("ltm pool p", Obj [("monitor", Str "tcp")])]] []).
Proof.
  apply document_is_successive_update.
  repeat constructor.
Defined.

(* ================================================================== *)
(** ** Further properties: titles and nested objects *)
(* ================================================================== *)

Lemma title_no_match (c : ascii) (s : string) :
  (c =? "{")%char = false ->
  match s with String c' _ => (c' =? "{")%char = false | EmptyString => True end ->
  Re.match_here (Re.items title_re) (Re.dollar title_re) (String c s) = None.
Proof.
  intros Hc Hs. cbn. unfold Re.chr. rewrite Hc.
  destruct (Py.isspace c); [| reflexivity].
  destruct s as [| c' s']; [reflexivity |]. rewrite Hs. reflexivity.
Qed.

Lemma contains_brace_head (c : ascii) (s : string) :
  Py.contains "{" (String c s) = false ->
  (c =? "{")%char = false /\ Py.contains "{" s = false.
Proof.
  rewrite contains_char_cons. intros H. apply orb_false_iff in H as [Hc Hs].
  rewrite Ascii.eqb_sym. auto.
Qed.

(** Inside a name without opening brace the pattern of [get_title] finds no
    match: the name is kept, and the search goes on in what follows it. *)
Lemma remove_title_name (name suffix : string) :
  Py.contains "{" name = false ->
  Re.remove title_re (name ++ String " " suffix)
  = name ++ Re.remove title_re (String " " suffix).
Proof.
  unfold Re.remove. induction name as [| c name IH]; intros H; [reflexivity |].
  apply contains_brace_head in H as [Hc Hname].
  change (String c name ++ String " " suffix)
    with (String c (name ++ String " " suffix)).
  cbn [Re.remove_from]. rewrite title_no_match.
  - rewrite (IH Hname). reflexivity.
  - exact Hc.
  - destruct name as [| c' name']; [reflexivity |].
    apply contains_brace_head in Hname as [Hc' _]. exact Hc'.
Qed.

(** X14: the title of a header made of a name, a space and an opening brace,
    or of a name followed by the empty-object braces, is the name, for every
    name that is trimmed and holds no opening brace. *)
Theorem title_of_header (name : string) :
  Py.strip name = name ->
  Py.contains "{" name = false ->
  get_title (name ++ " {") = name /\ get_title (name ++ " { }") = name.
Proof.
  intros Hstrip Hbrace. unfold get_title.
  rewrite !(remove_title_name name _ Hbrace).
  change (Re.remove title_re " {") with "".
  change (Re.remove title_re " { }") with "".
  rewrite append_empty_r. auto.
Qed.

Lemma title_of_header_witness :
  get_title ("ltm virtual /Common/vs_http" ++ " {") = "ltm virtual /Common/vs_http"
  /\ get_title ("ltm virtual /Common/vs_http" ++ " { }") = "ltm virtual /Common/vs_http".
Proof. apply title_of_header; reflexivity. Defined.

(** X15: in an object that is built line by line (its title is no rule, no
    [monitor min] list, no [cli script] and no certificate order manager),
    a first body line that ends with an opening brace, in a body of several
    lines none of which is exactly four spaces and a closing brace, makes
    [orchestrate] raise the [ValueError] that names this line: a closing
    brace at another indentation does not close it. *)
Theorem nested_object_without_close (header line last : string) (rest : list string) :
  is_rule (get_title header) = false ->
  Py.contains "monitor min" (get_title header) = false ->
  Py.contains "cli script" (get_title header)
  || Py.contains "sys crypto cert-order-manager" (get_title header) = false ->
  Py.endswith "{" line = true ->
  rest <> [] ->
  Forall (fun l => (l =? "    }")%string = false) (line :: rest) ->
  orchestrate (header :: (line :: rest) ++ [last])%list
  = inl (ValueError ("Missing or mis-indented '}' for line: '" ++ line ++ "'")).
Proof.
  intros Hrule Hmin Hcli Hopen Hrest Hnone. unfold orchestrate.
  cbn [orchestrate_rec].
  replace (length (header :: (line :: rest) ++ [last])%list <=? 1)%nat with false
    by (symmetry; apply Nat.leb_gt; simpl; rewrite length_app; simpl; lia).
  rewrite body_of_group, Hrule, Hmin, Hcli.
  cbn [length].
  rewrite (nested_brace_missing _ _ (line :: rest) (length rest) 0 None [] line);
    auto.
  destruct rest; [congruence | simpl; lia].
Qed.

Lemma nested_object_without_close_witness :
  orchestrate ("ltm pool p {" :: ("    members {" :: ["        /Common/a:80"; "  }"])
                 ++ ["}"])%list
  = inl (ValueError ("Missing or mis-indented '}' for line: '" ++ "    members {" ++ "'")).
Proof.
  apply nested_object_without_close; try reflexivity.
  - discriminate.
  - repeat constructor.
Defined.

(* ================================================================== *)
(** ** Further properties: preprocessing *)
(* ================================================================== *)

Lemma rstrip_empty_blank (s : string) : Py.rstrip s = "" -> blank s = true.
Proof.
  induction s as [| c s IH]; intros H; [reflexivity |].
  cbn [Py.rstrip] in H. destruct (Py.rstrip s) as [| c' r]; [| discriminate].
  simpl. rewrite (IH eq_refl). destruct (Py.isspace c); [reflexivity | discriminate].
Qed.

Lemma rstrip_app (p y : string) :
  blank y = false -> Py.rstrip (p ++ y) = p ++ Py.rstrip y.
Proof.
  intros Hy. induction p as [| c p IH]; [reflexivity |].
  change (String c p ++ y) with (String c (p ++ y)). cbn [Py.rstrip]. rewrite IH.
  destruct (p ++ Py.rstrip y) as [| c' r] eqn:Hr; [| simpl; rewrite Hr; reflexivity].
  apply append_empty in Hr as [_ Hr]. apply rstrip_empty_blank in Hr. congruence.
Qed.

Lemma rstrip_idem (s : string) : Py.rstrip (Py.rstrip s) = Py.rstrip s.
Proof.
  induction s as [| c s IH]; [reflexivity |].
  cbn [Py.rstrip]. destruct (Py.rstrip s) as [| c' r] eqn:Hr.
  - destruct (Py.isspace c) eqn:Hc; [reflexivity |]. simpl. rewrite Hc. reflexivity.
  - change (Py.rstrip (String c (String c' r)))
      with (match Py.rstrip (String c' r) with
            | EmptyString => if Py.isspace c then EmptyString else String c EmptyString
            | String a s0 => String c (String a s0)
            end).
    rewrite IH. reflexivity.
Qed.

Lemma replace_comment_blank (x : string) :
  blank (Py.replace_from "# " "#comment# " 0 x) = true -> blank x = true.
Proof.
  induction x as [| c x IH]; intros H; [reflexivity |].
  cbn [Py.replace_from] in H. destruct (prefix "# " (String c x)).
  - discriminate H.
  - simpl in H. apply andb_true_iff in H as [Hc Hx]. simpl. rewrite Hc. apply IH, Hx.
Qed.

Lemma comment_prefix_form (u : string) :
  prefix "# " u = true -> exists x, u = String "#" (String " " x).
Proof.
  destruct u as [| a [| b x]]; cbn [prefix]; intros H.
  - discriminate H.
  - destruct (ascii_dec "#" a); discriminate H.
  - destruct (ascii_dec "#" a) as [<- |]; [| discriminate H].
    destruct (ascii_dec " " b) as [<- |]; [| discriminate H].
    exists x. reflexivity.
Qed.

Lemma prefix_app (p s : string) : prefix p (p ++ s) = true.
Proof.
  induction p as [| a p IH]; [destruct s; reflexivity |].
  simpl. destruct (ascii_dec a a); [exact IH | congruence].
Qed.

(** A comment line, once marked, starts with the marker and is dropped by
    the final filter. *)
Lemma marked_comment (line : string) :
  comment_line line = true ->
  exists y, Py.replace "# " "#comment# " (Py.strip line) = "#comment# " ++ y
            /\ kept ("#comment# " ++ y) = false.
Proof.
  unfold comment_line, Py.startswith. intros H.
  destruct (comment_prefix_form _ H) as [x Hx].
  exists (Py.replace_from "# " "#comment# " 0 x). rewrite Hx in H |- *.
  split; [unfold Py.replace; cbn [Py.replace_from]; rewrite H; reflexivity |].
  assert (Hblank : blank x = false).
  { destruct (blank x) eqn:Hb; [| reflexivity].
    assert (Hr : Py.rstrip (String "#" (String " " x)) = String "#" (String " " x))
      by (rewrite <- Hx; unfold Py.strip; apply rstrip_idem). cbn [Py.rstrip] in Hr.
    rewrite (rstrip_blank x Hb) in Hr. discriminate Hr. }
  assert (Hy : blank (Py.replace_from "# " "#comment# " 0 x) = false).
  { destruct (blank (Py.replace_from "# " "#comment# " 0 x)) eqn:Hb; [| reflexivity].
    apply replace_comment_blank in Hb. congruence. }
  unfold kept, Py.strip.
  change (Py.lstrip ("#comment# " ++ Py.replace_from "# " "#comment# " 0 x))
    with ("#comment# " ++ Py.replace_from "# " "#comment# " 0 x).
  rewrite (rstrip_app _ _ Hy). unfold Py.startswith. rewrite prefix_app.
  apply andb_false_r.
Qed.

Lemma filter_app_one {A} (p : A -> bool) (l : list A) (x : A) :
  filter p (l ++ [x])%list = (filter p l ++ (if p x then [x] else []))%list.
Proof. rewrite filter_app. reflexivity. Qed.

(** The loop over plain lines: no topology line is made, the lines that are
    kept are appended, and the comments do not reach the final lines. *)
Lemma plain_lines_loop (lines : list string) :
  Forall (fun line => plain_line line = true) lines ->
  forall st,
    topology_arr (self_of st) = [] -> in_topology st = false -> irule st = 0%Z ->
    exists st',
      for_each read_line lines st = inr st'
      /\ topology_arr (self_of st') = []
      /\ topology_count (self_of st') = topology_count (self_of st)
      /\ filter kept (new_file_arr st')
         = (filter kept (new_file_arr st)
            ++ filter (fun l => kept l && negb (comment_line l)) lines)%list.
Proof.
  induction 1 as [| line lines Hline _ IH]; intros st Harr Htopo Hrule.
  - exists st. rewrite app_nil_r. auto.
  - unfold plain_line in Hline. apply andb_true_iff in Hline as [Hline Hflag].
    apply andb_true_iff in Hline as [Hnorule Hnodir].
    apply negb_true_iff in Hnorule, Hnodir, Hflag.
    cbn [for_each]. unfold read_line, mark_line. rewrite Hrule. cbn [Z.eqb].
    fold (comment_line line). destruct (comment_line line) eqn:Hcomment.
    + destruct (marked_comment line Hcomment) as (y & -> & Hdropped).
      assert (Hskip : filter (fun l => kept l && negb (comment_line l)) (line :: lines)
                      = filter (fun l => kept l && negb (comment_line l)) lines)
        by (cbn [filter]; rewrite Hcomment, andb_false_r; reflexivity).
      rewrite Hskip.
      destruct (Py.contains "topology-longest-match" ("#comment# " ++ y)
                && Py.contains "yes" ("#comment# " ++ y)).
      * cbn [bind ret].
        destruct (IH (LineState (set_longest_match_enabled (self_of st) true)
                                (new_file_arr st) (in_topology st) 0%Z))
          as (st' & Hloop & Harr' & Hcount' & Hkept'); auto.
        exists st'. auto.
      * change (Py.startswith "gtm topology ldns:" ("#comment# " ++ y)) with false.
        rewrite Htopo. cbn [bind ret].
        destruct (IH (LineState (self_of st) (new_file_arr st ++ [("#comment# " ++ y)%string])%list
                                false 0%Z))
          as (st' & Hloop & Harr' & Hcount' & Hkept'); auto.
        exists st'. repeat split; auto.
        rewrite Hkept'. cbn [new_file_arr]. rewrite filter_app_one, Hdropped, app_nil_r.
        reflexivity.
    + rewrite Hnorule, Hflag, Hnodir, Htopo. cbn [bind ret].
      destruct (IH (LineState (self_of st) (new_file_arr st ++ [line])%list
                              false 0%Z))
        as (st' & Hloop & Harr' & Hcount' & Hkept'); auto.
      exists st'. repeat split; auto.
      rewrite Hkept'. cbn [new_file_arr filter].
      rewrite filter_app_one, Hcomment, andb_true_r, <- app_assoc.
      destruct (kept line); reflexivity.
Qed.

(** X16: on a file whose lines are all plain (no rule header, no topology
    directive, no longest-match setting), preprocessing does not raise, makes
    no topology object, and returns the lines of the file that are neither
    empty nor comments, unchanged and in their order. *)
Theorem plain_file_preprocess (self : parser) (value : string) :
  Forall (fun line => plain_line line = true) (file_lines value) ->
  exists self',
    preprocess self value
    = inr (self', filter (fun l => kept l && negb (comment_line l)) (file_lines value))
    /\ topology_arr self' = [] /\ topology_count self' = 0.
Proof.
  intros Hplain. unfold preprocess. fold (file_lines value).
  destruct (plain_lines_loop _ Hplain
              (LineState (set_longest_match_enabled
                            (set_topology_count (set_topology_arr self []) 0) false)
                         [] false 0%Z))
    as (st' & Hloop & Harr & Hcount & Hkept); auto.
  rewrite Hloop. cbn [bind ret]. rewrite Harr.
  exists (self_of st'). rewrite Harr, app_nil_r, Hkept. auto.
Qed.

Lemma plain_file_preprocess_witness :
  exists self',
    preprocess new_parser (text_of ["# a comment"; "ltm pool p {"; ""; "    monitor http"; "}"])
    = inr (self', filter (fun l => kept l && negb (comment_line l))
                         (file_lines (text_of ["# a comment"; "ltm pool p {"; "";
                                               "    monitor http"; "}"])))
    /\ topology_arr self' = [] /\ topology_count self' = 0.
Proof. apply plain_file_preprocess. repeat constructor. Defined.

Lemma for_each_invariant {S A} (body : S -> A -> result S) (I : S -> Prop) :
  (forall s x s', body s x = inr s' -> I s -> I s') ->
  forall l s s', for_each body l s = inr s' -> I s -> I s'.
Proof.
  intros Hbody. induction l as [| x l IH]; intros s s' H Hs.
  - injection H as <-. exact Hs.
  - simpl in H. destruct (body s x) as [e | s1] eqn:Hx; [discriminate |].
    apply (IH _ _ H). apply (Hbody _ _ _ Hx Hs).
Qed.

(** What the loop over the lines keeps true of the topology lines: there
    are none, no directive has been counted and none is open; or they start
    with the two opening lines and at least one directive has been
    counted. *)
Lemma read_line_topology (st : line_state) (line : string) (st' : line_state) :
  read_line st line = inr st' ->
  (topology_arr (self_of st) = [] /\ topology_count (self_of st) = 0
   /\ in_topology st = false)
  \/ (exists mid, topology_arr (self_of st) = (topology_opening ++ mid)%list
                  /\ 0 < topology_count (self_of st)) ->
  (topology_arr (self_of st') = [] /\ topology_count (self_of st') = 0
   /\ in_topology st' = false)
  \/ (exists mid, topology_arr (self_of st') = (topology_opening ++ mid)%list
                  /\ 0 < topology_count (self_of st')).
Proof.
  unfold read_line. destruct (mark_line (irule st) line) as [line' irule'].
  destruct (_ && _).
  { intros H. injection H as <-. exact (fun H => H). }
  destruct (Py.startswith "gtm topology ldns:" line').
  { destruct (Py.find "ldns:" line'); [| discriminate].
    destruct (Py.find "server:" line'); [| discriminate].
    destruct (Py.find "{" line'); [| discriminate].
    intros H. injection H as <-. intros Hinv. right.
    cbn [self_of topology_arr topology_count set_topology_arr set_topology_count].
    destruct Hinv as [(Harr & Hcount & _) | (mid & Harr & Hcount)]; rewrite Harr.
    - cbn [self_of topology_arr topology_count set_topology_arr app].
      eexists. split; [reflexivity | lia].
    - change (topology_opening ++ mid)%list
        with ("gtm topology /Common/Shared/topology {" :: "    records {" :: mid).
      cbv iota. rewrite Harr.
      change ("gtm topology /Common/Shared/topology {" :: "    records {" :: mid)
        with (topology_opening ++ mid)%list.
      rewrite <- app_assoc. eexists. split; [reflexivity | lia]. }
  destruct (in_topology st) eqn:Htopo.
  { destruct (line' =? "}")%string; intros H; injection H as <-;
      (intros [(_ & _ & Hno) | (mid & Harr & Hcount)]; [discriminate Hno |]);
      right; cbn; rewrite Harr; (eexists; split; [reflexivity | exact Hcount]). }
  intros H. injection H as <-. exact (fun H => H).
Qed.

(** X17: after the preprocessing of a file, either no topology directive
    was read, and the parser holds no topology line and the count zero; or
    the count is positive and the topology lines are the two opening lines,
    the lines of the records, and the three closing lines with the flag in
    lower case.  In both cases they are the last of the lines handed to the
    grouping. *)
Theorem topology_block_shape (self self' : parser) (value : string) (lines : list string) :
  preprocess self value = inr (self', lines) ->
  ((topology_arr self' = [] /\ topology_count self' = 0)
   \/ (exists mid,
          topology_arr self'
          = (topology_opening ++ mid
             ++ topology_closing (longest_match_enabled self'))%list
          /\ 0 < topology_count self'))
  /\ exists others, lines = (filter kept others ++ filter kept (topology_arr self'))%list.
Proof.
  unfold preprocess.
  destruct (for_each read_line _ _) as [e | st] eqn:Hloop; [discriminate |].
  cbn [bind ret]. intros H. injection H as <- <-.
  assert (Hinv := for_each_invariant read_line
                    (fun st =>
                       (topology_arr (self_of st) = [] /\ topology_count (self_of st) = 0
                        /\ in_topology st = false)
                       \/ (exists mid,
                              topology_arr (self_of st) = (topology_opening ++ mid)%list
                              /\ 0 < topology_count (self_of st)))
                    read_line_topology _ _ _ Hloop
                    (or_introl (conj eq_refl (conj eq_refl eq_refl)))).
  cbv beta in Hinv.
  split; [| exists (new_file_arr st); apply filter_app].
  destruct (topology_arr (self_of st)) as [| a l] eqn:Hlines.
  - left. destruct Hinv as [(_ & Hcount & _) | (mid & Harr & _)]; [| discriminate Harr].
    split; [exact Hlines | exact Hcount].
  - right. destruct Hinv as [(Harr & _) | (mid & Harr & Hcount)]; [discriminate Harr |].
    exists mid. unfold set_topology_arr. cbn [topology_arr longest_match_enabled topology_count].
    rewrite Harr, <- app_assoc. split; [reflexivity | exact Hcount].
Qed.

Lemma topology_block_shape_witness :
  ((topology_arr one_directive_parser = [] /\ topology_count one_directive_parser = 0)
   \/ (exists mid,
          topology_arr one_directive_parser
          = (topology_opening ++ mid
             ++ topology_closing (longest_match_enabled one_directive_parser))%list
          /\ 0 < topology_count one_directive_parser))
  /\ exists others,
      topology_arr one_directive_parser
      = (filter kept others ++ filter kept (topology_arr one_directive_parser))%list.
Proof.
  exact (topology_block_shape new_parser one_directive_parser one_directive
           (topology_arr one_directive_parser) eq_refl).
Defined.

(* ================================================================== *)
(** ** Further properties: indentation and the extractor's choice *)
(* ================================================================== *)

Lemma substring_all (s : string) (m : nat) :
  String.length s <= m -> substring 0 m s = s.
Proof.
  revert m. induction s as [| c s IH]; intros m H.
  - destruct m; reflexivity.
  - destruct m as [| m]; [simpl in H; lia |]. simpl. rewrite IH by (simpl in H; lia).
    reflexivity.
Qed.

Lemma substring_skip (p s : string) (m : nat) :
  substring (String.length p) m (p ++ s) = substring 0 m s.
Proof. induction p as [| c p IH]; simpl; auto. Qed.

Lemma drop_prefix (p s : string) : Py.drop (String.length p) (p ++ s) = s.
Proof.
  unfold Py.drop. rewrite substring_skip, length_append.
  apply substring_all. lia.
Qed.

Lemma prefix_split (p s : string) : prefix p s = true -> exists x, s = p ++ x.
Proof.
  revert s. induction p as [| a p IH]; intros s H.
  - exists s. reflexivity.
  - destruct s as [| b s]; [discriminate H |]. simpl in H.
    destruct (ascii_dec a b) as [<- |]; [| discriminate H].
    destruct (IH s H) as [x ->]. exists x. reflexivity.
Qed.

(** X18: the extractor takes a member of the archive exactly when its name
    is [config/] followed by a file name that holds no slash and ends with
    [.conf], and extracts it under that file name: nothing outside
    [config/], nothing from a directory below it, no other kind of file. *)
Theorem extracted_name_spec (member_name name : string) :
  extracted_name member_name = Some name
  <-> member_name = "config/" ++ name
      /\ Py.contains "/" name = false /\ Py.endswith ".conf" name = true.
Proof.
  unfold extracted_name, Py.startswith. split.
  - destruct (prefix "config/" member_name) eqn:Hprefix; [| discriminate].
    destruct (prefix_split _ _ Hprefix) as [x ->]. rewrite drop_prefix.
    destruct (Py.contains "/" x) eqn:Hslash; [discriminate |]. cbn [negb andb].
    destruct (Py.endswith ".conf" x) eqn:Hconf; [| discriminate].
    intros H. injection H as <-. auto.
  - intros (-> & Hslash & Hconf).
    rewrite prefix_app, drop_prefix, Hslash, Hconf. reflexivity.
Qed.

Lemma remove_indent_round_trip (arr : list string) :
  remove_indent (map indent arr) = arr.
Proof.
  unfold remove_indent. rewrite map_map. rewrite <- (map_id arr) at 2.
  apply map_ext. intros line. unfold indent.
  assert (Hcount : (1 <? count_indent ("    " ++ line))%nat = true).
  { apply Nat.ltb_lt. unfold count_indent.
    change (Py.lstrip ("    " ++ line)) with (Py.lstrip line).
    assert (Hle : forall s, String.length (Py.lstrip s) <= String.length s).
    { induction s as [| c s IH]; simpl; [lia |]. destruct (Py.isspace c); simpl; lia. }
    specialize (Hle line). rewrite length_append.
    change (String.length "    ") with 4. lia. }
  rewrite Hcount. apply (drop_prefix "    " line).
Qed.

(** X19: [remove_indent] undoes one level of indentation: lines that each
    start with four more spaces come back as they were before. *)
Theorem remove_indent_indented (arr : list string) :
  remove_indent (map indent arr) = arr.
Proof. apply remove_indent_round_trip. Qed.

(* ================================================================== *)
(** ** Further properties: objects of simple properties *)
(* ================================================================== *)

Lemma substring_contains (p s : string) (n : nat) :
  substring n (String.length p) s = p -> Py.contains p s = true.
Proof.
  revert n. induction s as [| c s IH]; intros n H.
  - assert (Hp : p = "") by (destruct n, p; simpl in H; congruence).
    rewrite Hp. reflexivity.
  - destruct n as [| n].
    + apply prefix_correct in H. cbn [Py.contains]. rewrite H. reflexivity.
    + cbn [Py.contains]. simpl in H. rewrite (IH _ H). apply orb_true_r.
Qed.

Lemma endswith_contains (p s : string) :
  Py.endswith p s = true -> Py.contains p s = true.
Proof.
  unfold Py.endswith. intros H. apply andb_true_iff in H as [_ H].
  apply String.eqb_eq in H. apply (substring_contains _ _ _ H).
Qed.

Lemma contains_lstrip (c : ascii) (s : string) :
  Py.contains (String c "") (Py.lstrip s) = true -> Py.contains (String c "") s = true.
Proof.
  induction s as [| a s IH]; [auto |].
  cbn [Py.lstrip]. destruct (Py.isspace a); [| auto].
  intros H. rewrite contains_char_cons, (IH H). apply orb_true_r.
Qed.

Lemma contains_rstrip (c : ascii) (s : string) :
  Py.contains (String c "") (Py.rstrip s) = true -> Py.contains (String c "") s = true.
Proof.
  induction s as [| a s IH]; [auto |].
  cbn [Py.rstrip]. rewrite contains_char_cons.
  destruct (Py.rstrip s) as [| a' r] eqn:Hr.
  - destruct (Py.isspace a); [discriminate |].
    rewrite contains_char_cons. intros H. apply orb_true_iff in H as [H | H];
      [rewrite H; reflexivity | discriminate H].
  - rewrite contains_char_cons. intros H. apply orb_true_iff in H as [H | H].
    + rewrite H. reflexivity.
    + rewrite (IH H). apply orb_true_r.
Qed.

Lemma contains_strip (c : ascii) (s : string) :
  Py.contains (String c "") s = false -> Py.contains (String c "") (Py.strip s) = false.
Proof.
  intros H. destruct (Py.contains (String c "") (Py.strip s)) eqn:Hs; [| reflexivity].
  unfold Py.strip in Hs. apply contains_rstrip, contains_lstrip in Hs. congruence.
Qed.

Lemma contains_empty_object (s : string) :
  Py.contains "{ }" s = true -> Py.contains "{" s = true.
Proof.
  induction s as [| a s IH]; [discriminate |].
  cbn [Py.contains]. intros H. apply orb_true_iff in H as [H | H].
  - destruct (prefix_split _ _ H) as [x Hx]. injection Hx as -> _.
    destruct s; reflexivity.
  - rewrite (IH H). apply orb_true_r.
Qed.

Lemma contains_count (c : ascii) (s : string) :
  Py.contains (String c "") s = false -> Py.count c s = 0.
Proof.
  induction s as [| a s IH]; intros H; [reflexivity |].
  rewrite contains_char_cons in H. apply orb_false_iff in H as [Ha Hs].
  simpl. rewrite Ascii.eqb_sym, Ha, (IH Hs). reflexivity.
Qed.

Lemma unquoted_no_match (s : string) :
  Py.contains dq s = false -> Re.matches quoted_line_re s = false.
Proof.
  destruct s as [| a s]; [reflexivity |].
  unfold dq. rewrite contains_char_cons. intros H. apply orb_false_iff in H as [Ha _].
  unfold Re.matches. cbn. unfold Re.chr. rewrite Ascii.eqb_sym, Ha. reflexivity.
Qed.

(** What [str_to_obj] makes of a line with a token. *)
Lemma str_to_obj_property (line : string) :
  Py.split_ws line <> [] ->
  str_to_obj (Py.strip line) = inr [(property_key line, property_value line)].
Proof.
  intros H. unfold str_to_obj, property_key, property_value.
  rewrite !split_ws_strip. destruct (Py.split_ws line); [congruence | reflexivity].
Qed.

(** One pass of the loop on a simple property line. *)
Lemma body_loop_simple_property (rec : list string -> result dict) (key : string)
      (arr : list string) (fuel i : nat) (c : option nat) (obj : dict) (line : string) :
  Py.startswith "gtm monitor external" key = false ->
  nth_error arr i = Some line ->
  simple_property line = true ->
  body_loop rec key arr (S fuel) i c obj
  = body_loop rec key arr fuel (i + 1) c
      (dict_set (property_key line) (Str (property_value line)) obj).
Proof.
  intros Hkey Hline Hsimple. unfold simple_property in Hsimple.
  apply andb_true_iff in Hsimple as [Hsimple Hspace].
  apply andb_true_iff in Hsimple as [Hsimple Hindent].
  apply andb_true_iff in Hsimple as [Hsimple Hquote].
  apply andb_true_iff in Hsimple as [Hopen Hclose].
  apply negb_true_iff in Hopen, Hclose, Hquote, Hspace.
  rewrite (body_loop_pass _ _ _ _ _ _ _ _ Hline).
  assert (H1 : Py.endswith "{" line = false).
  { destruct (Py.endswith "{" line) eqn:H; [| reflexivity].
    apply endswith_contains in H. congruence. }
  assert (H2 : Py.endswith "{ }" (Py.strip line) = false).
  { destruct (Py.endswith "{ }" (Py.strip line)) eqn:H; [| reflexivity].
    apply endswith_contains, contains_empty_object in H.
    rewrite (contains_strip "{" line Hopen) in H. discriminate H. }
  assert (H3 : Re.matches quoted_line_re (Py.strip line) = false)
    by (apply unquoted_no_match, (contains_strip "034" line Hquote)).
  assert (H4 : odd_quotes line = false)
    by (unfold odd_quotes; rewrite (contains_count "034" line Hquote); reflexivity).
  assert (H5 : Py.split_ws line <> []).
  { apply split_ws_not_blank. destruct (blank line) eqn:Hb; [| reflexivity].
    rewrite (strip_blank line Hb) in Hspace. discriminate Hspace. }
  rewrite H1, H2, Hopen, Hspace, H3, Hindent, H4, (str_to_obj_property line H5), Hkey.
  reflexivity.
Qed.

Lemma body_loop_simple_properties (rec : list string -> result dict) (key : string)
      (rest : list string) :
  Py.startswith "gtm monitor external" key = false ->
  forallb simple_property rest = true ->
  forall (pre : list string) (fuel : nat) (c : option nat) (obj : dict),
    length rest <= fuel ->
    body_loop rec key (pre ++ rest)%list fuel (length pre) c obj
    = inr (set_properties obj rest).
Proof.
  intros Hkey. induction rest as [| line rest IH]; intros Hall pre fuel c obj Hfuel.
  - rewrite app_nil_r. destruct fuel; simpl; [| rewrite nth_error_at_end]; reflexivity.
  - cbn [forallb] in Hall. apply andb_true_iff in Hall as [Hline Hrest].
    destruct fuel as [| fuel]; [simpl in Hfuel; lia |].
    rewrite (body_loop_simple_property rec key _ fuel _ c obj line Hkey
               (nth_error_after pre rest line) Hline).
    replace (pre ++ line :: rest)%list with ((pre ++ [line]) ++ rest)%list
      by (rewrite <- app_assoc; reflexivity).
    replace (length pre + 1) with (length (pre ++ [line])%list)
      by (rewrite length_app; reflexivity).
    rewrite (IH Hrest) by (simpl in Hfuel; lia). reflexivity.
Qed.

(** X20: an object whose body lines are all simple properties (no brace, no
    quote, four columns of indentation, key and value separated by a
    space), under a title that is no rule, no [monitor min] list, no
    [cli script], no certificate order manager and no external GTM monitor,
    is the dictionary that sets, for each line in turn, the first token of
    the line to its other tokens joined by single spaces; a key that comes
    twice keeps the later value. *)
Theorem object_of_simple_properties (header last : string) (body : list string) :
  is_rule (get_title header) = false ->
  Py.contains "monitor min" (get_title header) = false ->
  Py.contains "cli script" (get_title header)
  || Py.contains "sys crypto cert-order-manager" (get_title header) = false ->
  Py.startswith "gtm monitor external" (get_title header) = false ->
  forallb simple_property body = true ->
  orchestrate (header :: body ++ [last])%list
  = inr [(get_title header, Obj (set_properties [] body))].
Proof.
  intros Hrule Hmin Hcli Hext Hbody. unfold orchestrate. cbn [orchestrate_rec].
  replace (length (header :: body ++ [last])%list <=? 1)%nat with false
    by (symmetry; apply Nat.leb_gt; simpl; rewrite length_app; simpl; lia).
  rewrite body_of_group, Hrule, Hmin, Hcli.
  rewrite (body_loop_simple_properties _ _ body Hext Hbody [] (length body) None []
             (Nat.le_refl _)).
  reflexivity.
Qed.

Lemma object_of_simple_properties_witness :
  orchestrate ("ltm node /Common/n1 {"
                 :: ["    address 10.0.0.1"; "    monitor   /Common/icmp";
                     "    address 10.0.0.2"] ++ ["}"])%list
  = inr [(get_title "ltm node /Common/n1 {",
          Obj (set_properties [] ["    address 10.0.0.1"; "    monitor   /Common/icmp";
                                  "    address 10.0.0.2"]))].
Proof. apply object_of_simple_properties; reflexivity. Defined.

(* ================================================================== *)
(** ** Further properties: nested objects *)
(* ================================================================== *)

Lemma substring_shift (q s : string) (n m : nat) :
  substring (String.length q + n) m (q ++ s) = substring n m s.
Proof. induction q as [| c q IH]; simpl; auto. Qed.

Lemma endswith_app (p q s : string) :
  Py.endswith p s = true -> Py.endswith p (q ++ s) = true.
Proof.
  unfold Py.endswith. intros H. apply andb_true_iff in H as [Hlen Heq].
  apply Nat.leb_le in Hlen. rewrite length_append.
  replace (String.length q + String.length s - String.length p)
    with (String.length q + (String.length s - String.length p)) by lia.
  rewrite substring_shift, Heq, andb_true_r. apply Nat.leb_le. lia.
Qed.

Lemma indent_inj (a b : string) : indent a = indent b -> a = b.
Proof. unfold indent. simpl. congruence. Qed.

Lemma next_index_first (p : string -> bool) (pre post : list string) (x : string) :
  Forall (fun l => p l = false) pre -> p x = true ->
  forall start,
    next_index p (Py.enumerate start (pre ++ x :: post)%list) = Some (start + length pre).
Proof.
  intros Hpre Hx. induction Hpre as [| l pre Hl _ IH]; intros start; simpl.
  - rewrite Hx. f_equal. lia.
  - rewrite Hl, IH. f_equal. lia.
Qed.

Lemma coerce_unchanged (l : list string) :
  Forall (fun x => x <> "    {") l ->
  forall start,
    map (fun jl => if (snd jl =? "    {")%string
                   then Py.str_of_nat (fst jl) ++ " " ++ snd jl
                   else snd jl)
        (Py.enumerate start l) = l.
Proof.
  induction 1 as [| x l Hx _ IH]; intros start; simpl; [reflexivity |].
  rewrite IH. apply String.eqb_neq in Hx. rewrite Hx. reflexivity.
Qed.

(** One pass of the loop on the header of a nested object: the recursive
    call receives the lines of the object one level out, and the loop goes
    on after its closing line. *)
Lemma body_loop_nested (rec : list string -> result dict) (key : string)
      (pre post : list string) (header : string) (body : list string)
      (fuel : nat) (c : option nat) (obj : dict) (d : dict) :
  Py.endswith "{" header = true ->
  header <> "    {" ->
  Forall (fun l => l <> "}" /\ l <> "    {") body ->
  rec (header :: body ++ ["}"])%list = inr d ->
  body_loop rec key (pre ++ nested_lines header body ++ post)%list (S fuel)
            (length pre) c obj
  = body_loop rec key (pre ++ nested_lines header body ++ post)%list fuel
              (length pre + length (nested_lines header body))
              (Some (length pre + length body + 1)) (dict_update obj d).
Proof.
  intros Hopen Hheader Hbody Hrec.
  assert (Hline : nth_error (pre ++ nested_lines header body ++ post)%list (length pre)
                  = Some (indent header)) by apply nth_error_after.
  rewrite (body_loop_pass _ _ _ _ _ _ _ _ Hline).
  assert (Hend : Py.endswith "{" (indent header) = true)
    by apply (endswith_app "{" "    " header Hopen).
  rewrite Hend.
  replace (length (pre ++ nested_lines header body ++ post)%list =? 1)%nat with false.
  2:{ symmetry. apply Nat.eqb_neq. unfold nested_lines.
      rewrite !length_app. simpl. rewrite length_app. simpl. lia. }
  cbn [negb andb]. rewrite skipn_after.
  assert (Hnext : next_index (fun l => (l =? "    }")%string)
                    (Py.enumerate (length pre) (nested_lines header body ++ post)%list)
                  = Some (length pre + length (indent header :: map indent body))).
  { unfold nested_lines.
    change ((indent header :: map indent body ++ ["    }"]) ++ post)%list
      with (indent header :: (map indent body ++ ["    }"]) ++ post)%list.
    rewrite <- app_assoc.
    change (indent header :: map indent body ++ ["    }"] ++ post)%list
      with ((indent header :: map indent body) ++ "    }" :: post)%list.
    apply next_index_first; [| reflexivity].
    constructor.
    - apply String.eqb_neq. intros H. apply (indent_inj header "}") in H.
      rewrite H in Hopen. discriminate Hopen.
    - apply Forall_map. apply (Forall_impl _ (P := fun l => l <> "}" /\ l <> "    {"));
        [| exact Hbody].
      intros l [Hl _]. apply String.eqb_neq. intros H. apply (indent_inj l "}") in H.
      contradiction. }
  rewrite Hnext. cbv zeta.
  assert (Hslice : Py.lslice (length pre)
                     (length pre + length (indent header :: map indent body) + 1)
                     (pre ++ nested_lines header body ++ post)%list
                   = map indent (header :: body ++ ["}"])%list).
  { unfold Py.lslice. rewrite skipn_after.
    replace (length pre + length (indent header :: map indent body) + 1 - length pre)
      with (length (nested_lines header body))
      by (unfold nested_lines; simpl; rewrite length_app; simpl; lia).
    rewrite firstn_length_app. unfold nested_lines. simpl. rewrite map_app. reflexivity. }
  rewrite Hslice, remove_indent_round_trip, coerce_unchanged, Hrec.
  2:{ constructor; [exact Hheader |]. apply Forall_app. split.
      - apply (Forall_impl _ (P := fun l => l <> "}" /\ l <> "    {")); [| exact Hbody].
        intros l [_ Hl]. exact Hl.
      - constructor; [discriminate | constructor]. }
  cbn [bind]. f_equal.
  - unfold nested_lines. simpl. rewrite length_app, !length_map. simpl. lia.
  - f_equal. simpl. rewrite length_map. lia.
Qed.

Lemma body_loop_properties_then (rec : list string -> result dict) (key : string)
      (props : list string) :
  Py.startswith "gtm monitor external" key = false ->
  forallb simple_property props = true ->
  forall (pre post : list string) (fuel : nat) (c : option nat) (obj : dict),
    body_loop rec key (pre ++ props ++ post)%list (length props + fuel) (length pre) c obj
    = body_loop rec key (pre ++ props ++ post)%list fuel (length pre + length props) c
                (set_properties obj props).
Proof.
  intros Hkey. induction props as [| line props IH]; intros Hall pre post fuel c obj.
  - simpl. rewrite Nat.add_0_r. reflexivity.
  - cbn [forallb] in Hall. apply andb_true_iff in Hall as [Hline Hrest].
    cbn [length Nat.add].
    change ((line :: props) ++ post)%list with (line :: (props ++ post))%list.
    rewrite (body_loop_simple_property rec key _ (length props + fuel) _ c obj line Hkey
               (nth_error_after pre (props ++ post) line) Hline).
    replace (pre ++ line :: props ++ post)%list
      with ((pre ++ [line]) ++ props ++ post)%list
      by (rewrite <- app_assoc; reflexivity).
    replace (length pre + 1) with (length (pre ++ [line])%list)
      by (rewrite length_app; reflexivity).
    rewrite (IH Hrest). rewrite length_app. cbn [length set_properties fold_left].
    f_equal. lia.
Qed.

Lemma body_loop_properties_first (rec : list string -> result dict) (key : string)
      (props post : list string) (fuel : nat) (c : option nat) (obj : dict) :
  Py.startswith "gtm monitor external" key = false ->
  forallb simple_property props = true ->
  body_loop rec key (props ++ post)%list (length props + fuel) 0 c obj
  = body_loop rec key (props ++ post)%list fuel (length props) c
              (set_properties obj props).
Proof.
  intros Hkey Hprops.
  exact (body_loop_properties_then rec key props Hkey Hprops [] post fuel c obj).
Qed.

(** X21: an object whose body is made of simple properties, then one nested
    object (a header that ends with an opening brace, its lines, and the
    closing brace, all one level in), then simple properties again, is the
    dictionary of the first properties, updated with what [orchestrate]
    returns for the nested object taken one level out, then with the last
    properties.  The nested lines must hold no bare closing brace and no
    bare opening brace at their own first level. *)
Theorem object_with_nested_object (header last nheader : string)
        (before nbody after : list string) (d : dict) :
  is_rule (get_title header) = false ->
  Py.contains "monitor min" (get_title header) = false ->
  Py.contains "cli script" (get_title header)
  || Py.contains "sys crypto cert-order-manager" (get_title header) = false ->
  Py.startswith "gtm monitor external" (get_title header) = false ->
  forallb simple_property before = true ->
  forallb simple_property after = true ->
  Py.endswith "{" nheader = true ->
  nheader <> "    {" ->
  Forall (fun l => l <> "}" /\ l <> "    {") nbody ->
  orchestrate (nheader :: nbody ++ ["}"])%list = inr d ->
  orchestrate (header :: (before ++ nested_lines nheader nbody ++ after) ++ [last])%list
  = inr [(get_title header,
          Obj (set_properties (dict_update (set_properties [] before) d) after))].
Proof.
  intros Hrule Hmin Hcli Hext Hbefore Hafter Hopen Hnheader Hnbody Hnested.
  unfold orchestrate at 1. cbn [orchestrate_rec].
  replace (length (header :: (before ++ nested_lines nheader nbody ++ after) ++ [last])%list
           <=? 1)%nat with false
    by (symmetry; apply Nat.leb_gt; simpl; rewrite length_app; simpl; lia).
  rewrite body_of_group, Hrule, Hmin, Hcli.
  set (depth := length (header :: (before ++ nested_lines nheader nbody ++ after)
                                ++ [last])%list).
  assert (Hdepth : length (nheader :: nbody ++ ["}"])%list < depth).
  { unfold depth, nested_lines. simpl. rewrite !length_app. simpl.
    rewrite !length_app. simpl. rewrite length_map. lia. }
  assert (Hrec : orchestrate_rec depth (nheader :: nbody ++ ["}"])%list = inr d)
    by (rewrite (orchestrate_any_depth _ _ Hdepth); exact Hnested).
  rewrite !length_app.
  replace (length before + (length (nested_lines nheader nbody) + length after))
    with (length before + S (length (nested_lines nheader nbody) - 1 + length after))
    by (unfold nested_lines; simpl; lia).
  rewrite (body_loop_properties_first _ _ before _ _ None [] Hext Hbefore).
  rewrite (body_loop_nested _ _ before after nheader nbody _ None _ d
             Hopen Hnheader Hnbody Hrec).
  replace (before ++ nested_lines nheader nbody ++ after)%list
    with ((before ++ nested_lines nheader nbody) ++ after)%list
    by (rewrite <- app_assoc; reflexivity).
  replace (length before + length (nested_lines nheader nbody))
    with (length (before ++ nested_lines nheader nbody)%list)
    by (rewrite length_app; reflexivity).
  rewrite (body_loop_simple_properties _ _ after Hext Hafter) by (unfold nested_lines; simpl; lia).
  reflexivity.
Qed.

Lemma object_with_nested_object_witness :
  orchestrate ("ltm pool /Common/p {"
                 :: (["    monitor /Common/http"]
                       ++ nested_lines "members {" ["    /Common/a:80 { }"]
                       ++ ["    description web pool"]) ++ ["}"])%list
  = inr [(get_title "ltm pool /Common/p {",
          Obj (set_properties
                 (dict_update (set_properties [] ["    monitor /Common/http"])
                              [("members", Obj [("/Common/a:80", Obj [])])])
                 ["    description web pool"]))].
Proof.
  apply object_with_nested_object; try reflexivity.
  - discriminate.
  - repeat constructor; discriminate.
Defined.

(* ================================================================== *)
(** ** Rule bodies, from the file to the value (C3) *)
(* ================================================================== *)


























